(** * linenote: notes attached to line ranges of source files

    A shallow embedding of [src/extension.ts] (the extension's activation
    code: event handlers, commands and the periodic sweep) together with the
    parts of the note model it calls into.

    Conventions.
    - File paths are byte strings ([string]); a unicode character of a path
      is its UTF-8 byte sequence.
    - Contents of files are JavaScript strings, i.e. sequences of UTF-16 code
      units ([list N]).
    - Line numbers are the non-negative integers of the editor API ([nat]).
    - Clock readings and durations are integer milliseconds ([Z]).
    - Each handler is an [async] function whose body runs as one sequence of
      steps over the [World]; the value it leaves behind is the world at the
      point where the promise settles.
    - [watch] and [automaticallyDelete] are called and not awaited: in a
      session they run as far as an [await] and go on from it later, so
      that other events, and other runs of [watch], come in between.
    - [note.ts], [noteUtil.ts] and [decorator.ts] are imported by
      [extension.ts] but are not part of the sources at hand: what
      [extension.ts] calls in them is modelled from the specification and
      marked so. *)

From Stdlib Require Import Ascii String ZArith DecimalString DecimalNat.
From stdpp Require Import gmap strings list fin_maps sorting.

Local Open Scope string_scope.

(* ===================================================================== *)
(** ** Strings *)
(* ===================================================================== *)

Module Str.

(** [occurs c s]: the character [c] occurs in [s]. *)
Fixpoint occurs (c : ascii) (s : string) : bool :=
  match s with
  | EmptyString => false
  | String a r => Ascii.eqb a c || occurs c r
  end.

(** JavaScript's [s.split(c)] for a one-character separator: the result
    is never empty, and [n] separators give [n + 1] fields. *)
Fixpoint splitOn (c : ascii) (s : string) : list string :=
  match s with
  | EmptyString => [EmptyString]
  | String a r =>
      if Ascii.eqb a c then EmptyString :: splitOn c r
      else match splitOn c r with
           | h :: t => String a h :: t
           | [] => [String a EmptyString]
           end
  end.

(** JavaScript's [l.join(c)]. *)
Fixpoint joinWith (c : ascii) (l : list string) : string :=
  match l with
  | [] => EmptyString
  | [x] => x
  | x :: r => x +:+ String c (joinWith c r)
  end.

(** [stripPrefix p s]: [Some r] when [s = p +:+ r]. *)
Fixpoint stripPrefix (p s : string) : option string :=
  match p, s with
  | EmptyString, _ => Some s
  | String a p', String b s' =>
      if Ascii.eqb a b then stripPrefix p' s' else None
  | String _ _, EmptyString => None
  end.

End Str.

(* ===================================================================== *)
(** ** JavaScript values *)
(* ===================================================================== *)

(** A JavaScript string: its UTF-16 code units. *)
Definition jsString : Type := list N.

(** ECMAScript [WhiteSpace] and [LineTerminator] code points, the ones
    [String.prototype.trim] strips.  All of them are in the basic plane, so
    each is one code unit. *)
Definition isWhiteSpace (u : N) : bool :=
  ((u =? 0x9) || (u =? 0xA) || (u =? 0xB) || (u =? 0xC) || (u =? 0xD)
   || (u =? 0x20) || (u =? 0xA0) || (u =? 0x1680)
   || ((0x2000 <=? u) && (u <=? 0x200A))
   || (u =? 0x2028) || (u =? 0x2029) || (u =? 0x202F) || (u =? 0x205F)
   || (u =? 0x3000) || (u =? 0xFEFF))%N.

Fixpoint trimStart (s : jsString) : jsString :=
  match s with
  | [] => []
  | u :: r => if isWhiteSpace u then trimStart r else s
  end.

Definition trimEnd (s : jsString) : jsString := rev (trimStart (rev s)).

(** [s.trim()] *)
Definition trim (s : jsString) : jsString := trimEnd (trimStart s).

(** A JavaScript number, a binary64 value.  The finite numbers kept here are
    the integer ones: the clock gives integer milliseconds and the interval
    is configured in milliseconds. *)
Inductive Number : Type :=
| NaN
| Infinity (negative : bool)
| Finite (z : Z).

Inductive JSValue : Type :=
| VUndefined
| VNull
| VBoolean (b : bool)
| VNumber (n : Number)
| VString (s : jsString)
| VObject.

(** [ToBoolean]: what [if (v)] tests. *)
Definition truthy (v : JSValue) : bool :=
  match v with
  | VUndefined | VNull => false
  | VBoolean b => b
  | VNumber NaN => false
  | VNumber (Infinity _) => true
  | VNumber (Finite z) => negb (z =? 0)%Z
  | VString s => negb (length s =? 0)%nat
  | VObject => true
  end.

(** [n >= 0] *)
Definition geZero (n : Number) : bool :=
  match n with
  | NaN => false
  | Infinity negative => negb negative
  | Finite z => (0 <=? z)%Z
  end.

(** The binary64 number nearest to the integer [z], ties going to the even
    significand: integers below [2^53] in size are kept, larger ones lose
    their low bits. *)
Definition roundInteger (z : Z) : Z :=
  let a := Z.abs z in
  if (a <? 2 ^ 53)%Z then z
  else
    let s := (Z.log2 a - 52)%Z in
    let q := Z.shiftr a s in
    let r := Z.land a (Z.ones s) in
    let half := (2 ^ (s - 1))%Z in
    let q' := if (half <? r)%Z || ((r =? half)%Z && Z.odd q)
              then (q + 1)%Z else q in
    (Z.sgn z * Z.shiftl q' s)%Z.

(** The result of an integer computation as a number: rounded, and infinite
    from [2^1024] on. *)
Definition toNumber (z : Z) : Number :=
  let m := roundInteger z in
  if (2 ^ 1024 <=? Z.abs m)%Z then Infinity (z <? 0)%Z else Finite m.

(** [n - d] for a finite [d], as binary64 subtraction gives it. *)
Definition numSub (n : Number) (d : Z) : Number :=
  match n with
  | NaN => NaN
  | Infinity negative => Infinity negative
  | Finite z => toNumber (z - d)
  end.

(** [Math.max(0, n)] *)
Definition mathMax0 (n : Number) : Number :=
  match n with
  | NaN => NaN
  | Infinity true => Finite 0
  | Infinity false => Infinity false
  | Finite z => Finite (Z.max 0 z)
  end.

(** [if (notePath)] on an optional string argument: [undefined] and the
    empty string are falsy. *)
Definition givenPath (notePath : option string) : option string :=
  match notePath with
  | Some EmptyString | None => None
  | Some p => Some p
  end.

(* ===================================================================== *)
(** ** The note model *)
(* ===================================================================== *)

(** A note's identity. *)
Record Note : Type := mkNote {
  sourceFilePath : string;
  fromLine : nat;
  toLine : nat;
  uid : nat
}.

#[global] Instance Note_eq_dec : EqDecision Note.
Proof. solve_decision. Defined.

(** A tuple is valid when its lines are 1-based and ordered. *)
Definition validNote (n : Note) : Prop :=
  (1 <= fromLine n /\ fromLine n <= toLine n)%nat.

Module PathCodec.

(** The delimiter that separates the sanitized source path, the line
    range and the uid, and the character that introduces an escape. *)
Definition delimiter : ascii := "#"%char.
Definition escape : ascii := "%"%char.
Definition separator : ascii := "/"%char.
Definition dash : ascii := "-"%char.

(** Decimal numerals, as template literals print integers. *)
Definition dec (n : nat) : string := NilEmpty.string_of_uint (Nat.to_uint n).

Definition undec (s : string) : option nat :=
  Nat.of_uint <$> NilEmpty.uint_of_string s.

(** Modelled from the spec: the sanitizer of one path segment, missing
    from src/ (PathCodec lives in the note modules).  The delimiter and
    the escape character are replaced by a three-character escape, so a
    sanitized segment never holds the delimiter. *)
Fixpoint sanitize (s : string) : string :=
  match s with
  | EmptyString => EmptyString
  | String c r =>
      if Ascii.eqb c delimiter
      then String escape (String "2" (String "3" (sanitize r)))
      else if Ascii.eqb c escape
      then String escape (String "2" (String "5" (sanitize r)))
      else String c (sanitize r)
  end.

(** Modelled from the spec: the inverse of [sanitize]; an escape that
    [sanitize] does not produce is refused. *)
Fixpoint desanitize (s : string) : option string :=
  match s with
  | EmptyString => Some EmptyString
  | String c r =>
      if Ascii.eqb c escape then
        match r with
        | String a (String b r') =>
            if Ascii.eqb a "2" && Ascii.eqb b "3"
            then String delimiter <$> desanitize r'
            else if Ascii.eqb a "2" && Ascii.eqb b "5"
            then String escape <$> desanitize r'
            else None
        | _ => None
        end
      else String c <$> desanitize r
  end.

(** Modelled from the spec: [encode], missing from src/.  The note path is
    the notes root, the sanitized segments of the source path, and the
    line-range and uid suffix, each introduced by the delimiter. *)
Definition encode (root : string) (n : Note) : string :=
  root +:+ String separator
    (Str.joinWith separator
       (sanitize <$> Str.splitOn separator (sourceFilePath n))
     +:+ String delimiter
       (dec (fromLine n) +:+ String dash
          (dec (toLine n) +:+ String delimiter (dec (uid n))))).

(** Reading the fields back, without checking that the path is the
    canonical one. *)
Definition parse (root path : string) : option Note :=
  rel ← Str.stripPrefix (root +:+ String separator EmptyString) path;
  match Str.splitOn delimiter rel with
  | [segments; range; u] =>
      match Str.splitOn dash range with
      | [f; t] =>
          src ← Str.joinWith separator
                  <$> mapM desanitize (Str.splitOn separator segments);
          from ← undec f;
          to ← undec t;
          id ← undec u;
          Some (mkNote src from to id)
      | _ => None
      end
  | _ => None
  end.

(** Modelled from the spec: [decode], missing from src/.  A path matches
    the naming grammar when it lies under the notes root and is the
    encoding of the tuple read from it; [None] is [NotADescendantError]. *)
Definition decode (root path : string) : option Note :=
  n ← parse root path;
  if String.eqb (encode root n) path then Some n else None.

(** Modelled from the spec: [isNotePath], missing from src/. *)
Definition isNotePath (root path : string) : bool :=
  match decode root path with Some _ => true | None => false end.

End PathCodec.

(** Modelled from the spec: [Note.isOverlapped], missing from src/
    (note.ts); the two inclusive ranges are compared end against start. *)
Definition isOverlapped (n : Note) (from to : nat) : bool :=
  ((fromLine n <=? to) && (from <=? toLine n))%nat.

(** The derived attribute [notePath]. *)
Definition notePath (root : string) (n : Note) : string :=
  PathCodec.encode root n.

(* ===================================================================== *)
(** ** The editor and the world the extension runs in *)
(* ===================================================================== *)

Record Position : Type := mkPosition { line : nat; character : nat }.

(** [a.isBeforeOrEqual(b)] *)
Definition isBeforeOrEqual (a b : Position) : bool :=
  ((line a <? line b) || ((line a =? line b) && (character a <=? character b)))%nat.

(** [vscode.Selection]: [start] and [end]. *)
Record Selection : Type := mkSelection { start : Position; end_ : Position }.

Record TextDocument : Type := mkTextDocument {
  fsPath : string;              (* document.uri.fsPath *)
  text : list jsString          (* the lines of the document *)
}.

Record TextEditor : Type := mkTextEditor {
  document : TextDocument;
  selection : Selection
}.

(** The editor keeps one document object per resource, so the identity test
    [a === b] on documents compares their resources. *)
Definition sameDocument (a b : TextDocument) : bool :=
  String.eqb (fsPath a) (fsPath b).

(** One edit of a change event: the replaced range and the new text. *)
Record ContentChange : Type := mkContentChange {
  changeRange : Selection;
  changeText : list jsString
}.

Record TextDocumentChangeEvent : Type := mkChangeEvent {
  changedDocument : TextDocument;
  contentChanges : list ContentChange
}.

(** Calls that leave the function being run, in the order they are made. *)
Inductive Call : Type :=
| CallNoteExists (path : string) (result : bool)
| CallRead (path : string)
| CallWrite (path : string) (body : jsString)
| CallRemove (path : string)
| CallOpen (path : string)
| CallDecorateDebounce
| CallRemoveNotCorrespondingNotes
| CallSetTimeout (delay : Number).

#[global] Instance Number_eq_dec : EqDecision Number.
Proof. solve_decision. Defined.

#[global] Instance Call_eq_dec : EqDecision Call.
Proof. solve_decision. Defined.

Record World : Type := mkWorld {
  files : gmap string jsString;        (* the file system: path to contents *)
  notesRoot : string;                  (* the configured notes root *)
  configuration : gmap string JSValue; (* workspace configuration *)
  activeTextEditor : option TextEditor;
  disposed : bool;
  now : Z;                             (* the clock, in milliseconds *)
  calls : list Call
}.

Definition setFiles (f : gmap string jsString) (w : World) : World :=
  mkWorld f (notesRoot w) (configuration w) (activeTextEditor w)
          (disposed w) (now w) (calls w).

Definition setNow (t : Z) (w : World) : World :=
  mkWorld (files w) (notesRoot w) (configuration w) (activeTextEditor w)
          (disposed w) t (calls w).

Definition record (c : Call) (w : World) : World :=
  mkWorld (files w) (notesRoot w) (configuration w) (activeTextEditor w)
          (disposed w) (now w) (calls w ++ [c]).

(** The typed errors a promise can be rejected with. *)
Inductive Error : Type :=
| NotADescendantError
| InvalidNotePathError
| NotFoundError
| StorageError.

Inductive Outcome (A : Type) : Type :=
| Returned (a : A)
| Thrown (e : Error).
Arguments Returned {A} a.
Arguments Thrown {A} e.

(** An asynchronous computation: from a world to its outcome and the world
    it leaves. *)
Record Async (A : Type) : Type := mkAsync { run : World -> Outcome A * World }.
Arguments mkAsync {A} run.
Arguments run {A} a w.

#[global] Instance Async_ret : MRet Async :=
  fun A a => mkAsync (fun w => (Returned a, w)).

#[global] Instance Async_bind : MBind Async :=
  fun A B k m =>
    mkAsync (fun w =>
      match run m w with
      | (Returned a, w') => run (k a) w'
      | (Thrown e, w') => (Thrown e, w')
      end).

Definition throw {A} (e : Error) : Async A := mkAsync (fun w => (Thrown e, w)).
Definition gets {A} (f : World -> A) : Async A :=
  mkAsync (fun w => (Returned (f w), w)).
Definition modify (f : World -> World) : Async unit :=
  mkAsync (fun w => (Returned tt, f w)).

(** The world a computation leaves, and the calls it made. *)
Definition exec {A} (m : Async A) (w : World) : World := snd (run m w).
Definition outcome {A} (m : Async A) (w : World) : Outcome A := fst (run m w).

(** [xs.forEach(async x => await f x)] run to completion, in order. *)
Fixpoint forEach {A} (f : A -> Async unit) (xs : list A) : Async unit :=
  match xs with
  | [] => mret tt
  | x :: r => f x ;; forEach f r
  end.

(* ===================================================================== *)
(** ** Note operations and the correspondence index *)
(* ===================================================================== *)

(** The order of a correspondence set: [fromLine] ascending, ties broken by
    [uid]. *)
Definition noteLe (a b : Note) : Prop :=
  (fromLine a < fromLine b \/ (fromLine a = fromLine b /\ uid a <= uid b))%nat.

#[global] Instance noteLe_dec : RelDecision noteLe.
Proof. intros a b. unfold noteLe. apply _. Defined.

(** Every note file of the store, decoded. *)
Definition storedNotes (root : string) (fs : gmap string jsString) : list Note :=
  omap (PathCodec.decode root) (fst <$> map_to_list fs).

(** Modelled from the spec: [getCorrespondingNotes], missing from src/
    (noteUtil.ts): the notes under the notes root whose decoded source path
    is the argument, in the order of [noteLe]. *)
Definition correspondingNotes (root : string) (fs : gmap string jsString)
    (source : string) : list Note :=
  merge_sort noteLe
    (filter (fun n => sourceFilePath n = source) (storedNotes root fs)).

(** A note path is orphaned when the source file it decodes to is absent. *)
Definition orphaned (root : string) (fs : gmap string jsString)
    (path : string) : bool :=
  match PathCodec.decode root path with
  | Some n => bool_decide (fs !! sourceFilePath n = None)
  | None => false
  end.

Module NoteOps.

(** Modelled from the spec: [Note.fromNotePath], missing from src/. *)
Definition fromNotePath (path : string) : Async Note :=
  root ← gets notesRoot;
  match PathCodec.decode root path with
  | Some n => mret n
  | None => throw InvalidNotePathError
  end.

(** Modelled from the spec: the identity [Note.fromFsPath] settles on
    (note.ts is missing from src/).  The uid of a note already on disk for
    the same source and range is reused; otherwise [fresh], the uid minted
    from the time and a random component, is taken. *)
Definition identityFor (fresh : nat) (root : string)
    (fs : gmap string jsString) (source : string) (from to : nat) : Note :=
  match
    List.find (fun n => bool_decide (fromLine n = from /\ toLine n = to))
              (correspondingNotes root fs source)
  with
  | Some n => n
  | None => mkNote source from to fresh
  end.

(** Modelled from the spec: [Note.fromFsPath], missing from src/. *)
Definition fromFsPath (fresh : nat) (source : string) (from to : nat)
    : Async Note :=
  root ← gets notesRoot;
  fs ← gets files;
  mret (identityFor fresh root fs source from to).

(** Modelled from the spec: [noteExists], missing from src/. *)
Definition noteExists (n : Note) : Async bool :=
  root ← gets notesRoot;
  fs ← gets files;
  let r := bool_decide (is_Some (fs !! notePath root n)) in
  modify (record (CallNoteExists (notePath root n) r)) ;;
  mret r.

(** Modelled from the spec: [read], missing from src/. *)
Definition read (n : Note) : Async jsString :=
  root ← gets notesRoot;
  fs ← gets files;
  modify (record (CallRead (notePath root n))) ;;
  match fs !! notePath root n with
  | Some body => mret body
  | None => throw NotFoundError
  end.

(** Modelled from the spec: [write], missing from src/; creates the file
    or overwrites it. *)
Definition write (n : Note) (body : jsString) : Async unit :=
  root ← gets notesRoot;
  modify (record (CallWrite (notePath root n) body)) ;;
  modify (fun w => setFiles (<[notePath root n := body]> (files w)) w).

(** Modelled from the spec: [remove], missing from src/; no error when
    the file is already absent. *)
Definition remove (n : Note) : Async unit :=
  root ← gets notesRoot;
  modify (record (CallRemove (notePath root n))) ;;
  modify (fun w => setFiles (delete (notePath root n) (files w)) w).

(** Modelled from the spec: [open], missing from src/; the hand-over of an
    existing note to the editor. *)
Definition open (n : Note) : Async unit :=
  root ← gets notesRoot;
  fs ← gets files;
  match fs !! notePath root n with
  | Some _ => modify (record (CallOpen (notePath root n)))
  | None => throw NotFoundError
  end.

End NoteOps.

(** Modelled from the spec: the call [isNotePath(path)] of noteUtil.ts,
    missing from src/, against the configured notes root. *)
Definition isNotePath (path : string) : Async bool :=
  root ← gets notesRoot;
  mret (PathCodec.isNotePath root path).

(** Modelled from the spec: the call [getCorrespondingNotes(source)] of
    noteUtil.ts, missing from src/, against the store. *)
Definition getCorrespondingNotes (source : string) : Async (list Note) :=
  root ← gets notesRoot;
  fs ← gets files;
  mret (correspondingNotes root fs source).

(** Modelled from the spec: [removeNotCorrespondingNotes], missing from src/
    (the orphan sweep of noteUtil.ts): every note whose source file is
    absent is removed.  The sweep takes [elapsed] milliseconds on the
    clock. *)
Definition removeNotCorrespondingNotes (elapsed : Z) : Async unit :=
  root ← gets notesRoot;
  modify (record CallRemoveNotCorrespondingNotes) ;;
  modify (fun w =>
    setFiles (filter (fun kv => orphaned root (files w) kv.1 = false) (files w)) w) ;;
  modify (fun w => setNow (now w + elapsed) w).

(** The value a configuration key is set to; [undefined] when it is not. *)
Definition configured (w : World) (key : string) : JSValue :=
  default VUndefined (configuration w !! key).

(** [vscode.workspace.getConfiguration().get(key)] *)
Definition getConfiguration (key : string) : Async JSValue :=
  mkAsync (fun w => (Returned (configured w key), w)).

(** [+new Date()] *)
Definition dateNow : Async Z := gets now.

(** [setTimeout(automaticallyDelete, delay)] *)
Definition setTimeout (delay : Number) : Async unit :=
  modify (record (CallSetTimeout delay)).

(** [decorateDebounce()]: asks for a decoration refresh after the debounce
    delay. *)
Definition decorateDebounce : Async unit :=
  modify (record CallDecorateDebounce).

(* ===================================================================== *)
(** ** extension.ts *)
(* ===================================================================== *)

(** [automaticallyDelete], one iteration. *)
Definition automaticallyDelete (elapsed : Z) : Async unit :=
  d ← gets disposed;
  if d : bool then mret tt
  else
    enable ← getConfiguration "linenote.automaticallyDelete";
    if truthy enable then
      interval ← getConfiguration "linenote.automaticallyDeleteInterval";
      match interval with
      | VNumber interval =>
          if geZero interval then
            start ← dateNow;
            removeNotCorrespondingNotes elapsed ;;
            finish ← dateNow;
            (* two clock readings are too close for the difference to
               overflow; it is rounded like any other *)
            let duration := roundInteger (finish - start) in
            setTimeout (mathMax0 (numSub interval duration))
          else mret tt
      | _ => mret tt
      end
    else mret tt.

(** [getSelectionLineRange] *)
Definition getSelectionLineRange (editor : TextEditor) : nat * nat :=
  ((line (start (selection editor)) + 1)%nat,
   (line (end_ (selection editor)) + 1)%nat).

(** The [onDidChangeTextDocument] handler. *)
Definition onDidChangeTextDocument (event : TextDocumentChangeEvent)
    : Async unit :=
  editor ← gets activeTextEditor;
  match editor with
  | Some editor =>
      if sameDocument (changedDocument event) (document editor)
      then decorateDebounce
      else mret tt
  | None => mret tt
  end.

(** The [onDidCloseTextDocument] handler. *)
Definition onDidCloseTextDocument (event : TextDocument) : Async unit :=
  let path := fsPath event in
  isNote ← isNotePath path;
  if isNote : bool then
    note ← NoteOps.fromNotePath path;
    body ← NoteOps.read note;
    if (length (trim body) =? 0)%nat then NoteOps.remove note else mret tt
  else mret tt.

(** The command [linenote.addNote]. *)
Definition addNote (fresh : nat) : Async unit :=
  editor ← gets activeTextEditor;
  match editor with
  | Some editor =>
      let path := fsPath (document editor) in
      isNote ← isNotePath path;
      if isNote : bool then mret tt
      else
        let '(from, to) := getSelectionLineRange editor in
        note ← NoteOps.fromFsPath fresh path from to;
        exists_ ← NoteOps.noteExists note;
        (if negb exists_ then NoteOps.write note [] else mret tt) ;;
        NoteOps.open note
  | None => mret tt
  end.

(** The command [linenote.openNote]. *)
Definition openNote (notePath : option string) : Async unit :=
  editor ← gets activeTextEditor;
  match givenPath notePath with
  | Some notePath =>
      note ← NoteOps.fromNotePath notePath;
      NoteOps.open note
  | None =>
      match editor with
      | Some editor =>
          let path := fsPath (document editor) in
          isNote ← isNotePath path;
          if isNote : bool then mret tt
          else
            notes ← getCorrespondingNotes path;
            let '(from, to) := getSelectionLineRange editor in
            forEach NoteOps.open
              (List.filter (fun note => isOverlapped note from to) notes)
      | None => mret tt
      end
  end.

(** The command [linenote.removeNote]. *)
Definition removeNote (notePath : option string) : Async unit :=
  editor ← gets activeTextEditor;
  match givenPath notePath with
  | Some notePath =>
      note ← NoteOps.fromNotePath notePath;
      NoteOps.remove note ;;
      decorateDebounce
  | None =>
      match editor with
      | Some editor =>
          let path := fsPath (document editor) in
          isNote ← isNotePath path;
          if isNote : bool then mret tt
          else
            notes ← getCorrespondingNotes path;
            let '(from, to) := getSelectionLineRange editor in
            match List.find (fun note => isOverlapped note from to) notes with
            | Some note => NoteOps.remove note ;; decorateDebounce
            | None => mret tt
            end
      | None => mret tt
      end
  end.

(** The calls a computation adds to the record of the world it starts in. *)
Definition callsMade {A} (m : Async A) (w : World) : list Call :=
  drop (length (calls w)) (calls (exec m w)).

(** [typeof v === "number" && v >= 0] *)
Definition nonNegativeNumber (v : JSValue) : bool :=
  match v with
  | VNumber n => geZero n
  | _ => false
  end.

(** The timer a list of calls leaves pending. *)
Definition scheduledDelay (cs : list Call) : option Number :=
  head (omap (fun c => match c with CallSetTimeout d => Some d | _ => None end) cs).

(** The clock reading from which the timer set by an iteration lets the
    next iteration start: the reading at the [setTimeout] call plus the
    delay handed to it.  An iteration starts at the reading [now w]. *)
Definition successorDue (elapsed : Z) (w : World) : option Z :=
  match scheduledDelay (callsMade (automaticallyDelete elapsed) w) with
  | Some (Finite delay) =>
      Some (now (exec (automaticallyDelete elapsed) w) + delay)%Z
  | _ => None
  end.

(** The line ranges of the notes of a source file, as the store has them. *)
Definition noteRanges (root : string) (fs : gmap string jsString)
    (source : string) : list (nat * nat) :=
  (fun n => (fromLine n, toLine n)) <$> correspondingNotes root fs source.

(** The reconciliation rule in the spec's words, for an edit that lies
    entirely before the note: both ends move by the net line-count delta. *)
Definition specShiftedRange (delta : Z) (range : nat * nat) : nat * nat :=
  (Z.to_nat (Z.of_nat range.1 + delta), Z.to_nat (Z.of_nat range.2 + delta)).

(** Two inclusive ranges intersect when some line lies in both. *)
Definition rangesIntersect (a b c d : nat) : Prop :=
  exists l : nat, (a <= l /\ l <= b /\ c <= l /\ l <= d)%nat.

(* ===================================================================== *)
(** ** The extension as the host drives it *)
(* ===================================================================== *)

(** What [activate] keeps besides the world: the closure variable
    [unwatch], the timers it has started, and the calls it makes to the
    editor and to the decorator. *)

Definition setActiveTextEditor (e : option TextEditor) (w : World) : World :=
  mkWorld (files w) (notesRoot w) (configuration w) e
          (disposed w) (now w) (calls w).

Definition setConfiguration (c : gmap string JSValue) (w : World) : World :=
  mkWorld (files w) (notesRoot w) c (activeTextEditor w)
          (disposed w) (now w) (calls w).

Definition setDisposed (d : bool) (w : World) : World :=
  mkWorld (files w) (notesRoot w) (configuration w) (activeTextEditor w)
          d (now w) (calls w).

Inductive HostCall : Type :=
| HostConsoleLog (message : string)
| HostOpenTextDocument (path : string)
| HostShowTextDocument (doc : TextDocument) (range : Selection)
| HostWatch (id : nat) (source : string)
    (* watchCorrespondingNotes(source, ...), registering watcher [id] *)
| HostUnwatch (id : nat)
    (* the handle that watcher [id] was registered with, invoked *)
| HostInitDecorator
| HostDecorate.

(** A run of [watch] that is suspended at one of its two [await]s. *)
Inductive WatchRun : Type :=
| AwaitingIsNotePath (path : string) (isNote : bool)
    (* at [await isNotePath(fsPath)], with the answer it will get *)
| AwaitingWatcher (id : nat) (path : string).
    (* at [await watchCorrespondingNotes(fsPath, ...)] *)

(** The loop of [automaticallyDelete]: the timer that will start the next
    iteration, or the iteration that is suspended at
    [await removeNotCorrespondingNotes()]. *)
Inductive SweepLoop : Type :=
| SweepWaiting (delay : Number)
| SweepRunning (start : Z) (interval : Number).

Record Extension : Type := mkExtension {
  world : World;
  unwatch : option (nat * string);
      (* [let unwatch]: the handle held, its watcher and source *)
  watchRuns : list WatchRun;      (* the runs of [watch] in flight *)
  watchers : nat;                 (* how many watchers were registered *)
  sweepTimer : option SweepLoop;  (* [None]: the loop has stopped *)
  decorateTimer : bool;           (* the debounce timer is running *)
  hostCalls : list HostCall
}.

Definition setWorld (w : World) (x : Extension) : Extension :=
  mkExtension w (unwatch x) (watchRuns x) (watchers x) (sweepTimer x)
              (decorateTimer x) (hostCalls x).

Definition setUnwatch (u : option (nat * string)) (x : Extension) : Extension :=
  mkExtension (world x) u (watchRuns x) (watchers x) (sweepTimer x)
              (decorateTimer x) (hostCalls x).

Definition setWatchRuns (runs : list WatchRun) (x : Extension) : Extension :=
  mkExtension (world x) (unwatch x) runs (watchers x) (sweepTimer x)
              (decorateTimer x) (hostCalls x).

Definition setSweepTimer (t : option SweepLoop) (x : Extension) : Extension :=
  mkExtension (world x) (unwatch x) (watchRuns x) (watchers x) t
              (decorateTimer x) (hostCalls x).

Definition setDecorateTimer (b : bool) (x : Extension) : Extension :=
  mkExtension (world x) (unwatch x) (watchRuns x) (watchers x) (sweepTimer x)
              b (hostCalls x).

Definition hostCall (c : HostCall) (x : Extension) : Extension :=
  mkExtension (world x) (unwatch x) (watchRuns x) (watchers x) (sweepTimer x)
              (decorateTimer x) (hostCalls x ++ [c]).

(** Running a handler of the world inside the extension; a call to
    [decorateDebounce] starts the debounce timer. *)
Definition liftAsync {A} (m : Async A) (x : Extension) : Extension :=
  setDecorateTimer
    (decorateTimer x
     || bool_decide (CallDecorateDebounce ∈ callsMade m (world x)))
    (setWorld (exec m (world x)) x).

(** The function handed to [debounce]. *)
Definition debouncedDecorate (x : Extension) : Extension :=
  if disposed (world x) then x else hostCall HostDecorate x.

(** A call of [watch()], as far as its first [await].  The notes root does
    not change in a session, so the answer of [isNotePath] is the same
    whenever it is computed. *)
Definition watch (x : Extension) : Extension :=
  let x :=
    match unwatch x with
    | Some (id, _) => setUnwatch None (hostCall (HostUnwatch id) x)
    | None => x
    end in
  if disposed (world x) then x
  else
    match activeTextEditor (world x) with
    | Some editor =>
        let path := fsPath (document editor) in
        setWatchRuns
          (watchRuns x
           ++ [AwaitingIsNotePath path
                 (PathCodec.isNotePath (notesRoot (world x)) path)]) x
    | None => x
    end.

(** A run of [watch] goes on from its [await]: after [isNotePath] it calls
    [watchCorrespondingNotes] unless the document is a note; after
    [watchCorrespondingNotes] it stores the handle in [unwatch].  The run
    that is still suspended afterwards is returned with the extension. *)
Definition resumeWatch (run : WatchRun) (x : Extension)
    : option WatchRun * Extension :=
  match run with
  | AwaitingIsNotePath path isNote =>
      if isNote then (None, x)
      else
        (Some (AwaitingWatcher (watchers x) path),
         mkExtension (world x) (unwatch x) (watchRuns x) (S (watchers x))
           (sweepTimer x) (decorateTimer x)
           (hostCalls x ++ [HostWatch (watchers x) path]))
  | AwaitingWatcher id path => (None, setUnwatch (Some (id, path)) x)
  end.

(** The promise that the [k]-th run in flight waits for is settled. *)
Definition continueWatch (k : nat) (x : Extension) : Extension :=
  match watchRuns x !! k with
  | Some run =>
      let '(next, x') := resumeWatch run x in
      setWatchRuns
        (match next with
         | Some r => <[k := r]> (watchRuns x')
         | None => delete k (watchRuns x')
         end) x'
  | None => x
  end.

(** [automaticallyDelete] as far as its [await]: the checks, the first
    clock reading and the call of [removeNotCorrespondingNotes]. *)
Definition sweepBegin : Async (option (Z * Number)) :=
  d ← gets disposed;
  if d : bool then mret None
  else
    enable ← getConfiguration "linenote.automaticallyDelete";
    if truthy enable then
      interval ← getConfiguration "linenote.automaticallyDeleteInterval";
      match interval with
      | VNumber interval =>
          if geZero interval then
            start ← dateNow;
            modify (record CallRemoveNotCorrespondingNotes) ;;
            mret (Some (start, interval))
          else mret None
      | _ => mret None
      end
    else mret None.

(** The rest of the iteration: the sweep does its work and takes
    [elapsed] milliseconds, then the second clock reading and
    [setTimeout]. *)
Definition sweepEnd (elapsed : Z) (start : Z) (interval : Number)
    : Async unit :=
  root ← gets notesRoot;
  modify (fun w =>
    setFiles (filter (fun kv => orphaned root (files w) kv.1 = false) (files w)) w) ;;
  modify (fun w => setNow (now w + elapsed) w) ;;
  finish ← dateNow;
  let duration := roundInteger (finish - start) in
  setTimeout (mathMax0 (numSub interval duration)).

(** A call of [automaticallyDelete()], as far as its [await]. *)
Definition startSweep (x : Extension) : Extension :=
  match run sweepBegin (world x) with
  | (Returned (Some (start, interval)), w) =>
      setSweepTimer (Some (SweepRunning start interval)) (setWorld w x)
  | (_, w) => setSweepTimer None (setWorld w x)
  end.

(** The iteration goes on from its [await] and leaves its timer. *)
Definition finishSweep (elapsed : Z) (start : Z) (interval : Number)
    (x : Extension) : Extension :=
  setSweepTimer
    (SweepWaiting
       <$> scheduledDelay (callsMade (sweepEnd elapsed start interval) (world x)))
    (setWorld (exec (sweepEnd elapsed start interval) (world x)) x).

(** The body of [activate] up to the registration of the handlers:
    [decorateDebounce()], [watch()] and [automaticallyDelete()], each as
    far as it runs before it is suspended. *)
Definition activate (w : World) : Extension :=
  let x := mkExtension (setDisposed false w) None [] 0 None false [] in
  let x := liftAsync decorateDebounce x in
  let x := watch x in
  startSweep x.

(** The [onDidChangeActiveTextEditor] handler: [watch()] is called and not
    awaited. *)
Definition onDidChangeActiveTextEditor (editor : option TextEditor)
    (x : Extension) : Extension :=
  match editor with
  | Some _ => liftAsync decorateDebounce (watch x)
  | None => x
  end.

(** The [onDidChangeConfiguration] handler; [affects] is the event's
    [affectsConfiguration]. *)
Definition onDidChangeConfiguration (affects : string -> bool)
    (x : Extension) : Extension :=
  if affects "linenote.lineColor" || affects "linenote.rulerColor"
  then hostCall HostDecorate (hostCall HostInitDecorator x)
  else x.

(** [new vscode.Range(a, b)]: the ends are swapped when [a] is after [b]. *)
Definition mkRange (a b : Position) : Selection :=
  if isBeforeOrEqual a b then mkSelection a b else mkSelection b a.

(** [doc.lineAt(n).range]: from the start of line [n] to its end, the line
    break left out; [None] is the error for a line the document lacks. *)
Definition lineAt (doc : TextDocument) (n : Z) : option Selection :=
  if (0 <=? n)%Z && (n <? Z.of_nat (length (text doc)))%Z then
    match text doc !! Z.to_nat n with
    | Some t =>
        Some (mkSelection (mkPosition (Z.to_nat n) 0)
                          (mkPosition (Z.to_nat n) (length t)))
    | None => None
    end
  else None.

(** How the promise of a command settles. *)
Inductive Settled : Type :=
| Fulfilled
| RejectedFileNotFound
| RejectedIllegalLine.

(** [vscode.window.showTextDocument(doc, { selection })]: the editor shows
    the document with the selection applied. *)
Definition showTextDocument (doc : TextDocument) (range : Selection)
    (x : Extension) : Extension :=
  hostCall (HostShowTextDocument doc range)
    (setWorld (setActiveTextEditor (Some (mkTextEditor doc range)) (world x)) x).

(** The command [linenote.revealLine].  [openTextDocument] is rejected for
    a file that does not exist. *)
Definition revealLine (path : string) (from to : Z) (x : Extension)
    : Settled * Extension :=
  let x := hostCall (HostConsoleLog path) x in
  match activeTextEditor (world x) with
  | Some editor =>
      let other := negb (String.eqb (fsPath (document editor)) path) in
      let x := if other then hostCall (HostOpenTextDocument path) x else x in
      if other && negb (bool_decide (is_Some (files (world x) !! path)))
      then (RejectedFileNotFound, x)
      else
        match lineAt (document editor) (from - 1) with
        | Some first =>
            match lineAt (document editor) (to - 1) with
            | Some last =>
                (Fulfilled,
                 showTextDocument (document editor)
                   (mkRange (start first) (end_ last)) x)
            | None => (RejectedIllegalLine, x)
            end
        | None => (RejectedIllegalLine, x)
        end
  | None => (Fulfilled, x)
  end.

(** What happens to an activated extension. *)
Inductive Event : Type :=
| ActiveTextEditorChanged (editor : option TextEditor)
| SelectionChanged (selection : Selection)
| TextDocumentChanged (event : TextDocumentChangeEvent)
| TextDocumentClosed (doc : TextDocument)
| ConfigurationChanged (configuration : gmap string JSValue)
                       (affects : string -> bool)
| FilesChanged (fs : gmap string jsString)
| AddNoteInvoked (fresh : nat)
| OpenNoteInvoked (notePath : option string)
| RemoveNoteInvoked (notePath : option string)
| RevealLineInvoked (path : string) (from to : Z)
| WatchContinued (k : nat)
| SweepTimerFired
| SweepSettled (elapsed : Z)
| DecorateTimerFired
| NoteFilesChanged
| Deactivated.

(** The editor's own state after an event, before any handler runs. *)
Definition hostUpdate (ev : Event) (w : World) : World :=
  match ev with
  | ActiveTextEditorChanged editor => setActiveTextEditor editor w
  | SelectionChanged s =>
      match activeTextEditor w with
      | Some editor =>
          setActiveTextEditor (Some (mkTextEditor (document editor) s)) w
      | None => w
      end
  | TextDocumentChanged event =>
      match activeTextEditor w with
      | Some editor =>
          if sameDocument (changedDocument event) (document editor)
          then setActiveTextEditor
                 (Some (mkTextEditor (changedDocument event) (selection editor))) w
          else w
      | None => w
      end
  | ConfigurationChanged c _ => setConfiguration c w
  | FilesChanged fs => setFiles fs w
  | _ => w
  end.

(** The handler registered for an event in [context.subscriptions]. *)
Definition subscription (ev : Event) (x : Extension) : Extension :=
  match ev with
  | ActiveTextEditorChanged editor => onDidChangeActiveTextEditor editor x
  | TextDocumentChanged event => liftAsync (onDidChangeTextDocument event) x
  | TextDocumentClosed doc => liftAsync (onDidCloseTextDocument doc) x
  | ConfigurationChanged _ affects => onDidChangeConfiguration affects x
  | AddNoteInvoked fresh => liftAsync (addNote fresh) x
  | OpenNoteInvoked notePath => liftAsync (openNote notePath) x
  | RemoveNoteInvoked notePath => liftAsync (removeNote notePath) x
  | RevealLineInvoked path from to => (revealLine path from to x).2
  | _ => x
  end.

(** The watchers that are registered and not released. *)
Fixpoint liveWatchers (cs : list HostCall) (live : list (nat * string))
    : list (nat * string) :=
  match cs with
  | [] => live
  | HostWatch id s :: r => liveWatchers r (live ++ [(id, s)])
  | HostUnwatch id :: r =>
      liveWatchers r (List.filter (fun h => negb (h.1 =? id)%nat) live)
  | _ :: r => liveWatchers r live
  end.

(** One event.  The runs of [watch] and the iteration of the sweep go on
    from their [await]s one at a time, in any order, between the other
    events.  Timers fire only when they are running, a watcher calls back
    only while it is registered, and the subscriptions, disposed of with
    the extension, are no longer served once [disposed] is set.  The
    handlers of documents and the commands are served in one piece. *)
Definition step (x : Extension) (ev : Event) : Extension :=
  match ev with
  | WatchContinued k => continueWatch k x
  | SweepTimerFired =>
      match sweepTimer x with
      | Some (SweepWaiting _) => startSweep x
      | _ => x
      end
  | SweepSettled elapsed =>
      match sweepTimer x with
      | Some (SweepRunning start interval) => finishSweep elapsed start interval x
      | _ => x
      end
  | DecorateTimerFired =>
      if decorateTimer x
      then debouncedDecorate (setDecorateTimer false x)
      else x
  | NoteFilesChanged =>
      match liveWatchers (hostCalls x) [] with
      | _ :: _ => liftAsync decorateDebounce x
      | [] => x
      end
  | Deactivated => setWorld (setDisposed true (world x)) x
  | _ =>
      let x := setWorld (hostUpdate ev (world x)) x in
      if disposed (world x) then x else subscription ev x
  end.

Definition steps (x : Extension) (evs : list Event) : Extension :=
  fold_left step evs x.

(** The runs of [watch] in flight are taken to the end: a run that an
    event has started is through its two [await]s before the next event. *)
Definition settleWatch (x : Extension) : Extension :=
  continueWatch 0 (continueWatch 0 x).

Definition settledSteps (x : Extension) (evs : list Event) : Extension :=
  fold_left (fun x ev => settleWatch (step x ev)) evs x.

(** The calls of the sweep: the sweep itself and its timer. *)
Definition sweepCall (c : Call) : bool :=
  match c with
  | CallRemoveNotCorrespondingNotes | CallSetTimeout _ => true
  | _ => false
  end.

(** The calls that register or release a watcher. *)
Definition watchCall (c : HostCall) : bool :=
  match c with
  | HostWatch _ _ | HostUnwatch _ => true
  | _ => false
  end.

(** The notes root is the same. *)
Definition sameRoot (w w' : World) : Prop := notesRoot w' = notesRoot w.

(** A call that registers a watcher does so for a file that is not a
    note. *)
Definition watchesSource (root : string) (c : HostCall) : bool :=
  match c with
  | HostWatch _ s => negb (PathCodec.isNotePath root s)
  | _ => true
  end.

(** The answer a run in flight waits for is the one [isNotePath] gives. *)
Definition awaitsAnswer (root : string) (r : WatchRun) : bool :=
  match r with
  | AwaitingIsNotePath p b => Bool.eqb b (PathCodec.isNotePath root p)
  | AwaitingWatcher _ _ => true
  end.

(** Under any interleaving: every watcher was registered for a source
    file. *)
Definition watchInvariant (root : string) (x : Extension) : Prop :=
  notesRoot (world x) = root
  /\ Forall (fun c => watchesSource root c = true) (hostCalls x)
  /\ Forall (fun r => awaitsAnswer root r = true) (watchRuns x).

(** What an event that neither starts nor continues a run of [watch] does
    to the watchers: the handle, the runs in flight and the counter are
    the same, and no call registers or releases a watcher. *)
Definition watchFrame (x x' : Extension) : Prop :=
  unwatch x' = unwatch x
  /\ watchRuns x' = watchRuns x
  /\ watchers x' = watchers x
  /\ exists new, hostCalls x' = (hostCalls x ++ new)%list
                 /\ Forall (fun c => watchCall c = false) new.

(** With no run in flight: the handle held is that of the only watcher. *)
Definition settledInvariant (x : Extension) : Prop :=
  watchRuns x = []
  /\ liveWatchers (hostCalls x) [] = option_list (unwatch x).

(** Watcher [id] of source [s] has been lost: it is registered, and its
    handle is neither held nor about to be stored. *)
Definition leaked (id : nat) (s : string) (x : Extension) : Prop :=
  (id, s) ∈ liveWatchers (hostCalls x) []
  /\ (id < watchers x)%nat
  /\ (forall s', unwatch x <> Some (id, s'))
  /\ (forall p, AwaitingWatcher id p ∉ watchRuns x).




(** The calls that are not the sweep's. *)
Definition notSweep (c : Call) : bool := negb (sweepCall c).

(** Recording several calls, in order. *)
Definition recordAll (cs : list Call) (w : World) : World :=
  fold_left (fun w c => record c w) cs w.

(** A computation whose effect on the world lies in [R]. *)
Definition respects (R : World -> World -> Prop) {A} (m : Async A) : Prop :=
  forall w, R w (exec m w).

(** The fields the editor owns are the same. *)
Definition sameHost (w w' : World) : Prop :=
  notesRoot w' = notesRoot w
  /\ configuration w' = configuration w
  /\ activeTextEditor w' = activeTextEditor w
  /\ disposed w' = disposed w.

(** The record of calls has grown, by calls that pass [allowed]. *)
Definition callsGrow (allowed : Call -> bool) (w w' : World) : Prop :=
  exists new, calls w' = (calls w ++ new)%list /\ forallb allowed new = true.

(* ===================================================================== *)
(** ** Sample worlds *)
(* ===================================================================== *)

(** A string of ASCII characters as a JavaScript string. *)
Definition js (s : string) : jsString :=
  N_of_ascii <$> list_ascii_of_string s.

Definition sampleRoot : string := "/notes".
Definition appTs : string := "/proj/app.ts".

Definition caret (l : nat) : Selection :=
  mkSelection (mkPosition l 0) (mkPosition l 0).

Definition linesSelection (first last : nat) : Selection :=
  mkSelection (mkPosition first 0) (mkPosition last 0).

(** [/proj/app.ts] with [n] lines. *)
Definition appDocument (n : nat) : TextDocument :=
  mkTextDocument appTs (replicate n (js "x")).

Definition sampleConfiguration : gmap string JSValue :=
  {[ "linenote.automaticallyDelete" := VBoolean true;
     "linenote.automaticallyDeleteInterval" := VNumber (Finite 2000) ]}.

(** A world with the given files, [/proj/app.ts] in the active editor and
    the given 0-based lines selected. *)
Definition sampleWorld (fs : gmap string jsString) (first last : nat) : World :=
  mkWorld fs sampleRoot sampleConfiguration
          (Some (mkTextEditor (appDocument 10) (linesSelection first last)))
          false 1000 [].

(** The sample world with an interval of [2^53 + 2] milliseconds. *)
Definition longIntervalWorld : World :=
  mkWorld ∅ sampleRoot
    {[ "linenote.automaticallyDelete" := VBoolean true;
       "linenote.automaticallyDeleteInterval" := VNumber (Finite 9007199254740994) ]}
    None false 1000 [].

(** The note file of [/proj/app.ts] for lines [from] to [to]. *)
Definition appNote (from to id : nat) : string :=
  PathCodec.encode sampleRoot (mkNote appTs from to id).

(** [/proj/app.ts] and one note on its lines 4 to 6. *)
Definition oneNoteFiles : gmap string jsString :=
  {[ appTs := js "source"; appNote 4 6 1 := js "todo" ]}.

(** Three lines typed in before line 2 of [/proj/app.ts]. *)
Definition insertThreeLines : TextDocumentChangeEvent :=
  mkChangeEvent (appDocument 13)
    [mkContentChange (caret 1) [js "a"; js "b"; js "c"; []]].

(** [/proj/app.ts] with notes on its lines 4 to 6 and 5 to 8, and a note of
    another file. *)
Definition twoNoteFiles : gmap string jsString :=
  {[ appTs := js "source";
     "/proj/lib.ts" := js "library";
     appNote 5 8 2 := js "later";
     appNote 4 6 1 := js "todo";
     PathCodec.encode sampleRoot (mkNote "/proj/lib.ts" 5 5 3) := js "other" ]}.

(** [/proj/app.ts] and a note on its lines 4 to 6 that holds a space and a
    line feed. *)
Definition blankNoteFiles : gmap string jsString :=
  {[ appTs := js "source"; appNote 4 6 1 := [32%N; 10%N] ]}.

(** A world whose active editor shows the note file of lines 4 to 6. *)
Definition noteEditorWorld : World :=
  mkWorld oneNoteFiles sampleRoot sampleConfiguration
          (Some (mkTextEditor (mkTextDocument (appNote 4 6 1) [js "todo"])
                              (caret 0)))
          false 1000 [].

(** An extension around a world, with no watcher, no run in flight and no
    timer. *)
Definition idleExtension (w : World) : Extension :=
  mkExtension w None [] 0 None false [].

(** The sample world with no editor open. *)
Definition noEditorWorld : World :=
  setActiveTextEditor None (sampleWorld oneNoteFiles 0 0).

(** The sample world with the sweep switched off. *)
Definition sweepOffWorld : World :=
  setConfiguration {[ "linenote.automaticallyDelete" := VBoolean false ]}
    (sampleWorld oneNoteFiles 0 0).

(** A session that switches the sweep on after it was off at activation. *)
Definition switchOnLater : list Event :=
  [ConfigurationChanged sampleConfiguration (fun _ => true);
   SweepTimerFired; SweepSettled 5; AddNoteInvoked 3; SweepTimerFired].

(** An editor on [/proj/lib.ts]. *)
Definition libEditor : TextEditor :=
  mkTextEditor (mkTextDocument "/proj/lib.ts" [js "y"]) (caret 0).

(** A note on lines 4 to 6 of [/proj/app.ts], with the file itself gone. *)
Definition orphanNoteFiles : gmap string jsString :=
  {[ appNote 4 6 1 := js "todo" ]}.

(** An editor on [/proj/app.ts]. *)
Definition appEditor : TextEditor :=
  mkTextEditor (appDocument 10) (caret 0).

(** The editor moves to [/proj/lib.ts] and on to [/proj/app.ts] before the
    first run of [watch] goes on; then the runs go on in turn. *)
Definition quickSwitch : list Event :=
  [ActiveTextEditorChanged (Some libEditor);
   ActiveTextEditorChanged (Some appEditor);
   WatchContinued 0; WatchContinued 1; WatchContinued 0; WatchContinued 0].


(* ===================================================================== *)
(** * Properties *)
(* ===================================================================== *)

(** ** Strings *)

Section StrFacts.
Import Str.

Lemma ascii_eqb_false (a b : ascii) : a <> b -> Ascii.eqb a b = false.
Proof. intros H. apply Ascii.eqb_neq. exact H. Qed.

Lemma occurs_app c a b : occurs c (a +:+ b) = occurs c a || occurs c b.
Proof.
  induction a as [|x a IH]; simpl; [reflexivity|].
  rewrite IH. apply orb_assoc.
Qed.

Lemma stripPrefix_app p s : stripPrefix p (p +:+ s) = Some s.
Proof.
  induction p as [|a p IH]; simpl.
  - destruct s; reflexivity.
  - rewrite Ascii.eqb_refl. exact IH.
Qed.

Lemma splitOn_nonempty c s : splitOn c s <> [].
Proof.
  destruct s as [|a r]; simpl; [discriminate|].
  destruct (Ascii.eqb a c); [discriminate|].
  destruct (splitOn c r); discriminate.
Qed.

(** A string without the separator is one field. *)
Lemma splitOn_absent c s : occurs c s = false -> splitOn c s = [s].
Proof.
  induction s as [|a r IH]; simpl; [reflexivity|].
  intros H. apply orb_false_iff in H as [Ha Hr].
  rewrite Ha, (IH Hr). reflexivity.
Qed.

(** The first separator ends the first field. *)
Lemma splitOn_app c a b :
  occurs c a = false -> splitOn c (a +:+ String c b) = a :: splitOn c b.
Proof.
  induction a as [|x a IH]; simpl.
  - intros _. rewrite Ascii.eqb_refl. reflexivity.
  - intros H. apply orb_false_iff in H as [Hx Ha].
    rewrite Hx, (IH Ha). reflexivity.
Qed.

Lemma joinWith_cons c x l :
  l <> [] -> joinWith c (x :: l) = x +:+ String c (joinWith c l).
Proof. destruct l; [congruence | reflexivity]. Qed.

(** Joining the fields of a string gives the string back. *)
Lemma joinWith_splitOn c s : joinWith c (splitOn c s) = s.
Proof.
  induction s as [|a r IH]; [reflexivity|].
  simpl splitOn. destruct (Ascii.eqb_spec a c) as [->|Hne].
  - rewrite joinWith_cons by apply splitOn_nonempty.
    rewrite IH. reflexivity.
  - pose proof (splitOn_nonempty c r) as Hnil.
    destruct (splitOn c r) as [|h t]; [congruence|].
    destruct t as [|h' t].
    + simpl in *. congruence.
    + change (joinWith c (String a h :: h' :: t))
        with (String a (joinWith c (h :: h' :: t))).
      rewrite IH. reflexivity.
Qed.

(** No field of a split holds the separator. *)
Lemma splitOn_fields c s : Forall (fun f => occurs c f = false) (splitOn c s).
Proof.
  induction s as [|a r IH]; simpl.
  - constructor; [reflexivity | constructor].
  - destruct (Ascii.eqb a c) eqn:E.
    + constructor; [reflexivity | exact IH].
    + destruct (splitOn c r) as [|h t]; simpl.
      * constructor; [simpl; rewrite E; reflexivity | constructor].
      * inversion IH; subst. constructor; [|assumption].
        simpl. rewrite E. assumption.
Qed.

(** Splitting a join of separator-free fields gives the fields back. *)
Lemma splitOn_joinWith c l :
  l <> [] -> Forall (fun f => occurs c f = false) l ->
  splitOn c (joinWith c l) = l.
Proof.
  induction l as [|x l IH]; [congruence|].
  intros _ Hall. inversion Hall as [|? ? Hx Hl]; subst.
  destruct l as [|y l].
  - simpl. apply splitOn_absent. exact Hx.
  - rewrite joinWith_cons by discriminate.
    rewrite splitOn_app by exact Hx.
    rewrite IH; [reflexivity | discriminate | exact Hl].
Qed.

End StrFacts.

(** ** The path codec *)

Section CodecFacts.
Import Str PathCodec.

Lemma append_assoc_str (a b c : string) : (a +:+ b) +:+ c = a +:+ (b +:+ c).
Proof.
  induction a as [|x a IH]; [reflexivity|].
  change (String x ((a +:+ b) +:+ c) = String x (a +:+ (b +:+ c))).
  now rewrite IH.
Qed.

(** A sanitized segment never holds the delimiter. *)
Lemma sanitize_no_delimiter s : occurs delimiter (sanitize s) = false.
Proof.
  induction s as [|c r IH]; [reflexivity|].
  simpl sanitize.
  destruct (Ascii.eqb c delimiter) eqn:Ed; [exact IH|].
  destruct (Ascii.eqb c escape) eqn:Ee; [exact IH|].
  simpl. rewrite Ed. exact IH.
Qed.

(** Sanitizing introduces no path separator. *)
Lemma sanitize_no_separator s :
  occurs separator s = false -> occurs separator (sanitize s) = false.
Proof.
  induction s as [|c r IH]; [reflexivity|].
  simpl. intros H. apply orb_false_iff in H as [Hc Hr].
  destruct (Ascii.eqb c delimiter); [exact (IH Hr)|].
  destruct (Ascii.eqb c escape); [exact (IH Hr)|].
  simpl. rewrite Hc. exact (IH Hr).
Qed.

Lemma desanitize_sanitize s : desanitize (sanitize s) = Some s.
Proof.
  induction s as [|c r IH]; [reflexivity|].
  simpl sanitize.
  destruct (Ascii.eqb_spec c delimiter) as [->|Hd].
  - simpl. rewrite IH. reflexivity.
  - destruct (Ascii.eqb_spec c escape) as [->|He].
    + simpl. rewrite IH. reflexivity.
    + simpl. rewrite (ascii_eqb_false _ _ He), IH. reflexivity.
Qed.

Lemma mapM_desanitize_sanitize (l : list string) :
  mapM desanitize (sanitize <$> l) = Some l.
Proof.
  induction l as [|s l IH]; [reflexivity|].
  simpl. rewrite desanitize_sanitize. simpl.
  change (mapM desanitize (sanitize <$> l) ≫= (fun k => Some (s :: k)) = Some (s :: l)).
  rewrite IH. reflexivity.
Qed.

(** A decimal numeral holds digits only: neither the delimiter nor the dash. *)
Lemma numeral_no_mark (c : ascii) (d : Decimal.uint) :
  c = delimiter \/ c = dash ->
  occurs c (NilEmpty.string_of_uint d) = false.
Proof.
  intros [-> | ->]; induction d; simpl; auto.
Qed.

Lemma dec_no_delimiter n : occurs delimiter (dec n) = false.
Proof. apply numeral_no_mark. now left. Qed.

Lemma dec_no_dash n : occurs dash (dec n) = false.
Proof. apply numeral_no_mark. now right. Qed.

Lemma undec_dec n : undec (dec n) = Some n.
Proof.
  unfold undec, dec. rewrite NilEmpty.usu. simpl.
  rewrite DecimalNat.Unsigned.of_to. reflexivity.
Qed.

(** The sanitized source path holds no delimiter. *)
Lemma sanitized_path_no_delimiter (l : list string) :
  occurs delimiter (joinWith separator (sanitize <$> l)) = false.
Proof.
  induction l as [|s l IH]; [reflexivity|].
  destruct l as [|t l].
  - apply sanitize_no_delimiter.
  - change (sanitize <$> s :: t :: l)
      with (sanitize s :: (sanitize <$> t :: l)).
    rewrite joinWith_cons by discriminate.
    rewrite occurs_app, sanitize_no_delimiter. simpl. exact IH.
Qed.

(** Splitting the sanitized source path gives the sanitized segments. *)
Lemma split_sanitized_path (src : string) :
  splitOn separator
    (joinWith separator (sanitize <$> splitOn separator src))
  = sanitize <$> splitOn separator src.
Proof.
  apply splitOn_joinWith.
  - pose proof (splitOn_nonempty separator src).
    destruct (splitOn separator src); [congruence | discriminate].
  - pose proof (splitOn_fields separator src) as H.
    induction H as [|x l Hx Hl IH]; simpl; constructor; auto.
    apply sanitize_no_separator. exact Hx.
Qed.

(** Reading the fields of an encoded path gives the tuple back. *)
Lemma parse_encode root n : parse root (encode root n) = Some n.
Proof.
  destruct n as [src from to id]. unfold parse, encode. simpl.
  set (S := joinWith separator (sanitize <$> splitOn separator src)).
  replace (root +:+ String separator
             (S +:+ String delimiter
                (dec from +:+ String dash (dec to +:+ String delimiter (dec id)))))
    with ((root +:+ String separator EmptyString)
            +:+ (S +:+ String delimiter
                   (dec from +:+ String dash (dec to +:+ String delimiter (dec id)))))
    by (rewrite append_assoc_str; reflexivity).
  rewrite stripPrefix_app. simpl.
  rewrite splitOn_app by apply sanitized_path_no_delimiter.
  assert (Hrange : occurs delimiter (dec from +:+ String dash (dec to)) = false).
  { rewrite occurs_app. simpl. now rewrite !dec_no_delimiter. }
  replace (dec from +:+ String dash (dec to +:+ String delimiter (dec id)))
    with ((dec from +:+ String dash (dec to)) +:+ String delimiter (dec id))
    by (rewrite append_assoc_str; reflexivity).
  rewrite splitOn_app by exact Hrange.
  rewrite (splitOn_absent delimiter (dec id)) by apply dec_no_delimiter.
  rewrite splitOn_app by apply dec_no_dash.
  rewrite (splitOn_absent dash (dec to)) by apply dec_no_dash.
  subst S. rewrite split_sanitized_path, mapM_desanitize_sanitize. simpl.
  rewrite joinWith_splitOn, !undec_dec. reflexivity.
Qed.

(** Round trip of the codec. *)
Lemma decode_encode root n : decode root (encode root n) = Some n.
Proof.
  unfold decode. rewrite parse_encode. simpl.
  rewrite String.eqb_refl. reflexivity.
Qed.

(** A decodable path is the encoding of what it decodes to. *)
Lemma decode_canonical root path n :
  decode root path = Some n -> encode root n = path.
Proof.
  unfold decode. destruct (parse root path) as [m|]; simpl; [|discriminate].
  destruct (String.eqb_spec (encode root m) path) as [E|]; [|discriminate].
  intros [= ->]. exact E.
Qed.

(** Distinct tuples never share a note path. *)
Lemma encode_inj root n m : encode root n = encode root m -> n = m.
Proof.
  intros H. apply (f_equal (decode root)) in H.
  rewrite !decode_encode in H. congruence.
Qed.

Lemma isNotePath_encode root n : PathCodec.isNotePath root (encode root n) = true.
Proof. unfold PathCodec.isNotePath. now rewrite decode_encode. Qed.

End CodecFacts.

(** ** Running asynchronous computations *)

Lemma run_bind {A B} (m : Async A) (k : A -> Async B) w :
  run (m ≫= k) w
  = match run m w with
    | (Returned a, w') => run (k a) w'
    | (Thrown e, w') => (Thrown e, w')
    end.
Proof. reflexivity. Qed.

Lemma run_ret {A} (a : A) w : run (mret a) w = (Returned a, w).
Proof. reflexivity. Qed.

Lemma run_gets {A} (f : World -> A) w : run (gets f) w = (Returned (f w), w).
Proof. reflexivity. Qed.

Lemma run_modify f w : run (modify f) w = (Returned tt, f w).
Proof. reflexivity. Qed.

Lemma run_throw {A} e w : run (@throw A e) w = (Thrown e, w).
Proof. reflexivity. Qed.

Lemma run_isNotePath path w :
  run (isNotePath path) w = (Returned (PathCodec.isNotePath (notesRoot w) path), w).
Proof. reflexivity. Qed.

Lemma callsMade_app {A} (m : Async A) w new :
  calls (exec m w) = (calls w ++ new)%list -> callsMade m w = new.
Proof. unfold callsMade. intros ->. apply drop_app_length. Qed.

Lemma callsMade_same {A} (m : Async A) w :
  calls (exec m w) = calls w -> callsMade m w = [].
Proof. intros H. apply callsMade_app. now rewrite app_nil_r. Qed.

Ltac run_step :=
  repeat first
    [ rewrite run_bind | rewrite run_ret | rewrite run_gets
    | rewrite run_modify | rewrite run_throw | rewrite run_isNotePath ];
  cbn beta iota.

(** ** Early return on note documents *)

(** C9. When the active editor shows a note file, [linenote.addNote] and the
    selection branches of [linenote.openNote] and [linenote.removeNote]
    return at once: no note is built, written, opened or removed, and the
    world, its files included, is the one they started in. *)
Theorem commands_skip_note_documents (w : World) (editor : TextEditor)
    (fresh : nat) (arg : option string) :
  activeTextEditor w = Some editor ->
  PathCodec.isNotePath (notesRoot w) (fsPath (document editor)) = true ->
  givenPath arg = None ->
  run (addNote fresh) w = (Returned tt, w)
  /\ run (openNote arg) w = (Returned tt, w)
  /\ run (removeNote arg) w = (Returned tt, w).
Proof.
  intros Hed Hnote Harg.
  unfold addNote, openNote, removeNote.
  run_step. rewrite Hed, Harg. run_step. rewrite Hnote.
  repeat split; reflexivity.
Qed.

(** ** The periodic sweep *)

Lemma run_getConfiguration key w :
  run (getConfiguration key) w = (Returned (configured w key), w).
Proof. reflexivity. Qed.

(** What one iteration does when nothing holds it back. *)
Lemma automaticallyDelete_enabled (w : World) (elapsed : Z) (interval : Number) :
  disposed w = false ->
  truthy (configured w "linenote.automaticallyDelete") = true ->
  configured w "linenote.automaticallyDeleteInterval" = VNumber interval ->
  geZero interval = true ->
  outcome (automaticallyDelete elapsed) w = Returned tt
  /\ calls (exec (automaticallyDelete elapsed) w)
     = (calls w ++ [CallRemoveNotCorrespondingNotes;
                    CallSetTimeout
                      (mathMax0 (numSub interval (roundInteger elapsed)))])%list
  /\ now (exec (automaticallyDelete elapsed) w) = (now w + elapsed)%Z.
Proof.
  intros Hd He Hi Hge.
  unfold outcome, exec, automaticallyDelete, removeNotCorrespondingNotes,
    dateNow, setTimeout.
  run_step. rewrite Hd. rewrite run_bind, run_getConfiguration. cbn beta iota.
  rewrite He. rewrite run_bind, run_getConfiguration. cbn beta iota.
  rewrite Hi, Hge. run_step. simpl.
  replace (now w + elapsed - now w)%Z with elapsed by lia.
  rewrite <- app_assoc. repeat split; reflexivity.
Qed.

(** What one iteration does when it is held back. *)
Lemma automaticallyDelete_held (w : World) (elapsed : Z) :
  disposed w = true
  \/ truthy (configured w "linenote.automaticallyDelete") = false
  \/ nonNegativeNumber (configured w "linenote.automaticallyDeleteInterval") = false ->
  run (automaticallyDelete elapsed) w = (Returned tt, w).
Proof.
  intros H. unfold automaticallyDelete. run_step.
  destruct (disposed w); [reflexivity|].
  rewrite run_bind, run_getConfiguration. cbn beta iota.
  destruct (truthy (configured w "linenote.automaticallyDelete")); [|reflexivity].
  rewrite run_bind, run_getConfiguration. cbn beta iota.
  destruct H as [H | [H | H]]; try discriminate.
  destruct (configured w "linenote.automaticallyDeleteInterval") as [| | |n| |];
    try reflexivity.
  simpl in H. rewrite H. reflexivity.
Qed.

(** Integers up to [2^53] in size are binary64 numbers. *)
Lemma roundInteger_exact (z : Z) :
  (Z.abs z <= 2 ^ 53)%Z -> roundInteger z = z.
Proof.
  intros Hz. unfold roundInteger.
  destruct (Z.abs z <? 2 ^ 53)%Z eqn:Hlt; [reflexivity|].
  apply Z.ltb_ge in Hlt.
  assert (Hcase : z = (2 ^ 53)%Z \/ z = (- 2 ^ 53)%Z) by lia.
  destruct Hcase as [-> | ->]; vm_compute; reflexivity.
Qed.

Lemma toNumber_exact (z : Z) :
  (Z.abs z <= 2 ^ 53)%Z -> toNumber z = Finite z.
Proof.
  intros Hz. unfold toNumber. rewrite (roundInteger_exact z Hz).
  assert (Hbig : (2 ^ 53 < 2 ^ 1024)%Z) by (apply Z.ltb_lt; vm_compute; reflexivity).
  destruct (2 ^ 1024 <=? Z.abs z)%Z eqn:Hle; [|reflexivity].
  apply Z.leb_le in Hle. lia.
Qed.

(** Rounding at work: ties go to the even significand, and the largest
    integers overflow. *)
Example roundInteger_ties_to_even :
  roundInteger 9007199254740993 = 9007199254740992%Z
  /\ roundInteger 9007199254740995 = 9007199254740996%Z
  /\ roundInteger (-9007199254740993) = (-9007199254740992)%Z
  /\ roundInteger (2 ^ 54 + 3) = (2 ^ 54 + 4)%Z
  /\ toNumber (2 ^ 1024 - 1) = Infinity false.
Proof. vm_compute. repeat split. Qed.

(** C5, as the code has it. With an interval [i] and a sweep measured at
    [d] milliseconds that binary64 subtracts exactly ([0 <= i <= 2^53],
    [d] and [i - d] at most [2^53] in size), the iteration hands
    [max 0 (i - d)] to [setTimeout]; its successor is then due [max d i]
    after the start of this sweep, which is at least [i]. *)
Theorem sweep_interval_is_floor (w : World) (d i : Z) :
  disposed w = false ->
  truthy (configured w "linenote.automaticallyDelete") = true ->
  configured w "linenote.automaticallyDeleteInterval" = VNumber (Finite i) ->
  (0 <= i <= 2 ^ 53)%Z ->
  (Z.abs d <= 2 ^ 53)%Z ->
  (Z.abs (i - d) <= 2 ^ 53)%Z ->
  (now (exec (automaticallyDelete d) w) - now w = d)%Z
  /\ callsMade (automaticallyDelete d) w
     = [CallRemoveNotCorrespondingNotes;
        CallSetTimeout (Finite (Z.max 0 (i - d)))]
  /\ exists due,
       successorDue d w = Some due
       /\ (due - now w = Z.max d i)%Z
       /\ (now w + i <= due)%Z.
Proof.
  intros Hd He Hi Hrange Hdur Hdiff.
  destruct (automaticallyDelete_enabled w d (Finite i) Hd He Hi) as (_ & Hc & Hn).
  { simpl. apply Z.leb_le. lia. }
  rewrite (roundInteger_exact d Hdur) in Hc. simpl in Hc.
  rewrite (toNumber_exact (i - d) Hdiff) in Hc. simpl in Hc.
  assert (Hcalls : callsMade (automaticallyDelete d) w
                   = [CallRemoveNotCorrespondingNotes;
                      CallSetTimeout (Finite (Z.max 0 (i - d)))])
    by (apply callsMade_app; exact Hc).
  split; [rewrite Hn; lia|]. split; [exact Hcalls|].
  exists (now w + d + Z.max 0 (i - d))%Z.
  unfold successorDue. rewrite Hcalls, Hn. simpl.
  split; [reflexivity | lia].
Qed.

(** C6. An iteration sweeps, or asks for a successor, only when
    [linenote.automaticallyDelete] is truthy and
    [linenote.automaticallyDeleteInterval] is a number that is at least 0;
    when either fails the iteration does nothing at all. *)
Theorem sweep_runs_only_when_configured (w : World) (elapsed : Z) :
  (forall c, c ∈ callsMade (automaticallyDelete elapsed) w ->
     truthy (configured w "linenote.automaticallyDelete") = true
     /\ nonNegativeNumber (configured w "linenote.automaticallyDeleteInterval") = true)
  /\ (truthy (configured w "linenote.automaticallyDelete") = false
      \/ nonNegativeNumber (configured w "linenote.automaticallyDeleteInterval") = false ->
      run (automaticallyDelete elapsed) w = (Returned tt, w)
      /\ callsMade (automaticallyDelete elapsed) w = [])
  /\ (disposed w = false ->
      truthy (configured w "linenote.automaticallyDelete") = true ->
      nonNegativeNumber (configured w "linenote.automaticallyDeleteInterval") = true ->
      exists delay,
        callsMade (automaticallyDelete elapsed) w
        = [CallRemoveNotCorrespondingNotes; CallSetTimeout delay]).
Proof.
  split; [|split].
  - intros c Hc.
    destruct (truthy (configured w "linenote.automaticallyDelete")) eqn:He;
      destruct (nonNegativeNumber
                  (configured w "linenote.automaticallyDeleteInterval")) eqn:Hi;
      try (split; reflexivity); exfalso;
      rewrite (callsMade_same (automaticallyDelete elapsed) w) in Hc
        by (unfold exec; rewrite automaticallyDelete_held; auto);
      inversion Hc.
  - intros H.
    assert (Hrun : run (automaticallyDelete elapsed) w = (Returned tt, w))
      by (apply automaticallyDelete_held; tauto).
    split; [exact Hrun|].
    apply callsMade_same. unfold exec. now rewrite Hrun.
  - intros Hd He Hi.
    destruct (configured w "linenote.automaticallyDeleteInterval")
      as [| | |n| |] eqn:Hcfg; try discriminate.
    destruct (automaticallyDelete_enabled w elapsed n Hd He Hcfg Hi) as (_ & Hc & _).
    eexists. apply callsMade_app. exact Hc.
Qed.

(** ** Selections and ranges *)

Lemma isBeforeOrEqual_line (a b : Position) :
  isBeforeOrEqual a b = true -> (line a <= line b)%nat.
Proof.
  unfold isBeforeOrEqual. intros H.
  apply orb_true_iff in H as [H | H].
  - apply Nat.ltb_lt in H. lia.
  - apply andb_true_iff in H as [H _]. apply Nat.eqb_eq in H. lia.
Qed.

(** The note [Note.fromFsPath] builds has the range it was asked for. *)
Lemma identityFor_range fresh root (fs : gmap string jsString) source from to :
  fromLine (NoteOps.identityFor fresh root fs source from to) = from
  /\ toLine (NoteOps.identityFor fresh root fs source from to) = to.
Proof.
  unfold NoteOps.identityFor.
  destruct (List.find _ _) as [n|] eqn:Hfind; [|split; reflexivity].
  apply List.find_some in Hfind as [_ Hn].
  apply bool_decide_eq_true in Hn. exact Hn.
Qed.

Lemma run_fromFsPath (w : World) (fresh : nat) (source : string) (from to : nat) :
  run (NoteOps.fromFsPath fresh source from to) w
  = (Returned (NoteOps.identityFor fresh (notesRoot w) (files w) source from to), w).
Proof. reflexivity. Qed.

(** C8. For a selection whose start is at or before its end,
    [getSelectionLineRange] gives the editor's 0-based start and end lines
    plus one, so [1 <= from <= to]; the note built from that range is a
    valid one. *)
Theorem selection_range_is_valid (w : World) (editor : TextEditor) (fresh : nat) :
  isBeforeOrEqual (start (selection editor)) (end_ (selection editor)) = true ->
  let '(from, to) := getSelectionLineRange editor in
  from = S (line (start (selection editor)))
  /\ to = S (line (end_ (selection editor)))
  /\ (1 <= from /\ from <= to)%nat
  /\ exists n,
       run (NoteOps.fromFsPath fresh (fsPath (document editor)) from to) w
       = (Returned n, w)
       /\ validNote n.
Proof.
  intros H. apply isBeforeOrEqual_line in H.
  unfold getSelectionLineRange.
  repeat split; try lia.
  eexists. split; [apply run_fromFsPath|].
  destruct (identityFor_range fresh (notesRoot w) (files w)
              (fsPath (document editor))
              (line (start (selection editor)) + 1)
              (line (end_ (selection editor)) + 1)) as [Hf Ht].
  unfold validNote. lia.
Qed.

(** C7. For a note and a query that are ranges, [isOverlapped] holds exactly
    when some line lies in both; one shared line is enough, as for the note
    [5,5] and the query [5,10]; and the answer is the same when the note
    and the query change roles. *)
Theorem isOverlapped_iff_intersect (n : Note) (from to : nat) :
  (fromLine n <= toLine n)%nat ->
  (from <= to)%nat ->
  (isOverlapped n from to = true
     <-> rangesIntersect from to (fromLine n) (toLine n))
  /\ (forall source id,
        isOverlapped n from to
        = isOverlapped (mkNote source from to id) (fromLine n) (toLine n))
  /\ (forall source id, isOverlapped (mkNote source 5 5 id) 5 10 = true).
Proof.
  intros Hn Hq. unfold isOverlapped, rangesIntersect. split; [|split].
  - rewrite andb_true_iff, !Nat.leb_le. split.
    + intros [H1 H2]. exists (Nat.max from (fromLine n)). lia.
    + intros (l & H1 & H2 & H3 & H4). lia.
  - intros source id. simpl. apply andb_comm.
  - reflexivity.
Qed.

(** ** Document changes *)

(** The handler's whole effect. *)
Lemma onDidChangeTextDocument_run (event : TextDocumentChangeEvent) (w : World) :
  run (onDidChangeTextDocument event) w
  = (Returned tt,
     match activeTextEditor w with
     | Some editor =>
         if sameDocument (changedDocument event) (document editor)
         then record CallDecorateDebounce w else w
     | None => w
     end).
Proof.
  unfold onDidChangeTextDocument, decorateDebounce. run_step.
  destruct (activeTextEditor w) as [editor|]; [|reflexivity].
  destruct (sameDocument _ _); reflexivity.
Qed.

(** C2, as the code has it. A document-change event changes no file: every
    note keeps its path and so its line range. The handler only asks for a
    debounced decoration refresh, and only when the changed document is the
    one in the active editor. *)
Theorem change_event_keeps_ranges (event : TextDocumentChangeEvent) (w : World) :
  files (exec (onDidChangeTextDocument event) w) = files w
  /\ (forall source,
        noteRanges (notesRoot w) (files (exec (onDidChangeTextDocument event) w)) source
        = noteRanges (notesRoot w) (files w) source)
  /\ callsMade (onDidChangeTextDocument event) w
     = match activeTextEditor w with
       | Some editor =>
           if sameDocument (changedDocument event) (document editor)
           then [CallDecorateDebounce] else []
       | None => []
       end.
Proof.
  assert (Hf : files (exec (onDidChangeTextDocument event) w) = files w).
  { unfold exec. rewrite onDidChangeTextDocument_run.
    destruct (activeTextEditor w) as [editor|]; [|reflexivity].
    destruct (sameDocument _ _); reflexivity. }
  split; [exact Hf|]. split; [intros; now rewrite Hf|].
  unfold callsMade, exec. rewrite onDidChangeTextDocument_run.
  destruct (activeTextEditor w) as [editor|].
  - destruct (sameDocument _ _); simpl.
    + apply drop_app_length.
    + apply drop_all.
  - simpl. apply drop_all.
Qed.

(** ** The correspondence index *)

(** The notes of a source file are the tuples whose note path is in the
    store. *)
Lemma elem_of_correspondingNotes root (fs : gmap string jsString) source n :
  n ∈ correspondingNotes root fs source
  <-> sourceFilePath n = source /\ is_Some (fs !! notePath root n).
Proof.
  unfold correspondingNotes, storedNotes, notePath.
  rewrite merge_sort_Permutation, list_elem_of_filter, list_elem_of_omap.
  split.
  - intros [Hsrc (path & Hin & Hdec)]. split; [exact Hsrc|].
    apply list_elem_of_fmap in Hin as ([path' body] & -> & Hin).
    apply elem_of_map_to_list in Hin. simpl in *.
    rewrite (decode_canonical _ _ _ Hdec).
    eauto.
  - intros [Hsrc [body Hbody]]. split; [exact Hsrc|].
    exists (PathCodec.encode root n). split.
    + apply list_elem_of_fmap. exists (PathCodec.encode root n, body).
      split; [reflexivity|]. now apply elem_of_map_to_list.
    + apply decode_encode.
Qed.

(** [find] gives the first element that passes the test. *)
Lemma find_first {A} (f : A -> bool) (l : list A) (x : A) :
  List.find f l = Some x ->
  exists before after,
    l = (before ++ x :: after)%list
    /\ Forall (fun y => f y = false) before
    /\ f x = true.
Proof.
  induction l as [|y l IH]; simpl; [discriminate|].
  destruct (f y) eqn:Hy.
  - intros [= ->]. exists [], l. repeat split; [constructor | exact Hy].
  - intros H. destruct (IH H) as (before & after & -> & Hall & Hx).
    exists (y :: before), after. repeat split; [constructor; assumption | exact Hx].
Qed.

(** ** Trimming *)

Lemma trimStart_nil (s : jsString) :
  trimStart s = [] <-> forallb isWhiteSpace s = true.
Proof.
  induction s as [|u r IH]; simpl; [tauto|].
  destruct (isWhiteSpace u); simpl; [exact IH|].
  split; discriminate.
Qed.

Lemma trimStart_blank_prefix (s : jsString) :
  exists blank, s = (blank ++ trimStart s)%list /\ forallb isWhiteSpace blank = true.
Proof.
  induction s as [|u r (blank & Hs & Hb)]; simpl.
  - exists []. split; reflexivity.
  - destruct (isWhiteSpace u) eqn:Hu.
    + exists (u :: blank). simpl. rewrite Hu, Hb. split; [congruence | reflexivity].
    + exists []. split; reflexivity.
Qed.

(** A string trims to nothing exactly when it is all whitespace. *)
Lemma trim_nil (s : jsString) :
  trim s = [] <-> forallb isWhiteSpace s = true.
Proof.
  unfold trim, trimEnd. split.
  - intros H. apply (f_equal (@rev N)) in H. rewrite rev_involutive in H.
    simpl in H. apply trimStart_nil in H.
    rewrite forallb_forall in H.
    destruct (trimStart_blank_prefix s) as (blank & Hs & Hb).
    rewrite Hs, forallb_app, Hb. simpl.
    apply forallb_forall. intros u Hu. apply H. now apply -> in_rev.
  - intros H. apply trimStart_nil in H. rewrite H. reflexivity.
Qed.

(** ** Closing a note document *)

Lemma run_fromNotePath path n w :
  PathCodec.decode (notesRoot w) path = Some n ->
  run (NoteOps.fromNotePath path) w = (Returned n, w)
  /\ notePath (notesRoot w) n = path.
Proof.
  intros H. unfold NoteOps.fromNotePath. run_step. rewrite H.
  split; [reflexivity | now apply decode_canonical].
Qed.

(** What the close handler does with a note document. *)
Lemma onDidCloseTextDocument_note (event : TextDocument) (w : World) :
  PathCodec.isNotePath (notesRoot w) (fsPath event) = true ->
  run (onDidCloseTextDocument event) w
  = match files w !! fsPath event with
    | Some body =>
        if (length (trim body) =? 0)%nat
        then (Returned tt,
              setFiles (delete (fsPath event) (files w))
                (record (CallRemove (fsPath event))
                   (record (CallRead (fsPath event)) w)))
        else (Returned tt, record (CallRead (fsPath event)) w)
    | None => (Thrown NotFoundError, record (CallRead (fsPath event)) w)
    end.
Proof.
  intros Hnote. unfold onDidCloseTextDocument. run_step. rewrite Hnote.
  unfold PathCodec.isNotePath in Hnote.
  destruct (PathCodec.decode (notesRoot w) (fsPath event)) as [n|] eqn:Hdec;
    [|discriminate].
  destruct (run_fromNotePath _ _ _ Hdec) as [Hrun Hpath].
  rewrite run_bind, Hrun. cbn beta iota.
  unfold NoteOps.read, NoteOps.remove. run_step. simpl. rewrite Hpath.
  destruct (files w !! fsPath event) as [body|]; [|reflexivity].
  run_step. destruct (length (trim body) =? 0)%nat; [|reflexivity].
  run_step. simpl. rewrite Hpath. reflexivity.
Qed.

(** A document that is not a note is left alone. *)
Lemma onDidCloseTextDocument_other (event : TextDocument) (w : World) :
  PathCodec.isNotePath (notesRoot w) (fsPath event) = false ->
  run (onDidCloseTextDocument event) w = (Returned tt, w).
Proof.
  intros Hnote. unfold onDidCloseTextDocument. run_step. now rewrite Hnote.
Qed.

(** C3, as the code has it. When a note document is closed, its file is
    removed exactly when its body trims to nothing, that is, when it holds
    nothing but whitespace; a body with any other character stays, and no
    other file is touched. *)
Theorem close_removes_blank_note (event : TextDocument) (w : World)
    (body : jsString) :
  PathCodec.isNotePath (notesRoot w) (fsPath event) = true ->
  files w !! fsPath event = Some body ->
  let w' := exec (onDidCloseTextDocument event) w in
  (files w' !! fsPath event = None <-> forallb isWhiteSpace body = true)
  /\ (forallb isWhiteSpace body = false -> files w' = files w)
  /\ (forall other, other <> fsPath event -> files w' !! other = files w !! other)
  /\ (trim body = [] <-> forallb isWhiteSpace body = true).
Proof.
  intros Hnote Hbody w'. subst w'. unfold exec.
  rewrite (onDidCloseTextDocument_note _ _ Hnote), Hbody.
  pose proof (trim_nil body) as Htrim.
  destruct (forallb isWhiteSpace body) eqn:Hblank.
  - rewrite (proj2 Htrim eq_refl). simpl.
    split; [|split; [|split]].
    + split; [reflexivity | intros _; apply lookup_delete_eq].
    + discriminate.
    + intros other Hne. now apply lookup_delete_ne.
    + tauto.
  - destruct (trim body) as [|u r] eqn:Ht.
    + destruct Htrim as [Htrim _]. specialize (Htrim eq_refl). discriminate.
    + simpl. split; [|split; [|split]].
      * rewrite Hbody. split; discriminate.
      * reflexivity.
      * reflexivity.
      * split; discriminate.
Qed.

(** ** Adding a note *)

(** Creating the file of a note when it is absent, then opening it. *)
Lemma create_if_absent_run (n : Note) (w : World) :
  let p := notePath (notesRoot w) n in
  run (exists_ ← NoteOps.noteExists n;
       (if negb exists_ then NoteOps.write n [] else mret tt) ;;
       NoteOps.open n) w
  = if bool_decide (is_Some (files w !! p))
    then (Returned tt,
          record (CallOpen p) (record (CallNoteExists p true) w))
    else (Returned tt,
          record (CallOpen p)
            (setFiles (<[p := []]> (files w))
               (record (CallWrite p []) (record (CallNoteExists p false) w)))).
Proof.
  intros p. unfold NoteOps.noteExists, NoteOps.write, NoteOps.open.
  run_step. fold p.
  destruct (bool_decide (is_Some (files w !! p))) eqn:Hex; simpl.
  - run_step. simpl. fold p.
    apply bool_decide_eq_true in Hex as [body Hbody].
    rewrite Hbody. reflexivity.
  - run_step. simpl. fold p. rewrite lookup_insert_eq. reflexivity.
Qed.

(** The note [linenote.addNote] works on is the one for the selection of
    the active editor. *)
Lemma addNote_run (w : World) (editor : TextEditor) (fresh : nat) :
  activeTextEditor w = Some editor ->
  PathCodec.isNotePath (notesRoot w) (fsPath (document editor)) = false ->
  let n := NoteOps.identityFor fresh (notesRoot w) (files w)
             (fsPath (document editor))
             (line (start (selection editor)) + 1)
             (line (end_ (selection editor)) + 1) in
  let p := notePath (notesRoot w) n in
  run (addNote fresh) w
  = if bool_decide (is_Some (files w !! p))
    then (Returned tt,
          record (CallOpen p) (record (CallNoteExists p true) w))
    else (Returned tt,
          record (CallOpen p)
            (setFiles (<[p := []]> (files w))
               (record (CallWrite p []) (record (CallNoteExists p false) w)))).
Proof.
  intros Hed Hnote n p. unfold addNote. run_step. rewrite Hed. run_step.
  rewrite Hnote. unfold getSelectionLineRange. cbn beta iota.
  rewrite run_bind, run_fromFsPath. cbn beta iota.
  apply create_if_absent_run.
Qed.

(** The three ways [linenote.addNote] can go. *)
Lemma addNote_cases (w : World) (fresh : nat) :
  run (addNote fresh) w = (Returned tt, w)
  \/ (exists p,
        is_Some (files w !! p)
        /\ run (addNote fresh) w
           = (Returned tt, record (CallOpen p) (record (CallNoteExists p true) w)))
  \/ (exists p,
        files w !! p = None
        /\ run (addNote fresh) w
           = (Returned tt,
              record (CallOpen p)
                (setFiles (<[p := []]> (files w))
                   (record (CallWrite p [])
                      (record (CallNoteExists p false) w))))).
Proof.
  destruct (activeTextEditor w) as [editor|] eqn:Hed.
  - destruct (PathCodec.isNotePath (notesRoot w) (fsPath (document editor)))
      eqn:Hnote.
    + left. unfold addNote. run_step. rewrite Hed. run_step. now rewrite Hnote.
    + right. pose proof (addNote_run w editor fresh Hed Hnote) as Hrun.
      cbv zeta in Hrun. rewrite Hrun.
      destruct (bool_decide (is_Some (files w !! _))) eqn:Hex.
      * left. eexists. split; [|reflexivity].
        now apply bool_decide_eq_true in Hex.
      * right. eexists. split; [|reflexivity].
        apply bool_decide_eq_false in Hex.
        now apply eq_None_not_Some.
  - left. unfold addNote. run_step. now rewrite Hed.
Qed.

(** A note already on disk for the source and range is the one
    [Note.fromFsPath] gives, up to the uid: the note it gives is on disk. *)
Lemma identityFor_existing fresh root (fs : gmap string jsString) n :
  is_Some (fs !! notePath root n) ->
  is_Some (fs !! notePath root
             (NoteOps.identityFor fresh root fs (sourceFilePath n)
                (fromLine n) (toLine n))).
Proof.
  intros Hn. unfold NoteOps.identityFor.
  assert (Hin : n ∈ correspondingNotes root fs (sourceFilePath n))
    by (apply elem_of_correspondingNotes; auto).
  destruct (List.find _ _) as [m|] eqn:Hfind.
  - apply List.find_some in Hfind as [Hm _].
    apply list_elem_of_In, elem_of_correspondingNotes in Hm. tauto.
  - exfalso. apply list_elem_of_In in Hin.
    pose proof (List.find_none _ _ Hfind n Hin) as Hf. simpl in Hf.
    apply bool_decide_eq_false in Hf. tauto.
Qed.

(** C4. [linenote.addNote] overwrites no body: every file keeps its
    contents; the only write it ever makes is [write("")] to a path for
    which [noteExists()] has just answered false; and when a note for the
    source and the selected range is already on disk, nothing is written. *)
Theorem addNote_keeps_bodies (w : World) (fresh : nat) :
  (forall p body,
     files w !! p = Some body ->
     files (exec (addNote fresh) w) !! p = Some body)
  /\ (forall p body,
        CallWrite p body ∈ callsMade (addNote fresh) w ->
        body = [] /\ files w !! p = None
        /\ callsMade (addNote fresh) w
           = [CallNoteExists p false; CallWrite p []; CallOpen p])
  /\ (forall editor n,
        activeTextEditor w = Some editor ->
        sourceFilePath n = fsPath (document editor) ->
        (fromLine n, toLine n) = getSelectionLineRange editor ->
        is_Some (files w !! notePath (notesRoot w) n) ->
        files (exec (addNote fresh) w) = files w
        /\ forall p body, CallWrite p body ∉ callsMade (addNote fresh) w).
Proof.
  split; [|split].
  - intros p body Hp. unfold exec.
    destruct (addNote_cases w fresh) as [H | [(q & _ & H) | (q & Hq & H)]];
      rewrite H; simpl; try exact Hp.
    rewrite lookup_insert_ne; [exact Hp | congruence].
  - intros p body Hin.
    destruct (addNote_cases w fresh) as [H | [(q & _ & H) | (q & Hq & H)]].
    + rewrite (callsMade_same (addNote fresh) w) in Hin
        by (unfold exec; now rewrite H).
      inversion Hin.
    + rewrite (callsMade_app (addNote fresh) w
                 [CallNoteExists q true; CallOpen q]) in Hin
        by (unfold exec; rewrite H; simpl; now rewrite <- app_assoc).
      repeat (apply elem_of_cons in Hin as [Hin | Hin]; [discriminate|]).
      inversion Hin.
    + assert (Hc : callsMade (addNote fresh) w
                   = [CallNoteExists q false; CallWrite q []; CallOpen q])
        by (apply callsMade_app; unfold exec; rewrite H; simpl;
            now rewrite <- !app_assoc).
      rewrite Hc in Hin.
      apply elem_of_cons in Hin as [Hin | Hin]; [discriminate|].
      apply elem_of_cons in Hin as [Hin | Hin].
      * injection Hin as -> ->. auto.
      * apply elem_of_cons in Hin as [Hin | Hin]; [discriminate | inversion Hin].
  - intros editor n Hed Hsrc Hrange Hn.
    unfold getSelectionLineRange in Hrange. injection Hrange as Hf Ht.
    destruct (PathCodec.isNotePath (notesRoot w) (fsPath (document editor)))
      eqn:Hnote.
    + assert (Hrun : run (addNote fresh) w = (Returned tt, w))
        by (unfold addNote; run_step; rewrite Hed; run_step; now rewrite Hnote).
      split; [unfold exec; now rewrite Hrun|].
      intros p body Hin.
      rewrite (callsMade_same (addNote fresh) w) in Hin
        by (unfold exec; now rewrite Hrun).
      inversion Hin.
    + pose proof (addNote_run w editor fresh Hed Hnote) as Hrun.
      cbv zeta in Hrun.
      pose proof (identityFor_existing fresh (notesRoot w) (files w) n Hn) as Hex.
      rewrite Hsrc, Hf, Ht in Hex.
      rewrite (bool_decide_eq_true_2 _ Hex) in Hrun.
      split; [unfold exec; now rewrite Hrun|].
      intros p body Hin.
      rewrite (callsMade_app (addNote fresh) w _
                 ltac:(unfold exec; rewrite Hrun; simpl;
                       rewrite <- app_assoc; reflexivity)) in Hin.
      repeat (apply elem_of_cons in Hin as [Hin | Hin]; [discriminate|]).
      inversion Hin.
Qed.

(** ** Removing the note at the selection *)

(** [linenote.removeNote] without a path, in an editor that shows a source
    file. *)
Lemma removeNote_run (w : World) (editor : TextEditor) (arg : option string) :
  givenPath arg = None ->
  activeTextEditor w = Some editor ->
  PathCodec.isNotePath (notesRoot w) (fsPath (document editor)) = false ->
  run (removeNote arg) w
  = match
      List.find
        (fun note => isOverlapped note
                       (getSelectionLineRange editor).1
                       (getSelectionLineRange editor).2)
        (correspondingNotes (notesRoot w) (files w) (fsPath (document editor)))
    with
    | Some n =>
        (Returned tt,
         record CallDecorateDebounce
           (setFiles (delete (notePath (notesRoot w) n) (files w))
              (record (CallRemove (notePath (notesRoot w) n)) w)))
    | None => (Returned tt, w)
    end.
Proof.
  intros Harg Hed Hnote. unfold removeNote. run_step. rewrite Harg, Hed.
  run_step. rewrite Hnote. unfold getCorrespondingNotes. run_step.
  unfold getSelectionLineRange. cbn beta iota. simpl fst. simpl snd.
  destruct (List.find _ _) as [n|]; [|reflexivity].
  unfold NoteOps.remove, decorateDebounce. run_step. reflexivity.
Qed.

(** C10. [linenote.removeNote] without a path removes at most one file. In
    an editor that shows a source file it is the file of the first note, in
    the order of [getCorrespondingNotes], whose range overlaps the
    selection: the notes before it do not overlap, every other file and
    every other note of the source stay, and a decoration refresh is asked
    for. When no note overlaps, nothing is removed and no refresh is asked
    for. *)
Theorem removeNote_removes_first_overlap (w : World) (arg : option string) :
  givenPath arg = None ->
  let w' := exec (removeNote arg) w in
  (forall p q,
     is_Some (files w !! p) -> files w' !! p = None ->
     is_Some (files w !! q) -> files w' !! q = None -> p = q)
  /\ (forall editor,
        activeTextEditor w = Some editor ->
        PathCodec.isNotePath (notesRoot w) (fsPath (document editor)) = false ->
        let notes := correspondingNotes (notesRoot w) (files w)
                       (fsPath (document editor)) in
        let '(from, to) := getSelectionLineRange editor in
        match List.find (fun note => isOverlapped note from to) notes with
        | Some n =>
            (exists before after,
               notes = (before ++ n :: after)%list
               /\ Forall (fun m => isOverlapped m from to = false) before
               /\ isOverlapped n from to = true)
            /\ files w' = delete (notePath (notesRoot w) n) (files w)
            /\ (forall m, m ∈ notes -> m <> n ->
                  files w' !! notePath (notesRoot w) m
                  = files w !! notePath (notesRoot w) m)
            /\ callsMade (removeNote arg) w
               = [CallRemove (notePath (notesRoot w) n); CallDecorateDebounce]
        | None =>
            run (removeNote arg) w = (Returned tt, w)
            /\ callsMade (removeNote arg) w = []
        end).
Proof.
  intros Harg w'. subst w'. split.
  - intros p q Hp Hp' Hq Hq'.
    destruct (activeTextEditor w) as [editor|] eqn:Hed.
    + destruct (PathCodec.isNotePath (notesRoot w) (fsPath (document editor)))
        eqn:Hnote.
      * assert (Hrun : run (removeNote arg) w = (Returned tt, w)).
        { unfold removeNote. run_step. rewrite Harg, Hed. run_step.
          now rewrite Hnote. }
        unfold exec in Hp'. rewrite Hrun in Hp'. simpl in Hp'.
        rewrite Hp' in Hp. now destruct Hp.
      * unfold exec in Hp', Hq'.
        rewrite (removeNote_run w editor arg Harg Hed Hnote) in Hp', Hq'.
        destruct (List.find _ _) as [n|]; simpl in Hp', Hq'.
        -- apply lookup_delete_None in Hp' as [Ep | Hp'];
             [|rewrite Hp' in Hp; now destruct Hp].
           apply lookup_delete_None in Hq' as [Eq | Hq'];
             [|rewrite Hq' in Hq; now destruct Hq].
           congruence.
        -- rewrite Hp' in Hp. now destruct Hp.
    + assert (Hrun : run (removeNote arg) w = (Returned tt, w)).
      { unfold removeNote. run_step. now rewrite Harg, Hed. }
      unfold exec in Hp'. rewrite Hrun in Hp'. simpl in Hp'.
      rewrite Hp' in Hp. now destruct Hp.
  - intros editor Hed Hnote notes.
    pose proof (removeNote_run w editor arg Harg Hed Hnote) as Hrun.
    unfold getSelectionLineRange in *. simpl fst in Hrun. simpl snd in Hrun.
    fold notes in Hrun.
    destruct (List.find _ notes) as [n|] eqn:Hfind.
    + split; [exact (find_first _ _ _ Hfind)|].
      split; [unfold exec; now rewrite Hrun|].
      split.
      * intros m _ Hne. unfold exec. rewrite Hrun. simpl.
        apply lookup_delete_ne. unfold notePath. intros E.
        apply encode_inj in E. congruence.
      * apply callsMade_app. unfold exec. rewrite Hrun. simpl.
        now rewrite <- app_assoc.
    + split; [exact Hrun|].
      apply callsMade_same. unfold exec. now rewrite Hrun.
Qed.

(** C2, as the claim states it, fails: a note on lines 4 to 6 of a ten-line
    document stays on lines 4 to 6 when three lines are typed in before
    line 2; the shift to lines 7 to 9 does not take place. *)
Lemma change_event_does_not_shift :
  let w := sampleWorld oneNoteFiles 1 1 in
  let w' := exec (onDidChangeTextDocument insertThreeLines) w in
  noteRanges sampleRoot (files w) appTs = [(4, 6)]
  /\ specShiftedRange 3 (4, 6) = (7, 9)
  /\ noteRanges sampleRoot (files w') appTs = [(4, 6)]
  /\ noteRanges sampleRoot (files w') appTs
     <> specShiftedRange 3 <$> noteRanges sampleRoot (files w) appTs.
Proof.
  vm_compute. repeat split; try reflexivity. discriminate.
Qed.

(** ** Sample runs *)

(** C1. Decoding the note path of an identity tuple gives the tuple back,
    whatever the notes root and whatever characters the source path holds:
    spaces, the bytes of unicode characters, the delimiter, the escape
    character. *)
Theorem note_path_round_trip (root : string) (n : Note) :
  PathCodec.decode root (PathCodec.encode root n) = Some n.
Proof. apply decode_encode. Qed.

Example round_trip_app_ts :
  PathCodec.encode sampleRoot (mkNote appTs 12 12 7) = "/notes//proj/app.ts#12-12#7"
  /\ PathCodec.decode sampleRoot "/notes//proj/app.ts#12-12#7"
     = Some (mkNote appTs 12 12 7).
Proof. split; reflexivity. Qed.

Example round_trip_delimiter_in_segment :
  PathCodec.encode sampleRoot (mkNote "/my proj/a#b%23/é.ts" 3 40 15)
  = "/notes//my proj/a%23b%2523/é.ts#3-40#15"
  /\ PathCodec.decode sampleRoot "/notes//my proj/a%23b%2523/é.ts#3-40#15"
     = Some (mkNote "/my proj/a#b%23/é.ts" 3 40 15).
Proof. split; vm_compute; reflexivity. Qed.

Example decode_rejects_other_paths :
  PathCodec.decode sampleRoot "/proj/app.ts" = None
  /\ PathCodec.decode sampleRoot "/notes//proj/app.ts#012-12#7" = None
  /\ PathCodec.decode sampleRoot "/notes//proj/a%2.ts#12-12#7" = None.
Proof. repeat split; vm_compute; reflexivity. Qed.

Lemma commands_skip_note_documents_witness :
  run (addNote 7) noteEditorWorld = (Returned tt, noteEditorWorld)
  /\ run (openNote None) noteEditorWorld = (Returned tt, noteEditorWorld)
  /\ run (removeNote None) noteEditorWorld = (Returned tt, noteEditorWorld).
Proof.
  apply (commands_skip_note_documents noteEditorWorld
           (mkTextEditor (mkTextDocument (appNote 4 6 1) [js "todo"]) (caret 0))
           7 None); reflexivity.
Defined.

Lemma sweep_interval_is_floor_witness :
  callsMade (automaticallyDelete 500) (sampleWorld oneNoteFiles 0 0)
  = [CallRemoveNotCorrespondingNotes; CallSetTimeout (Finite (Z.max 0 (2000 - 500)))]
  /\ exists due,
       successorDue 500 (sampleWorld oneNoteFiles 0 0) = Some due
       /\ (due - 1000 = Z.max 500 2000)%Z
       /\ (1000 + 2000 <= due)%Z.
Proof.
  pose proof (sweep_interval_is_floor (sampleWorld oneNoteFiles 0 0) 500 2000
                eq_refl eq_refl eq_refl
                ltac:(split; [lia | apply Z.leb_le; vm_compute; reflexivity])
                ltac:(apply Z.leb_le; vm_compute; reflexivity)
                ltac:(apply Z.leb_le; vm_compute; reflexivity)) as (_ & Hc & Hdue).
  split; [exact Hc | exact Hdue].
Defined.

(** C5, as the claim states it, fails: with an interval of [2^53 + 2]
    milliseconds and a sweep of 1 millisecond the subtraction rounds, the
    delay handed to [setTimeout] is [2^53] and not [max 0 (i - d)], and the
    successor is due before the interval has passed. *)
Lemma sweep_delay_is_rounded :
  let i := 9007199254740994%Z in
  let d := 1%Z in
  callsMade (automaticallyDelete d) longIntervalWorld
  = [CallRemoveNotCorrespondingNotes; CallSetTimeout (Finite 9007199254740992)]
  /\ Finite 9007199254740992 <> Finite (Z.max 0 (i - d))
  /\ successorDue d longIntervalWorld
     = Some (now longIntervalWorld + 9007199254740993)%Z
  /\ (now longIntervalWorld + 9007199254740993 < now longIntervalWorld + i)%Z.
Proof.
  vm_compute. repeat split; try reflexivity. discriminate.
Qed.

Lemma sweep_runs_only_when_configured_witness :
  exists delay,
    callsMade (automaticallyDelete 500) (sampleWorld oneNoteFiles 0 0)
    = [CallRemoveNotCorrespondingNotes; CallSetTimeout delay].
Proof.
  apply (proj2 (proj2 (sweep_runs_only_when_configured
                         (sampleWorld oneNoteFiles 0 0) 500)));
    reflexivity.
Defined.

Lemma selection_range_is_valid_witness :
  getSelectionLineRange
    (mkTextEditor (appDocument 10) (linesSelection 3 5)) = (4, 6)
  /\ exists n,
       run (NoteOps.fromFsPath 9 appTs 4 6) (sampleWorld oneNoteFiles 3 5)
       = (Returned n, sampleWorld oneNoteFiles 3 5)
       /\ validNote n.
Proof.
  split; [reflexivity|].
  exact (proj2 (proj2 (proj2
    (selection_range_is_valid (sampleWorld oneNoteFiles 3 5)
       (mkTextEditor (appDocument 10) (linesSelection 3 5)) 9 eq_refl)))).
Defined.

Lemma isOverlapped_iff_intersect_witness :
  isOverlapped (mkNote appTs 5 5 1) 5 10 = true
  <-> rangesIntersect 5 10 5 5.
Proof.
  exact (proj1 (isOverlapped_iff_intersect (mkNote appTs 5 5 1) 5 10
                  ltac:(simpl; lia) ltac:(lia))).
Defined.

(** C3, as the claim states it, fails: a note whose body is a space and a
    line feed is not empty, and closing it removes its file. *)
Lemma close_removes_nonempty_body :
  let w := sampleWorld blankNoteFiles 0 0 in
  let w' := exec (onDidCloseTextDocument (mkTextDocument (appNote 4 6 1) [])) w in
  files w !! appNote 4 6 1 = Some [32%N; 10%N]
  /\ [32%N; 10%N] <> ([] : jsString)
  /\ files w' !! appNote 4 6 1 = None.
Proof.
  vm_compute. repeat split; try reflexivity. discriminate.
Qed.

Lemma close_removes_blank_note_witness :
  files (exec (onDidCloseTextDocument (mkTextDocument (appNote 4 6 1) []))
           (sampleWorld blankNoteFiles 0 0)) !! appNote 4 6 1 = None
  <-> forallb isWhiteSpace [32%N; 10%N] = true.
Proof.
  exact (proj1 (close_removes_blank_note
                  (mkTextDocument (appNote 4 6 1) [])
                  (sampleWorld blankNoteFiles 0 0) [32%N; 10%N]
                  eq_refl eq_refl)).
Defined.

Lemma addNote_keeps_bodies_witness :
  files (exec (addNote 9) (sampleWorld oneNoteFiles 3 5)) = oneNoteFiles.
Proof.
  apply (proj2 (proj2 (addNote_keeps_bodies (sampleWorld oneNoteFiles 3 5) 9))
           (mkTextEditor (appDocument 10) (linesSelection 3 5))
           (mkNote appTs 4 6 1)).
  - reflexivity.
  - reflexivity.
  - reflexivity.
  - vm_compute. eexists. reflexivity.
Defined.

Lemma removeNote_removes_first_overlap_witness :
  givenPath None = None
  /\ callsMade (removeNote None) (sampleWorld twoNoteFiles 4 5)
     = [CallRemove (appNote 4 6 1); CallDecorateDebounce].
Proof.
  split; [reflexivity|].
  pose proof (proj2 (removeNote_removes_first_overlap
                       (sampleWorld twoNoteFiles 4 5) None eq_refl)
                (mkTextEditor (appDocument 10) (linesSelection 4 5))
                eq_refl eq_refl) as H.
  vm_compute in H. destruct H as (_ & _ & _ & H).
  vm_compute. exact H.
Defined.

(** Both notes of [/proj/app.ts] overlap lines 5 to 6; only the first one,
    on lines 4 to 6, goes. *)
Example removeNote_at_sample :
  let w := sampleWorld twoNoteFiles 4 5 in
  let w' := exec (removeNote None) w in
  noteRanges sampleRoot (files w) appTs = [(4, 6); (5, 8)]
  /\ noteRanges sampleRoot (files w') appTs = [(5, 8)]
  /\ files w' !! appNote 5 8 2 = Some (js "later")
  /\ calls w' = [CallRemove (appNote 4 6 1); CallDecorateDebounce].
Proof. vm_compute. repeat split; reflexivity. Qed.

(** A new note is created empty; an existing one is only opened. *)
Example addNote_at_sample :
  callsMade (addNote 9) (sampleWorld oneNoteFiles 0 0)
  = [CallNoteExists (appNote 1 1 9) false;
     CallWrite (appNote 1 1 9) [];
     CallOpen (appNote 1 1 9)]
  /\ callsMade (addNote 9) (sampleWorld oneNoteFiles 3 5)
     = [CallNoteExists (appNote 4 6 1) true; CallOpen (appNote 4 6 1)].
Proof. split; vm_compute; reflexivity. Qed.

(* ===================================================================== *)
(** * Further properties of extension.ts *)
(* ===================================================================== *)

(** ** Adding a note, continued *)

Lemma identityFor_source fresh root (fs : gmap string jsString) source from to :
  sourceFilePath (NoteOps.identityFor fresh root fs source from to) = source.
Proof.
  unfold NoteOps.identityFor.
  destruct (List.find _ _) as [n|] eqn:Hfind; [|reflexivity].
  apply List.find_some in Hfind as [Hn _].
  apply list_elem_of_In, elem_of_correspondingNotes in Hn. tauto.
Qed.

(** The note that is found is on disk; the note that is minted is not. *)
Lemma identityFor_on_disk fresh root (fs : gmap string jsString) source from to :
  let n := NoteOps.identityFor fresh root fs source from to in
  is_Some (fs !! notePath root n)
  <-> exists m, m ∈ correspondingNotes root fs source
                /\ fromLine m = from /\ toLine m = to.
Proof.
  intros n. subst n. unfold NoteOps.identityFor.
  destruct (List.find _ _) as [n|] eqn:Hfind.
  - apply List.find_some in Hfind as [Hn Hr].
    apply bool_decide_eq_true in Hr.
    apply list_elem_of_In in Hn.
    split; [intros _; exists n; tauto|]. intros _.
    apply elem_of_correspondingNotes in Hn. tauto.
  - split.
    + intros Hex. exists (mkNote source from to fresh).
      split; [|split; reflexivity].
      apply elem_of_correspondingNotes. auto.
    + intros (m & Hm & Hf & Ht). exfalso.
      apply list_elem_of_In in Hm.
      pose proof (List.find_none _ _ Hfind m Hm) as Hno. simpl in Hno.
      apply bool_decide_eq_false in Hno. tauto.
Qed.

(** X1. In an editor that shows a source file, and with a store whose
    operations succeed, [linenote.addNote] asks whether the note of the
    selection exists, writes the empty body when it does not, and opens the
    note.  The note has the source of the document and the selected range;
    afterwards its file holds the body it held before, or the empty body
    when it was absent; no other file has changed; and the note is in the
    listing of the document. *)
Theorem addNote_ends_with_note_open (w : World) (editor : TextEditor) (fresh : nat) :
  activeTextEditor w = Some editor ->
  PathCodec.isNotePath (notesRoot w) (fsPath (document editor)) = false ->
  exists n,
    let p := notePath (notesRoot w) n in
    let w' := exec (addNote fresh) w in
    sourceFilePath n = fsPath (document editor)
    /\ (fromLine n, toLine n) = getSelectionLineRange editor
    /\ files w' !! p = Some (default [] (files w !! p))
    /\ (forall q, q <> p -> files w' !! q = files w !! q)
    /\ n ∈ correspondingNotes (notesRoot w) (files w') (fsPath (document editor))
    /\ callsMade (addNote fresh) w
       = (CallNoteExists p (bool_decide (is_Some (files w !! p)))
          :: (if bool_decide (is_Some (files w !! p)) then []
              else [CallWrite p []])
          ++ [CallOpen p])%list.
Proof.
  intros Hed Hnote.
  pose proof (addNote_run w editor fresh Hed Hnote) as Hrun. cbv zeta in Hrun.
  set (n := NoteOps.identityFor fresh (notesRoot w) (files w)
              (fsPath (document editor))
              (line (start (selection editor)) + 1)
              (line (end_ (selection editor)) + 1)) in *.
  destruct (identityFor_range fresh (notesRoot w) (files w)
              (fsPath (document editor))
              (line (start (selection editor)) + 1)
              (line (end_ (selection editor)) + 1)) as [Hf Ht].
  fold n in Hf, Ht.
  assert (Hsrc : sourceFilePath n = fsPath (document editor))
    by apply identityFor_source.
  exists n. cbv zeta. unfold getSelectionLineRange. rewrite Hf, Ht.
  set (p := notePath (notesRoot w) n) in *.
  assert (Hfile : files (exec (addNote fresh) w) !! p
                  = Some (default [] (files w !! p))
                  /\ forall q, q <> p ->
                       files (exec (addNote fresh) w) !! q = files w !! q).
  { unfold exec. rewrite Hrun.
    destruct (bool_decide (is_Some (files w !! p))) eqn:E; simpl.
    - apply bool_decide_eq_true in E as [body Hbody].
      unfold jsString in *. rewrite Hbody. auto.
    - apply bool_decide_eq_false in E. apply eq_None_not_Some in E.
      unfold jsString in *. rewrite E. simpl. split; [apply lookup_insert_eq|].
      intros q Hq. apply lookup_insert_ne. congruence. }
  destruct Hfile as [Hp Hother].
  split; [exact Hsrc|]. split; [reflexivity|]. split; [exact Hp|].
  split; [exact Hother|].
  split; [apply elem_of_correspondingNotes; split; [exact Hsrc|];
          exists (default [] (files w !! p)); exact Hp|].
  apply callsMade_app. unfold exec. rewrite Hrun.
  destruct (bool_decide (is_Some (files w !! p))); simpl;
    rewrite <- ?app_assoc; reflexivity.
Qed.

(** X2. Adding a note twice for the same selection creates it once: after a
    first [linenote.addNote], a second one, whatever uid it would mint,
    finds the note of the first, writes nothing, leaves every file as it
    is, and opens the same note. *)
Theorem addNote_twice_creates_once (w : World) (editor : TextEditor)
    (fresh fresh' : nat) :
  activeTextEditor w = Some editor ->
  PathCodec.isNotePath (notesRoot w) (fsPath (document editor)) = false ->
  let w1 := exec (addNote fresh) w in
  exists p,
    last (calls w1) = Some (CallOpen p)
    /\ files (exec (addNote fresh') w1) = files w1
    /\ callsMade (addNote fresh') w1 = [CallNoteExists p true; CallOpen p].
Proof.
  intros Hed Hnote w1.
  pose proof (addNote_run w editor fresh Hed Hnote) as Hrun. cbv zeta in Hrun.
  set (src := fsPath (document editor)) in *.
  set (from := line (start (selection editor)) + 1) in *.
  set (to := line (end_ (selection editor)) + 1) in *.
  set (n := NoteOps.identityFor fresh (notesRoot w) (files w) src from to) in *.
  set (p := notePath (notesRoot w) n) in *.
  assert (Hw1 : activeTextEditor w1 = Some editor /\ notesRoot w1 = notesRoot w
                /\ is_Some (files w1 !! p)
                /\ last (calls w1) = Some (CallOpen p)
                /\ (files w1 = files w /\ is_Some (files w !! p)
                    \/ files w1 = <[p := []]> (files w) /\ files w !! p = None)).
  { subst w1. unfold exec. rewrite Hrun.
    destruct (bool_decide (is_Some (files w !! p))) eqn:E; simpl.
    - apply bool_decide_eq_true in E.
      repeat split; auto using last_snoc.
    - apply bool_decide_eq_false in E. apply eq_None_not_Some in E.
      rewrite lookup_insert_eq.
      repeat split; eauto using last_snoc. }
  destruct Hw1 as (Hed1 & Hroot1 & Hp1 & Hlast & Hfiles).
  assert (Hsame : NoteOps.identityFor fresh' (notesRoot w) (files w1) src from to = n).
  { destruct (identityFor_range fresh (notesRoot w) (files w) src from to) as [Hf Ht].
    pose proof (identityFor_source fresh (notesRoot w) (files w) src from to) as Hs.
    fold n in Hf, Ht, Hs.
    destruct Hfiles as [[Hfs Hp] | [Hfs Hp]].
    - rewrite Hfs. unfold n, NoteOps.identityFor.
      destruct (List.find _ _) as [m|] eqn:Hfind; [reflexivity|].
      exfalso.
      assert (Hin : n ∈ correspondingNotes (notesRoot w) (files w) src)
        by (apply elem_of_correspondingNotes; auto).
      apply list_elem_of_In in Hin.
      pose proof (List.find_none _ _ Hfind n Hin) as Hno. simpl in Hno.
      apply bool_decide_eq_false in Hno. tauto.
    - assert (Hnone : forall m, m ∈ correspondingNotes (notesRoot w) (files w) src ->
                                ~ (fromLine m = from /\ toLine m = to)).
      { intros m Hm Hr.
        assert (Hex : is_Some (files w !! p)).
        { apply (identityFor_on_disk fresh (notesRoot w) (files w) src from to).
          exists m. tauto. }
        rewrite Hp in Hex. now destruct Hex. }
      unfold NoteOps.identityFor.
      destruct (List.find _ (correspondingNotes (notesRoot w) (files w1) src))
        as [m|] eqn:Hfind.
      + apply List.find_some in Hfind as [Hm Hr].
        apply bool_decide_eq_true in Hr.
        apply list_elem_of_In, elem_of_correspondingNotes in Hm as [Hms Hmx].
        rewrite Hfs in Hmx.
        destruct (decide (notePath (notesRoot w) m = p)) as [E | Hne].
        * unfold p, notePath in E. now apply encode_inj in E.
        * rewrite lookup_insert_ne in Hmx by congruence.
          exfalso. apply (Hnone m); [|exact Hr].
          apply elem_of_correspondingNotes. auto.
      + exfalso.
        assert (Hin : n ∈ correspondingNotes (notesRoot w) (files w1) src)
          by (apply elem_of_correspondingNotes; auto).
        apply list_elem_of_In in Hin.
        pose proof (List.find_none _ _ Hfind n Hin) as Hno. simpl in Hno.
        apply bool_decide_eq_false in Hno. tauto. }
  assert (Hnote1 : PathCodec.isNotePath (notesRoot w1) (fsPath (document editor)) = false)
    by now rewrite Hroot1.
  pose proof (addNote_run w1 editor fresh' Hed1 Hnote1) as Hrun1.
  cbv zeta in Hrun1. rewrite Hroot1 in Hrun1.
  fold src from to in Hrun1. rewrite Hsame in Hrun1. fold p in Hrun1.
  rewrite (bool_decide_eq_true_2 _ Hp1) in Hrun1.
  exists p. split; [exact Hlast|]. unfold exec at 1. rewrite Hrun1.
  split; [reflexivity|].
  apply callsMade_app. unfold exec. rewrite Hrun1. simpl.
  now rewrite <- app_assoc.
Qed.

(** ** Opening notes *)

Lemma recordAll_app cs ds w : recordAll (cs ++ ds) w = recordAll ds (recordAll cs w).
Proof. unfold recordAll. apply fold_left_app. Qed.

Lemma recordAll_frame cs w :
  files (recordAll cs w) = files w
  /\ notesRoot (recordAll cs w) = notesRoot w
  /\ calls (recordAll cs w) = (calls w ++ cs)%list.
Proof.
  revert w. induction cs as [|c cs IH]; intros w; simpl.
  - now rewrite app_nil_r.
  - destruct (IH (record c w)) as (Hf & Hr & Hc).
    rewrite Hf, Hr, Hc. simpl. now rewrite <- app_assoc.
Qed.

Lemma run_open (n : Note) (w : World) :
  run (NoteOps.open n) w
  = match files w !! notePath (notesRoot w) n with
    | Some _ => (Returned tt, record (CallOpen (notePath (notesRoot w) n)) w)
    | None => (Thrown NotFoundError, w)
    end.
Proof.
  unfold NoteOps.open. run_step.
  destruct (files w !! notePath (notesRoot w) n); reflexivity.
Qed.

(** Opening notes that are on disk records one call for each, in order. *)
Lemma forEach_open_run (notes : list Note) (w : World) :
  Forall (fun n => is_Some (files w !! notePath (notesRoot w) n)) notes ->
  run (forEach NoteOps.open notes) w
  = (Returned tt,
     recordAll ((fun n => CallOpen (notePath (notesRoot w) n)) <$> notes) w).
Proof.
  revert w. induction notes as [|n notes IH]; intros w Hall; [reflexivity|].
  inversion Hall as [|? ? [body Hn] Hrest]; subst.
  change (forEach NoteOps.open (n :: notes))
    with (NoteOps.open n ≫= fun _ => forEach NoteOps.open notes).
  rewrite run_bind, run_open, Hn.
  rewrite IH; [reflexivity|]. simpl. exact Hrest.
Qed.

(** [linenote.openNote] without a path, in an editor that shows a source
    file. *)
Lemma openNote_run (w : World) (editor : TextEditor) (arg : option string) :
  givenPath arg = None ->
  activeTextEditor w = Some editor ->
  PathCodec.isNotePath (notesRoot w) (fsPath (document editor)) = false ->
  run (openNote arg) w
  = (Returned tt,
     recordAll
       ((fun n => CallOpen (notePath (notesRoot w) n))
          <$> List.filter
                (fun n => isOverlapped n (getSelectionLineRange editor).1
                            (getSelectionLineRange editor).2)
                (correspondingNotes (notesRoot w) (files w)
                   (fsPath (document editor)))) w).
Proof.
  intros Harg Hed Hnote.
  unfold openNote. run_step. rewrite Harg, Hed. run_step. rewrite Hnote.
  unfold getCorrespondingNotes. run_step. unfold getSelectionLineRange.
  cbn beta iota. apply forEach_open_run.
  apply Forall_forall. intros n Hn.
  apply list_elem_of_In, List.filter_In in Hn as [Hn _].
  apply list_elem_of_In, elem_of_correspondingNotes in Hn. tauto.
Qed.

Lemma openNote_calls (w : World) (editor : TextEditor) (arg : option string) :
  givenPath arg = None ->
  activeTextEditor w = Some editor ->
  PathCodec.isNotePath (notesRoot w) (fsPath (document editor)) = false ->
  callsMade (openNote arg) w
  = (fun n => CallOpen (notePath (notesRoot w) n))
      <$> List.filter
            (fun n => isOverlapped n (getSelectionLineRange editor).1
                        (getSelectionLineRange editor).2)
            (correspondingNotes (notesRoot w) (files w)
               (fsPath (document editor))).
Proof.
  intros Harg Hed Hnote.
  apply callsMade_app. unfold exec.
  rewrite (openNote_run w editor arg Harg Hed Hnote). simpl.
  apply recordAll_frame.
Qed.

(** X3. [linenote.openNote] without a path, in an editor that shows a source
    file, is fulfilled, changes no file, and opens exactly the notes of the
    document whose range overlaps the selection, each once, in the order of
    [getCorrespondingNotes]. *)
Theorem openNote_opens_overlapping (w : World) (editor : TextEditor)
    (arg : option string) :
  givenPath arg = None ->
  activeTextEditor w = Some editor ->
  PathCodec.isNotePath (notesRoot w) (fsPath (document editor)) = false ->
  let '(from, to) := getSelectionLineRange editor in
  outcome (openNote arg) w = Returned tt
  /\ files (exec (openNote arg) w) = files w
  /\ callsMade (openNote arg) w
     = (fun n => CallOpen (notePath (notesRoot w) n))
         <$> List.filter (fun n => isOverlapped n from to)
               (correspondingNotes (notesRoot w) (files w)
                  (fsPath (document editor))).
Proof.
  intros Harg Hed Hnote.
  pose proof (openNote_run w editor arg Harg Hed Hnote) as Hrun.
  pose proof (openNote_calls w editor arg Harg Hed Hnote) as Hcalls.
  unfold getSelectionLineRange in *. simpl fst in *. simpl snd in *.
  unfold outcome, exec. rewrite Hrun. simpl.
  split; [reflexivity|]. split; [apply recordAll_frame | exact Hcalls].
Qed.

(** ** Commands with a path *)

Lemma decode_empty root : PathCodec.decode root EmptyString = None.
Proof.
  unfold PathCodec.decode, PathCodec.parse.
  destruct root; reflexivity.
Qed.

Lemma givenPath_note root p n :
  PathCodec.decode root p = Some n -> givenPath (Some p) = Some p.
Proof.
  destruct p; [|reflexivity]. rewrite decode_empty. discriminate.
Qed.

(** X4. With a note path as its argument a command works on that note and
    on nothing else, whatever the active editor shows or selects:
    [linenote.removeNote] deletes that file, present or not, leaves every
    other file and asks for a decoration refresh; [linenote.openNote] opens
    the note when its file is there. *)
Theorem commands_with_path_ignore_editor (w : World) (p : string) (n : Note) :
  PathCodec.decode (notesRoot w) p = Some n ->
  run (removeNote (Some p)) w
  = (Returned tt,
     record CallDecorateDebounce
       (setFiles (delete p (files w)) (record (CallRemove p) w)))
  /\ (is_Some (files w !! p) ->
      run (openNote (Some p)) w = (Returned tt, record (CallOpen p) w)).
Proof.
  intros Hdec.
  pose proof (givenPath_note _ _ _ Hdec) as Hgiven.
  destruct (run_fromNotePath _ _ _ Hdec) as [Hrun Hpath].
  split.
  - unfold removeNote. run_step. rewrite Hgiven. rewrite run_bind, Hrun.
    cbn beta iota. unfold NoteOps.remove, decorateDebounce. run_step.
    simpl. rewrite Hpath. reflexivity.
  - intros [body Hbody]. unfold openNote. run_step. rewrite Hgiven.
    rewrite run_bind, Hrun. cbn beta iota.
    rewrite run_open, Hpath, Hbody. reflexivity.
Qed.

(** X5. A non-empty argument that is not a note path makes
    [linenote.openNote] and [linenote.removeNote] reject with
    [InvalidNotePathError] before anything is done: the world is the one
    they started in, and the notes at the selection are not fallen back
    on. *)
Theorem commands_reject_invalid_path (w : World) (p : string) :
  p <> EmptyString ->
  PathCodec.decode (notesRoot w) p = None ->
  run (openNote (Some p)) w = (Thrown InvalidNotePathError, w)
  /\ run (removeNote (Some p)) w = (Thrown InvalidNotePathError, w).
Proof.
  intros Hp Hdec.
  assert (Hgiven : givenPath (Some p) = Some p)
    by (destruct p; [congruence | reflexivity]).
  unfold openNote, removeNote, NoteOps.fromNotePath. run_step.
  rewrite Hgiven. run_step. rewrite Hdec. run_step. split; reflexivity.
Qed.

(** ** Removing and opening at the same selection *)

Lemma find_head_filter {A} (f : A -> bool) (l : list A) :
  List.find f l = head (List.filter f l).
Proof.
  induction l as [|x l IH]; [reflexivity|].
  simpl. destruct (f x); [reflexivity | exact IH].
Qed.

(** X6. At one selection [linenote.removeNote] removes the first of the notes
    that [linenote.openNote] opens: when [openNote] has nothing to open,
    [removeNote] changes nothing; otherwise the path it removes is the path
    of the first [open] call. *)
Theorem removeNote_removes_first_opened (w : World) (editor : TextEditor)
    (arg : option string) :
  givenPath arg = None ->
  activeTextEditor w = Some editor ->
  PathCodec.isNotePath (notesRoot w) (fsPath (document editor)) = false ->
  match callsMade (openNote arg) w with
  | [] => run (removeNote arg) w = (Returned tt, w)
  | first :: _ =>
      exists p,
        first = CallOpen p
        /\ callsMade (removeNote arg) w = [CallRemove p; CallDecorateDebounce]
        /\ files (exec (removeNote arg) w) = delete p (files w)
  end.
Proof.
  intros Harg Hed Hnote.
  pose proof (removeNote_run w editor arg Harg Hed Hnote) as Hrun.
  rewrite (openNote_calls w editor arg Harg Hed Hnote).
  rewrite find_head_filter in Hrun.
  destruct (List.filter _ _) as [|n rest]; cbn [fmap list_fmap head] in *;
    [exact Hrun|].
  exists (notePath (notesRoot w) n). split; [reflexivity|].
  split.
  - apply callsMade_app. unfold exec. rewrite Hrun. simpl.
    now rewrite <- app_assoc.
  - unfold exec. rewrite Hrun. reflexivity.
Qed.

(** ** The listing after a removal *)

(** Deleting a note file takes its note, and no other, out of the listing
    of its source. *)
Lemma correspondingNotes_delete root (fs : gmap string jsString) p body n source :
  fs !! p = Some body ->
  PathCodec.decode root p = Some n ->
  correspondingNotes root fs source
  ≡ₚ (if decide (sourceFilePath n = source) then [n] else [])
      ++ correspondingNotes root (delete p fs) source.
Proof.
  intros Hp Hdec. unfold correspondingNotes, storedNotes.
  rewrite !merge_sort_Permutation.
  rewrite <- (map_to_list_delete fs p body Hp).
  simpl. rewrite Hdec. rewrite filter_cons.
  destruct (decide (sourceFilePath n = source)); reflexivity.
Qed.

(** X7. After [linenote.removeNote] has removed a note at the selection, the
    listing of the document holds the notes it held before, less that one
    note once; the listing of every other source is a rearrangement of what
    it was. *)
Theorem removeNote_updates_listing (w : World) (editor : TextEditor)
    (arg : option string) (n : Note) :
  givenPath arg = None ->
  activeTextEditor w = Some editor ->
  PathCodec.isNotePath (notesRoot w) (fsPath (document editor)) = false ->
  List.find
    (fun note => isOverlapped note (getSelectionLineRange editor).1
                   (getSelectionLineRange editor).2)
    (correspondingNotes (notesRoot w) (files w) (fsPath (document editor)))
  = Some n ->
  let w' := exec (removeNote arg) w in
  correspondingNotes (notesRoot w) (files w) (fsPath (document editor))
  ≡ₚ n :: correspondingNotes (notesRoot w) (files w') (fsPath (document editor))
  /\ (forall source, source <> fsPath (document editor) ->
        correspondingNotes (notesRoot w) (files w) source
        ≡ₚ correspondingNotes (notesRoot w) (files w') source)
  /\ n ∉ correspondingNotes (notesRoot w) (files w') (fsPath (document editor)).
Proof.
  intros Harg Hed Hnote Hfind w'. subst w'. unfold exec.
  rewrite (removeNote_run w editor arg Harg Hed Hnote), Hfind. simpl.
  apply List.find_some in Hfind as [Hin _].
  apply list_elem_of_In, elem_of_correspondingNotes in Hin as [Hsrc [body Hbody]].
  pose proof (decode_encode (notesRoot w) n) as Hdec.
  split; [|split].
  - rewrite (correspondingNotes_delete _ _ _ _ _ _ Hbody Hdec).
    rewrite decide_True by exact Hsrc. reflexivity.
  - intros source Hne.
    rewrite (correspondingNotes_delete _ _ _ _ _ source Hbody Hdec).
    rewrite decide_False by congruence. reflexivity.
  - intros Hn. apply elem_of_correspondingNotes in Hn as [_ [b Hb]].
    unfold notePath in Hb. rewrite lookup_delete_eq in Hb. discriminate.
Qed.

(** ** Closing a document, continued *)

(** X8. The close handler touches at most the file of the closed document:
    every other file keeps its contents, the closed one keeps them or is
    gone, nothing is ever written, and closing a document that is not a
    note changes nothing at all. *)
Theorem close_touches_only_closed_file (event : TextDocument) (w : World) :
  let w' := exec (onDidCloseTextDocument event) w in
  (forall other, other <> fsPath event -> files w' !! other = files w !! other)
  /\ (files w' !! fsPath event = files w !! fsPath event
      \/ files w' !! fsPath event = None)
  /\ (forall p body, CallWrite p body ∉ callsMade (onDidCloseTextDocument event) w)
  /\ (PathCodec.isNotePath (notesRoot w) (fsPath event) = false ->
      run (onDidCloseTextDocument event) w = (Returned tt, w)).
Proof.
  intros w'. subst w'. unfold exec.
  destruct (PathCodec.isNotePath (notesRoot w) (fsPath event)) eqn:Hnote.
  - pose proof (onDidCloseTextDocument_note event w Hnote) as Hrun.
    assert (Hcalls : exists new,
               callsMade (onDidCloseTextDocument event) w = new
               /\ forall p body, CallWrite p body ∉ new).
    { destruct (files w !! fsPath event) as [body|];
        [destruct (length (trim body) =? 0)%nat|].
      - exists [CallRead (fsPath event); CallRemove (fsPath event)]. split.
        + apply callsMade_app. unfold exec. rewrite Hrun. simpl.
          now rewrite <- app_assoc.
        + intros p b Hin.
          repeat (apply elem_of_cons in Hin as [Hin | Hin]; [discriminate|]).
          inversion Hin.
      - exists [CallRead (fsPath event)]. split.
        + apply callsMade_app. unfold exec. now rewrite Hrun.
        + intros p b Hin.
          repeat (apply elem_of_cons in Hin as [Hin | Hin]; [discriminate|]).
          inversion Hin.
      - exists [CallRead (fsPath event)]. split.
        + apply callsMade_app. unfold exec. now rewrite Hrun.
        + intros p b Hin.
          repeat (apply elem_of_cons in Hin as [Hin | Hin]; [discriminate|]).
          inversion Hin. }
    destruct Hcalls as (new & -> & Hnew).
    rewrite Hrun.
    destruct (files w !! fsPath event) as [body|] eqn:Hbody;
      [destruct (length (trim body) =? 0)%nat|]; simpl.
    + split; [intros other Hne; now apply lookup_delete_ne|].
      split; [right; apply lookup_delete_eq|]. split; [exact Hnew | discriminate].
    + split; [reflexivity|]. split; [now left|]. split; [exact Hnew | discriminate].
    + split; [reflexivity|]. split; [now left|]. split; [exact Hnew | discriminate].
  - rewrite (callsMade_same (onDidCloseTextDocument event) w)
      by (unfold exec; now rewrite onDidCloseTextDocument_other).
    rewrite (onDidCloseTextDocument_other event w Hnote). simpl.
    split; [reflexivity|]. split; [now left|].
    split; [intros p b Hin; inversion Hin | reflexivity].
Qed.

(** ** The delay of the sweep timer *)

Lemma geZero_mathMax0_toNumber (z : Z) : geZero (mathMax0 (toNumber z)) = true.
Proof.
  unfold toNumber. destruct (2 ^ 1024 <=? Z.abs (roundInteger z))%Z.
  - destruct (z <? 0)%Z; reflexivity.
  - simpl. apply Z.leb_le. lia.
Qed.

(** X9. [setTimeout] is never handed a negative delay or [NaN]: whatever the
    configuration and however long the sweep took, the delay an iteration
    asks for is a number that is at least 0. *)
Theorem sweep_delay_never_negative (w : World) (elapsed : Z) (delay : Number) :
  CallSetTimeout delay ∈ callsMade (automaticallyDelete elapsed) w ->
  geZero delay = true.
Proof.
  intros Hin.
  destruct (disposed w) eqn:Hd;
    [rewrite (callsMade_same (automaticallyDelete elapsed) w) in Hin
       by (unfold exec; rewrite automaticallyDelete_held; auto);
     inversion Hin|].
  destruct (truthy (configured w "linenote.automaticallyDelete")) eqn:He;
    [|rewrite (callsMade_same (automaticallyDelete elapsed) w) in Hin
        by (unfold exec; rewrite automaticallyDelete_held; auto);
      inversion Hin].
  destruct (nonNegativeNumber
              (configured w "linenote.automaticallyDeleteInterval")) eqn:Hi;
    [|rewrite (callsMade_same (automaticallyDelete elapsed) w) in Hin
        by (unfold exec; rewrite automaticallyDelete_held; auto);
      inversion Hin].
  destruct (configured w "linenote.automaticallyDeleteInterval")
    as [| | |n| |] eqn:Hcfg; try discriminate.
  destruct (automaticallyDelete_enabled w elapsed n Hd He Hcfg Hi) as (_ & Hc & _).
  rewrite (callsMade_app _ _ _ Hc) in Hin.
  apply elem_of_cons in Hin as [Hin | Hin]; [discriminate|].
  apply elem_of_cons in Hin as [Hin | Hin]; [|inversion Hin].
  injection Hin as ->. simpl in Hi.
  destruct n as [|[|]|z]; try discriminate; simpl; [reflexivity|].
  apply geZero_mathMax0_toNumber.
Qed.

(** ** Revealing lines *)

Lemma lineAt_legal (doc : TextDocument) (n : Z) :
  (0 <= n < Z.of_nat (length (text doc)))%Z ->
  exists t,
    text doc !! Z.to_nat n = Some t
    /\ lineAt doc n
       = Some (mkSelection (mkPosition (Z.to_nat n) 0)
                           (mkPosition (Z.to_nat n) (length t))).
Proof.
  intros [H0 Hn]. unfold lineAt.
  rewrite (proj2 (Z.leb_le 0 n) H0), (proj2 (Z.ltb_lt _ _) Hn). cbn [andb].
  destruct (lookup_lt_is_Some_2 (text doc) (Z.to_nat n)) as [t Ht]; [lia|].
  exists t. unfold jsString in *. rewrite Ht. split; reflexivity.
Qed.

Lemma lineAt_illegal (doc : TextDocument) (n : Z) :
  ~ (0 <= n < Z.of_nat (length (text doc)))%Z -> lineAt doc n = None.
Proof.
  intros H. unfold lineAt.
  destruct (0 <=? n)%Z eqn:H0; [|reflexivity].
  destruct (n <? Z.of_nat (length (text doc)))%Z eqn:Hn; [|reflexivity].
  apply Z.leb_le in H0. apply Z.ltb_lt in Hn. lia.
Qed.

(** A range from the start of a line to a later or the same line is kept
    as it is given. *)
Lemma mkRange_lines (a b c : nat) :
  (a <= b)%nat ->
  mkRange (mkPosition a 0) (mkPosition b c)
  = mkSelection (mkPosition a 0) (mkPosition b c).
Proof.
  intros Hab. unfold mkRange, isBeforeOrEqual. simpl.
  destruct (a <? b)%nat eqn:Hlt; [reflexivity|].
  apply Nat.ltb_ge in Hlt. assert (a = b) by lia. subst.
  rewrite Nat.eqb_refl. reflexivity.
Qed.

(** What [linenote.revealLine] does in an editor, once the document it may
    have to open is there. *)
Lemma revealLine_run (path : string) (from to : Z) (x : Extension)
    (editor : TextEditor) :
  activeTextEditor (world x) = Some editor ->
  fsPath (document editor) = path \/ is_Some (files (world x) !! path) ->
  let x1 := hostCall (HostConsoleLog path) x in
  let x2 := if String.eqb (fsPath (document editor)) path then x1
            else hostCall (HostOpenTextDocument path) x1 in
  revealLine path from to x
  = match lineAt (document editor) (from - 1), lineAt (document editor) (to - 1) with
    | Some first, Some last =>
        (Fulfilled,
         showTextDocument (document editor) (mkRange (start first) (end_ last)) x2)
    | _, _ => (RejectedIllegalLine, x2)
    end.
Proof.
  intros Hed Hopen x1 x2. subst x1 x2. unfold revealLine. simpl.
  rewrite Hed.
  destruct (String.eqb_spec (fsPath (document editor)) path) as [E | Hne]; simpl.
  - destruct (lineAt _ (from - 1)); [|reflexivity].
    destruct (lineAt _ (to - 1)); reflexivity.
  - destruct Hopen as [E | Hex]; [congruence|].
    rewrite (bool_decide_eq_true_2 _ Hex). simpl.
    destruct (lineAt _ (from - 1)); [|reflexivity].
    destruct (lineAt _ (to - 1)); reflexivity.
Qed.

(** X10. Revealing the line range of a selection selects the same lines
    again: for a selection inside the document of the active editor,
    [linenote.revealLine] with that document's path and the range of
    [getSelectionLineRange] is fulfilled without opening any document; the
    selection it applies runs from the start of the first selected line to
    the end of the last one, and [getSelectionLineRange] gives the same
    range for it. *)
Theorem revealLine_of_selection_range (x : Extension) (editor : TextEditor) :
  activeTextEditor (world x) = Some editor ->
  isBeforeOrEqual (start (selection editor)) (end_ (selection editor)) = true ->
  (line (end_ (selection editor)) < length (text (document editor)))%nat ->
  let '(from, to) := getSelectionLineRange editor in
  exists range lastLine,
    revealLine (fsPath (document editor)) (Z.of_nat from) (Z.of_nat to) x
    = (Fulfilled,
       showTextDocument (document editor) range
         (hostCall (HostConsoleLog (fsPath (document editor))) x))
    /\ text (document editor) !! line (end_ (selection editor)) = Some lastLine
    /\ start range = mkPosition (line (start (selection editor))) 0
    /\ end_ range = mkPosition (line (end_ (selection editor))) (length lastLine)
    /\ getSelectionLineRange (mkTextEditor (document editor) range) = (from, to).
Proof.
  intros Hed Hsel Hlen. unfold getSelectionLineRange.
  apply isBeforeOrEqual_line in Hsel.
  set (a := line (start (selection editor))) in *.
  set (b := line (end_ (selection editor))) in *.
  pose proof (revealLine_run (fsPath (document editor))
                (Z.of_nat (a + 1)) (Z.of_nat (b + 1)) x editor Hed
                (or_introl eq_refl)) as Hrun.
  cbv zeta in Hrun. rewrite String.eqb_refl in Hrun.
  destruct (lineAt_legal (document editor) (Z.of_nat (a + 1) - 1))
    as (ta & Hta & Hla); [lia|].
  destruct (lineAt_legal (document editor) (Z.of_nat (b + 1) - 1))
    as (tb & Htb & Hlb); [lia|].
  replace (Z.to_nat (Z.of_nat (a + 1) - 1)) with a in * by lia.
  replace (Z.to_nat (Z.of_nat (b + 1) - 1)) with b in * by lia.
  rewrite Hla, Hlb in Hrun. simpl in Hrun.
  assert (Hrange : mkRange (mkPosition a 0) (mkPosition b (length tb))
                   = mkSelection (mkPosition a 0) (mkPosition b (length tb))).
  { apply mkRange_lines. exact Hsel. }
  rewrite Hrange in Hrun.
  exists (mkSelection (mkPosition a 0) (mkPosition b (length tb))), tb.
  split; [exact Hrun|]. repeat split; auto.
Qed.

(** X11. [linenote.revealLine] always reveals the document of the active
    editor.  When its [fsPath] argument names another file, that file is
    opened, but the lines are looked up in the active document and it is
    the active document that is shown, with its path unchanged. *)
Theorem revealLine_shows_active_document (path : string) (from to : Z)
    (x : Extension) (editor : TextEditor) :
  activeTextEditor (world x) = Some editor ->
  fsPath (document editor) <> path ->
  is_Some (files (world x) !! path) ->
  (1 <= from <= Z.of_nat (length (text (document editor))))%Z ->
  (1 <= to <= Z.of_nat (length (text (document editor))))%Z ->
  exists range,
    (revealLine path from to x).1 = Fulfilled
    /\ hostCalls (revealLine path from to x).2
       = (hostCalls x ++ [HostConsoleLog path; HostOpenTextDocument path;
                         HostShowTextDocument (document editor) range])%list
    /\ activeTextEditor (world (revealLine path from to x).2)
       = Some (mkTextEditor (document editor) range)
    /\ files (world (revealLine path from to x).2) = files (world x).
Proof.
  intros Hed Hne Hex Hfrom Hto.
  rewrite (revealLine_run path from to x editor Hed (or_intror Hex)).
  cbv zeta. rewrite (proj2 (String.eqb_neq _ _) Hne).
  destruct (lineAt_legal (document editor) (from - 1)) as (ta & _ & ->); [lia|].
  destruct (lineAt_legal (document editor) (to - 1)) as (tb & _ & ->); [lia|].
  eexists. simpl. rewrite <- !app_assoc. repeat split; reflexivity.
Qed.

(** X12. [linenote.revealLine] shows a range only when both lines exist in
    the active document: it is fulfilled exactly when [from] and [to] lie
    between 1 and the number of lines; otherwise it is rejected, no
    document is shown and the editor is left as it was. *)
Theorem revealLine_needs_existing_lines (from to : Z) (x : Extension)
    (editor : TextEditor) :
  activeTextEditor (world x) = Some editor ->
  let path := fsPath (document editor) in
  let lines := Z.of_nat (length (text (document editor))) in
  ((revealLine path from to x).1 = Fulfilled
   <-> (1 <= from <= lines)%Z /\ (1 <= to <= lines)%Z)
  /\ ((revealLine path from to x).1 <> Fulfilled ->
      revealLine path from to x
      = (RejectedIllegalLine, hostCall (HostConsoleLog path) x)).
Proof.
  intros Hed path lines. subst path lines.
  rewrite (revealLine_run _ from to x editor Hed (or_introl eq_refl)).
  cbv zeta. rewrite String.eqb_refl.
  destruct (Z_le_dec 1 from) as [Hf1|Hf1];
    [destruct (Z_le_dec from (Z.of_nat (length (text (document editor)))))
       as [Hf2|Hf2]|].
  - destruct (lineAt_legal (document editor) (from - 1)) as (ta & _ & ->); [lia|].
    destruct (Z_le_dec 1 to) as [Ht1|Ht1];
      [destruct (Z_le_dec to (Z.of_nat (length (text (document editor)))))
         as [Ht2|Ht2]|].
    + destruct (lineAt_legal (document editor) (to - 1)) as (tb & _ & ->); [lia|].
      simpl. split; [tauto | congruence].
    + rewrite (lineAt_illegal (document editor) (to - 1)) by lia. simpl.
      split; [split; [discriminate | lia] | reflexivity].
    + rewrite (lineAt_illegal (document editor) (to - 1)) by lia. simpl.
      split; [split; [discriminate | lia] | reflexivity].
  - rewrite (lineAt_illegal (document editor) (from - 1)) by lia. simpl.
    split; [split; [discriminate | lia] | reflexivity].
  - rewrite (lineAt_illegal (document editor) (from - 1)) by lia. simpl.
    split; [split; [discriminate | lia] | reflexivity].
Qed.

(** ** Commands without an editor *)

(** X13. With no active editor the commands that work on the selection do
    nothing: [linenote.addNote], and [linenote.openNote] and
    [linenote.removeNote] without a path, leave the world as it is, and
    [linenote.revealLine] only logs its path. *)
Theorem commands_need_an_editor (x : Extension) (fresh : nat)
    (arg : option string) (path : string) (from to : Z) :
  activeTextEditor (world x) = None ->
  givenPath arg = None ->
  run (addNote fresh) (world x) = (Returned tt, world x)
  /\ run (openNote arg) (world x) = (Returned tt, world x)
  /\ run (removeNote arg) (world x) = (Returned tt, world x)
  /\ revealLine path from to x = (Fulfilled, hostCall (HostConsoleLog path) x).
Proof.
  intros Hed Harg. unfold addNote, openNote, removeNote, revealLine.
  run_step. simpl. rewrite Hed, Harg. repeat split; reflexivity.
Qed.

(** ** The parts of the extension a function leaves alone *)

Lemma watch_world x : world (watch x) = world x.
Proof.
  unfold watch. destruct (unwatch x) as [[id s]|]; cbn -[PathCodec.isNotePath];
    destruct (disposed (world x)); try reflexivity;
    destruct (activeTextEditor (world x)); reflexivity.
Qed.

Lemma watch_timers x :
  sweepTimer (watch x) = sweepTimer x /\ decorateTimer (watch x) = decorateTimer x.
Proof.
  unfold watch. destruct (unwatch x) as [[id s]|]; cbn -[PathCodec.isNotePath];
    destruct (disposed (world x)); try (split; reflexivity);
    destruct (activeTextEditor (world x)); split; reflexivity.
Qed.

Lemma continueWatch_frame k x :
  world (continueWatch k x) = world x
  /\ sweepTimer (continueWatch k x) = sweepTimer x
  /\ decorateTimer (continueWatch k x) = decorateTimer x.
Proof.
  unfold continueWatch. destruct (watchRuns x !! k) as [[p [|]|id p]|];
    repeat split; reflexivity.
Qed.

(** [linenote.revealLine] changes at most the editor, and calls neither
    the watcher nor a timer. *)
Lemma revealLine_frame path from to x :
  let x' := (revealLine path from to x).2 in
  unwatch x' = unwatch x
  /\ watchRuns x' = watchRuns x
  /\ watchers x' = watchers x
  /\ sweepTimer x' = sweepTimer x
  /\ decorateTimer x' = decorateTimer x
  /\ (world x' = world x
      \/ exists e, world x' = setActiveTextEditor e (world x))
  /\ exists new, hostCalls x' = (hostCalls x ++ new)%list
                 /\ forallb (fun c => negb (watchCall c)) new = true.
Proof.
  unfold revealLine. simpl.
  destruct (activeTextEditor (world x)) as [editor|]; simpl.
  - destruct (String.eqb (fsPath (document editor)) path); simpl.
    + destruct (lineAt _ (from - 1)); [destruct (lineAt _ (to - 1))|]; simpl;
        repeat split; eauto;
        eexists; (split; [rewrite <- ?app_assoc; reflexivity | reflexivity]).
    + destruct (bool_decide (is_Some (files (world x) !! path))); simpl;
        [destruct (lineAt _ (from - 1)); [destruct (lineAt _ (to - 1))|]|];
        simpl; repeat split; eauto;
        eexists; (split; [rewrite <- ?app_assoc; reflexivity | reflexivity]).
  - repeat split; eauto.
Qed.

Lemma onDidChangeConfiguration_frame affects x :
  let x' := onDidChangeConfiguration affects x in
  world x' = world x /\ unwatch x' = unwatch x
  /\ watchRuns x' = watchRuns x /\ watchers x' = watchers x
  /\ sweepTimer x' = sweepTimer x /\ decorateTimer x' = decorateTimer x
  /\ exists new, hostCalls x' = (hostCalls x ++ new)%list
                 /\ forallb (fun c => negb (watchCall c)) new = true.
Proof.
  unfold onDidChangeConfiguration.
  destruct (affects _ || affects _); simpl; repeat split.
  - eexists. split; [rewrite <- app_assoc; reflexivity | reflexivity].
  - exists []. split; [now rewrite app_nil_r | reflexivity].
Qed.

Lemma callsGrow_refl allowed w : callsGrow allowed w w.
Proof. exists []. split; [now rewrite app_nil_r | reflexivity]. Qed.

Lemma callsGrow_trans allowed a b c :
  callsGrow allowed a b -> callsGrow allowed b c -> callsGrow allowed a c.
Proof.
  intros (n1 & H1 & A1) (n2 & H2 & A2). exists (n1 ++ n2)%list.
  split; [rewrite H2, H1; now rewrite app_assoc|].
  rewrite forallb_app, A1, A2. reflexivity.
Qed.

Lemma callsGrow_record (allowed : Call -> bool) c w :
  allowed c = true -> callsGrow allowed w (record c w).
Proof. intros H. exists [c]. split; [reflexivity | simpl; now rewrite H]. Qed.

Lemma callsGrow_same (allowed : Call -> bool) w w' :
  calls w' = calls w -> callsGrow allowed w w'.
Proof. intros H. exists []. split; [now rewrite app_nil_r | reflexivity]. Qed.

(** ** What the handlers leave alone *)

Section Respects.
Variable R : World -> World -> Prop.
Variable allowed : Call -> bool.
Hypothesis R_refl : forall w, R w w.
Hypothesis R_trans : forall a b c, R a b -> R b c -> R a c.
Hypothesis R_record : forall c w, allowed c = true -> R w (record c w).
Hypothesis R_setFiles : forall f w, R w (setFiles f w).
Hypothesis R_setNow : forall t w, R w (setNow t w).

Lemma respects_ret {A} (a : A) : respects R (mret a).
Proof. intros w. apply R_refl. Qed.

Lemma respects_gets {A} (f : World -> A) : respects R (gets f).
Proof. intros w. apply R_refl. Qed.

Lemma respects_throw {A} (e : Error) : respects R (@throw A e).
Proof. intros w. apply R_refl. Qed.

Lemma respects_modify (f : World -> World) :
  (forall w, R w (f w)) -> respects R (modify f).
Proof. intros H w. apply H. Qed.

Lemma respects_bind {A B} (m : Async A) (k : A -> Async B) :
  respects R m -> (forall a, respects R (k a)) -> respects R (m ≫= k).
Proof.
  intros Hm Hk w. unfold exec. rewrite run_bind.
  specialize (Hm w). unfold exec in Hm.
  destruct (run m w) as [[a|e] w']; simpl in *; [|exact Hm].
  eapply R_trans; [exact Hm | apply Hk].
Qed.

Lemma respects_forEach {A} (f : A -> Async unit) (xs : list A) :
  (forall x, respects R (f x)) -> respects R (forEach f xs).
Proof.
  intros Hf. induction xs as [|x xs IH]; [apply respects_ret|].
  apply respects_bind; [apply Hf | intros _; exact IH].
Qed.

Lemma respects_getConfiguration key : respects R (getConfiguration key).
Proof. intros w. apply R_refl. Qed.

Ltac respects_step :=
  first
    [ apply respects_ret | apply respects_gets | apply respects_throw
    | apply respects_getConfiguration
    | apply respects_forEach; intros ?
    | apply respects_modify; intros ?;
      first [ apply R_setFiles | apply R_setNow
            | apply R_record; auto; reflexivity ]
    | apply respects_bind; [|intros ?]
    | match goal with
      | |- respects _ (match ?x with _ => _ end) => destruct x
      end ].

Ltac respects_tac := repeat respects_step.

Hypothesis allowed_note : forall c, sweepCall c = false -> allowed c = true.

Lemma respects_decorateDebounce : respects R decorateDebounce.
Proof. unfold decorateDebounce. respects_tac. Qed.

Lemma respects_open n : respects R (NoteOps.open n).
Proof. unfold NoteOps.open. respects_tac. Qed.

Lemma respects_remove n : respects R (NoteOps.remove n).
Proof. unfold NoteOps.remove. respects_tac. Qed.

Lemma respects_fromNotePath p : respects R (NoteOps.fromNotePath p).
Proof. unfold NoteOps.fromNotePath. respects_tac. Qed.

Lemma respects_onDidChangeTextDocument event :
  respects R (onDidChangeTextDocument event).
Proof.
  unfold onDidChangeTextDocument. respects_tac; apply respects_decorateDebounce.
Qed.

Lemma respects_onDidCloseTextDocument event :
  respects R (onDidCloseTextDocument event).
Proof.
  unfold onDidCloseTextDocument, isNotePath, NoteOps.read.
  respects_tac; first [apply respects_fromNotePath | apply respects_remove].
Qed.

Lemma respects_addNote fresh : respects R (addNote fresh).
Proof.
  unfold addNote, isNotePath, NoteOps.fromFsPath, NoteOps.noteExists,
    NoteOps.write.
  respects_tac; apply respects_open.
Qed.

Lemma respects_openNote arg : respects R (openNote arg).
Proof.
  unfold openNote, isNotePath, getCorrespondingNotes.
  respects_tac;
    first [apply respects_fromNotePath | apply respects_open].
Qed.

Lemma respects_removeNote arg : respects R (removeNote arg).
Proof.
  unfold removeNote, isNotePath, getCorrespondingNotes.
  respects_tac;
    first [apply respects_fromNotePath | apply respects_remove
          | apply respects_decorateDebounce].
Qed.

Lemma respects_automaticallyDelete elapsed :
  (forall c, allowed c = true) ->
  respects R (automaticallyDelete elapsed).
Proof.
  intros Hall.
  unfold automaticallyDelete, removeNotCorrespondingNotes, dateNow, setTimeout.
  respects_tac; apply respects_modify; intros ?; apply R_record; apply Hall.
Qed.

Hypothesis R_editor : forall e w, R w (setActiveTextEditor e w).

(** The handler registered for an event stays within [R]. *)
Lemma respects_subscription ev x : R (world x) (world (subscription ev x)).
Proof.
  destruct ev; simpl; try apply R_refl.
  - unfold onDidChangeActiveTextEditor. destruct editor; [|apply R_refl].
    simpl. rewrite <- (watch_world x) at 1. apply respects_decorateDebounce.
  - apply respects_onDidChangeTextDocument.
  - apply respects_onDidCloseTextDocument.
  - destruct (onDidChangeConfiguration_frame affects x) as (-> & _). apply R_refl.
  - apply respects_addNote.
  - apply respects_openNote.
  - apply respects_removeNote.
  - destruct (revealLine_frame path from to x)
      as (_ & _ & _ & _ & _ & [-> | [e ->]] & _);
      [apply R_refl | apply R_editor].
Qed.

End Respects.

(** ** A session of the extension *)

Lemma hostUpdate_frame ev w :
  notesRoot (hostUpdate ev w) = notesRoot w
  /\ calls (hostUpdate ev w) = calls w
  /\ disposed (hostUpdate ev w) = disposed w.
Proof.
  destruct ev; simpl; try (repeat split; reflexivity);
    destruct (activeTextEditor w) as [editor|]; try (repeat split; reflexivity).
  destruct (sameDocument _ _); repeat split; reflexivity.
Qed.

Lemma subscription_calls ev x :
  callsGrow notSweep (world x) (world (subscription ev x)).
Proof.
  apply (respects_subscription (callsGrow notSweep) notSweep);
    first
      [ exact (callsGrow_refl notSweep)
      | exact (callsGrow_trans notSweep)
      | exact (callsGrow_record notSweep)
      | intros c Hc; unfold notSweep; rewrite Hc; reflexivity
      | intros; apply callsGrow_same; reflexivity ].
Qed.

Lemma subscription_root ev x : sameRoot (world x) (world (subscription ev x)).
Proof.
  apply (respects_subscription sameRoot (fun _ => true)); unfold sameRoot;
    try reflexivity; intros; simpl; congruence.
Qed.

Lemma subscription_sweepTimer ev x :
  sweepTimer (subscription ev x) = sweepTimer x.
Proof.
  destruct ev; simpl; try reflexivity.
  - unfold onDidChangeActiveTextEditor. destruct editor; [|reflexivity].
    simpl. apply watch_timers.
  - apply onDidChangeConfiguration_frame.
  - apply revealLine_frame.
Qed.

(** An event served by a subscription, with the sweep loop stopped. *)
Lemma served_without_timer ev x :
  sweepTimer x = None ->
  let x1 := setWorld (hostUpdate ev (world x)) x in
  let x2 := if disposed (world x1) then x1 else subscription ev x1 in
  sweepTimer x2 = None /\ callsGrow notSweep (world x) (world x2).
Proof.
  intros Hnone x1 x2. subst x1 x2.
  destruct (hostUpdate_frame ev (world x)) as (_ & Hcalls & _).
  destruct (disposed _).
  - split; [exact Hnone | now apply callsGrow_same].
  - rewrite subscription_sweepTimer. split; [exact Hnone|].
    eapply callsGrow_trans; [|apply subscription_calls].
    now apply callsGrow_same.
Qed.

Lemma step_without_timer x ev :
  sweepTimer x = None ->
  sweepTimer (step x ev) = None /\ callsGrow notSweep (world x) (world (step x ev)).
Proof.
  intros Hnone.
  destruct ev;
    try (exact (served_without_timer _ x Hnone)); unfold step.
  - destruct (continueWatch_frame k x) as (-> & -> & _).
    split; [exact Hnone | apply callsGrow_refl].
  - rewrite Hnone. split; [exact Hnone | apply callsGrow_refl].
  - rewrite Hnone. split; [exact Hnone | apply callsGrow_refl].
  - unfold debouncedDecorate. destruct (decorateTimer x); simpl;
      [destruct (disposed (world x)); simpl|];
      (split; [exact Hnone | apply callsGrow_refl]).
  - destruct (liveWatchers (hostCalls x) []); simpl;
      [split; [exact Hnone | apply callsGrow_refl]|].
    split; [exact Hnone|].
    apply callsGrow_record. reflexivity.
  - simpl. split; [exact Hnone | now apply callsGrow_same].
Qed.

(** X14. Once an iteration of [automaticallyDelete] has ended without a
    successor, the sweep does not come back in that session: with no sweep
    timer running, whatever follows (commands, edits, closed documents,
    changes of the configuration that switch the sweep on, timers) neither
    sweeps nor starts a sweep timer.  The configuration handler does not
    restart what [automaticallyDelete] stopped. *)
Theorem sweep_never_resumes (x : Extension) (evs : list Event) :
  sweepTimer x = None ->
  sweepTimer (steps x evs) = None
  /\ callsGrow notSweep (world x) (world (steps x evs)).
Proof.
  revert x. induction evs as [|ev evs IH]; intros x Hnone; simpl.
  - split; [exact Hnone | apply callsGrow_refl].
  - destruct (step_without_timer x ev Hnone) as [Hstep Hgrow].
    destruct (IH (step x ev) Hstep) as [Hrest Hgrow'].
    split; [exact Hrest|].
    eapply callsGrow_trans; eassumption.
Qed.

(** ** The two halves of [automaticallyDelete] *)

Lemma sweepBegin_run w :
  run sweepBegin w =
  if disposed w then (Returned None, w)
  else if truthy (configured w "linenote.automaticallyDelete") then
    match configured w "linenote.automaticallyDeleteInterval" with
    | VNumber interval =>
        if geZero interval
        then (Returned (Some (now w, interval)),
              record CallRemoveNotCorrespondingNotes w)
        else (Returned None, w)
    | _ => (Returned None, w)
    end
  else (Returned None, w).
Proof.
  unfold sweepBegin. cbn -[truthy geZero configured].
  destruct (disposed w); [reflexivity|]. cbn -[truthy geZero configured].
  destruct (truthy _); [|reflexivity]. cbn -[truthy geZero configured].
  destruct (configured w "linenote.automaticallyDeleteInterval");
    try reflexivity.
  destruct (geZero _); reflexivity.
Qed.

(** The two halves, one after the other, are [automaticallyDelete]. *)
Lemma automaticallyDelete_halves elapsed w :
  run (automaticallyDelete elapsed) w =
  match run sweepBegin w with
  | (Returned (Some (start, interval)), w') =>
      run (sweepEnd elapsed start interval) w'
  | (_, w') => (Returned tt, w')
  end.
Proof.
  rewrite sweepBegin_run.
  unfold automaticallyDelete, sweepEnd, removeNotCorrespondingNotes.
  cbn -[truthy geZero configured mathMax0 numSub roundInteger].
  destruct (disposed w); [reflexivity|].
  cbn -[truthy geZero configured mathMax0 numSub roundInteger].
  destruct (truthy _); [|reflexivity].
  cbn -[truthy geZero configured mathMax0 numSub roundInteger].
  destruct (configured w "linenote.automaticallyDeleteInterval");
    try reflexivity.
  destruct (geZero _); reflexivity.
Qed.

Lemma startSweep_world x :
  sameHost (world x) (world (startSweep x))
  /\ files (world (startSweep x)) = files (world x).
Proof.
  unfold startSweep. rewrite sweepBegin_run. unfold sameHost.
  destruct (disposed (world x)) eqn:Hd; [cbn; now rewrite Hd|].
  destruct (truthy (configured (world x) "linenote.automaticallyDelete"));
    [|cbn; now rewrite Hd].
  destruct (configured (world x) "linenote.automaticallyDeleteInterval")
    as [| | |interval| |]; try (cbn; now rewrite Hd).
  destruct (geZero interval); cbn; now rewrite Hd.
Qed.

Lemma finishSweep_world elapsed start interval x :
  sameHost (world x) (world (finishSweep elapsed start interval x)).
Proof. repeat split. Qed.

Lemma activate_without_sweep w :
  truthy (configured w "linenote.automaticallyDelete") = false ->
  sweepTimer (activate w) = None.
Proof.
  intros Hoff. unfold activate, startSweep. rewrite sweepBegin_run.
  rewrite watch_world.
  change (configured (world (liftAsync decorateDebounce _)) ?k)
    with (configured w k).
  rewrite Hoff. now destruct (disposed _).
Qed.

(** ** The watchers *)

Lemma liveWatchers_app cs cs' live :
  liveWatchers (cs ++ cs') live = liveWatchers cs' (liveWatchers cs live).
Proof.
  revert live. induction cs as [|c cs IH]; intros live; [reflexivity|].
  destruct c; simpl; apply IH.
Qed.

Lemma liveWatchers_other new live :
  Forall (fun c => watchCall c = false) new -> liveWatchers new live = live.
Proof.
  intros H. revert live.
  induction H as [|c new Hc _ IH]; intros live; [reflexivity|].
  destruct c; simpl in *; try discriminate; apply IH.
Qed.

Lemma watchFrame_refl x : watchFrame x x.
Proof.
  repeat split. exists []. split; [now rewrite app_nil_r | constructor].
Qed.

Lemma watchFrame_trans x y z : watchFrame x y -> watchFrame y z -> watchFrame x z.
Proof.
  intros (U1 & R1 & W1 & n1 & H1 & F1) (U2 & R2 & W2 & n2 & H2 & F2).
  repeat split; try congruence.
  exists (n1 ++ n2)%list. split; [rewrite H2, H1; now rewrite app_assoc|].
  now apply Forall_app.
Qed.

Lemma watchFrame_same x x' :
  unwatch x' = unwatch x -> watchRuns x' = watchRuns x ->
  watchers x' = watchers x -> hostCalls x' = hostCalls x ->
  watchFrame x x'.
Proof.
  intros U R W H. repeat split; try assumption.
  exists []. split; [now rewrite app_nil_r | constructor].
Qed.

Lemma watchFrame_live x x' :
  watchFrame x x' ->
  liveWatchers (hostCalls x') [] = liveWatchers (hostCalls x) [].
Proof.
  intros (_ & _ & _ & new & -> & F).
  rewrite liveWatchers_app. now apply liveWatchers_other.
Qed.

Lemma watchFrame_liftAsync {A} (m : Async A) x : watchFrame x (liftAsync m x).
Proof. now apply watchFrame_same. Qed.

Lemma watchFrame_setWorld w x : watchFrame x (setWorld w x).
Proof. now apply watchFrame_same. Qed.

Lemma watchFrame_startSweep x : watchFrame x (startSweep x).
Proof.
  unfold startSweep.
  destruct (run sweepBegin (world x)) as [[[[s i]|]|] w'];
    now apply watchFrame_same.
Qed.

Lemma watchFrame_finishSweep elapsed start interval x :
  watchFrame x (finishSweep elapsed start interval x).
Proof. now apply watchFrame_same. Qed.

Lemma watchFrame_debouncedDecorate x : watchFrame x (debouncedDecorate x).
Proof.
  unfold debouncedDecorate. destruct (disposed (world x));
    [apply watchFrame_refl|].
  repeat split. exists [HostDecorate]. split; [reflexivity|].
  repeat constructor.
Qed.

Lemma forallb_Forall_other new :
  forallb (fun c => negb (watchCall c)) new = true ->
  Forall (fun c => watchCall c = false) new.
Proof.
  intros H. apply Forall_forall. intros c Hc.
  rewrite forallb_forall in H. apply list_elem_of_In in Hc.
  specialize (H c Hc). now destruct (watchCall c).
Qed.

(** Every subscription but that of the active editor leaves the watchers
    alone. *)
Lemma watchFrame_subscription ev x :
  (forall e, ev <> ActiveTextEditorChanged (Some e)) ->
  watchFrame x (subscription ev x).
Proof.
  intros Hev. destruct ev; simpl; try apply watchFrame_refl;
    try apply watchFrame_liftAsync.
  - destruct editor as [e|]; [now destruct (Hev e)|]. apply watchFrame_refl.
  - destruct (onDidChangeConfiguration_frame affects x)
      as (_ & U & R & W & _ & _ & new & H & F).
    repeat split; try assumption. exists new. split; [exact H|].
    now apply forallb_Forall_other.
  - destruct (revealLine_frame path from to x)
      as (U & R & W & _ & _ & _ & new & H & F).
    repeat split; try assumption. exists new. split; [exact H|].
    now apply forallb_Forall_other.
Qed.

(** An event continues a run of [watch], starts one, or leaves the
    watchers alone. *)
Lemma step_cases x ev :
  watchFrame x (step x ev)
  \/ (exists k, ev = WatchContinued k)
  \/ (exists e, ev = ActiveTextEditorChanged (Some e)
               /\ disposed (world x) = false
               /\ step x ev
                  = liftAsync decorateDebounce
                      (watch (setWorld (setActiveTextEditor (Some e) (world x)) x))).
Proof.
  assert (Hserved : (forall e, ev <> ActiveTextEditorChanged (Some e)) ->
    watchFrame x
      (let x1 := setWorld (hostUpdate ev (world x)) x in
       if disposed (world x1) then x1 else subscription ev x1)).
  { intros Hev. cbn zeta. destruct (disposed _).
    - apply watchFrame_setWorld.
    - eapply watchFrame_trans; [apply watchFrame_setWorld|].
      now apply watchFrame_subscription. }
  destruct ev as [[e|]| | | | | | | | | |k| | | | |];
    try (left; apply Hserved; discriminate).
  - destruct (disposed (world x)) eqn:Hd.
    + left. unfold step. cbn. rewrite Hd. apply watchFrame_setWorld.
    + right. right. exists e. split; [reflexivity|]. split; [reflexivity|].
      unfold step. cbn -[watch liftAsync]. rewrite Hd. reflexivity.
  - right. left. now exists k.
  - left. unfold step. destruct (sweepTimer x) as [[d|s i]|];
      first [apply watchFrame_refl | apply watchFrame_startSweep].
  - left. unfold step. destruct (sweepTimer x) as [[d|s i]|];
      first [apply watchFrame_refl | apply watchFrame_finishSweep].
  - left. unfold step. destruct (decorateTimer x); [|apply watchFrame_refl].
    eapply watchFrame_trans; [|apply watchFrame_debouncedDecorate].
    now apply watchFrame_same.
  - left. unfold step. destruct (liveWatchers _ _);
      [apply watchFrame_refl | apply watchFrame_liftAsync].
  - left. apply watchFrame_setWorld.
Qed.

(** A call of [watch()]: the handle held is released, and a run is in
    flight when the extension is not disposed of and an editor is active. *)
Lemma watch_effect x :
  unwatch (watch x) = None
  /\ watchers (watch x) = watchers x
  /\ hostCalls (watch x)
     = (hostCalls x
        ++ match unwatch x with
           | Some (id, _) => [HostUnwatch id]
           | None => []
           end)%list
  /\ watchRuns (watch x)
     = (watchRuns x
        ++ if disposed (world x) then []
           else match activeTextEditor (world x) with
                | Some editor =>
                    [AwaitingIsNotePath (fsPath (document editor))
                       (PathCodec.isNotePath (notesRoot (world x))
                          (fsPath (document editor)))]
                | None => []
                end)%list.
Proof.
  unfold watch.
  destruct (unwatch x) as [[id s]|] eqn:Hu; cbn -[PathCodec.isNotePath];
    destruct (disposed (world x)); cbn -[PathCodec.isNotePath];
    try destruct (activeTextEditor (world x)); cbn -[PathCodec.isNotePath];
    rewrite ?app_nil_r; auto.
Qed.

Lemma continueWatch_idle k x :
  watchRuns x !! k = None -> continueWatch k x = x.
Proof. intros H. unfold continueWatch. now rewrite H. Qed.

Lemma continueWatch_note k x p :
  watchRuns x !! k = Some (AwaitingIsNotePath p true) ->
  continueWatch k x = setWatchRuns (delete k (watchRuns x)) x.
Proof. intros H. unfold continueWatch. now rewrite H. Qed.

Lemma continueWatch_source k x p :
  watchRuns x !! k = Some (AwaitingIsNotePath p false) ->
  continueWatch k x
  = mkExtension (world x) (unwatch x)
      (<[k := AwaitingWatcher (watchers x) p]> (watchRuns x))
      (S (watchers x)) (sweepTimer x) (decorateTimer x)
      (hostCalls x ++ [HostWatch (watchers x) p]).
Proof. intros H. unfold continueWatch. now rewrite H. Qed.

Lemma continueWatch_handle k x id p :
  watchRuns x !! k = Some (AwaitingWatcher id p) ->
  continueWatch k x
  = mkExtension (world x) (Some (id, p)) (delete k (watchRuns x))
      (watchers x) (sweepTimer x) (decorateTimer x) (hostCalls x).
Proof. intros H. unfold continueWatch. now rewrite H. Qed.

(** The notes root is the same after every event. *)
Lemma step_root x ev : notesRoot (world (step x ev)) = notesRoot (world x).
Proof.
  assert (Hserved : notesRoot (world
      (let x1 := setWorld (hostUpdate ev (world x)) x in
       if disposed (world x1) then x1 else subscription ev x1))
      = notesRoot (world x)).
  { cbn zeta. destruct (hostUpdate_frame ev (world x)) as (Hroot & _ & _).
    destruct (disposed _); [exact Hroot|].
    rewrite subscription_root. exact Hroot. }
  destruct ev; try exact Hserved; unfold step.
  - apply f_equal, continueWatch_frame.
  - destruct (sweepTimer x) as [[d|s i]|]; try reflexivity.
    apply startSweep_world.
  - destruct (sweepTimer x) as [[d|s i]|]; try reflexivity.
  - unfold debouncedDecorate. destruct (decorateTimer x); [|reflexivity].
    cbn. now destruct (disposed (world x)).
  - now destruct (liveWatchers _ _).
  - reflexivity.
Qed.

(** ** Watchers are for source files *)

Lemma watchInvariant_frame root x x' :
  watchInvariant root x -> watchFrame x x' ->
  notesRoot (world x') = notesRoot (world x) ->
  watchInvariant root x'.
Proof.
  intros (Hroot & Hcalls & Hruns) (_ & R & _ & new & H & F) Hroot'.
  split; [congruence|]. split; [|now rewrite R].
  rewrite H. apply Forall_app. split; [exact Hcalls|].
  eapply Forall_impl; [exact F|]. intros c Hc. now destruct c.
Qed.

Lemma watchInvariant_watch root x :
  watchInvariant root x -> watchInvariant root (watch x).
Proof.
  intros (Hroot & Hcalls & Hruns).
  destruct (watch_effect x) as (_ & _ & H & R).
  split; [now rewrite watch_world|]. split.
  - rewrite H. apply Forall_app. split; [exact Hcalls|].
    destruct (unwatch x) as [[id s]|]; repeat constructor.
  - rewrite R. apply Forall_app. split; [exact Hruns|].
    destruct (disposed (world x)); [constructor|].
    destruct (activeTextEditor (world x)); repeat constructor.
    cbn -[PathCodec.isNotePath]. rewrite Hroot. apply Bool.eqb_reflx.
Qed.

Lemma watchInvariant_continueWatch root k x :
  watchInvariant root x -> watchInvariant root (continueWatch k x).
Proof.
  intros (Hroot & Hcalls & Hruns).
  destruct (watchRuns x !! k) as [[p [|]|id p]|] eqn:Hk.
  - rewrite (continueWatch_note k x p Hk).
    split; [exact Hroot|]. split; [exact Hcalls|]. now apply Forall_delete.
  - rewrite (continueWatch_source k x p Hk).
    pose proof (Forall_lookup_1 _ _ _ _ Hruns Hk) as Hanswer.
    cbn -[PathCodec.isNotePath] in Hanswer.
    split; [exact Hroot|]. split.
    + cbn -[PathCodec.isNotePath]. apply Forall_app. split; [exact Hcalls|].
      repeat constructor. cbn -[PathCodec.isNotePath].
      destruct (PathCodec.isNotePath root p); [discriminate | reflexivity].
    + cbn. now apply Forall_insert.
  - rewrite (continueWatch_handle k x id p Hk).
    split; [exact Hroot|]. split; [exact Hcalls|]. now apply Forall_delete.
  - now rewrite (continueWatch_idle k x Hk).
Qed.

Lemma watchInvariant_step root x ev :
  watchInvariant root x -> watchInvariant root (step x ev).
Proof.
  intros Hinv.
  destruct (step_cases x ev) as [Hframe | [[k ->] | (e & -> & Hd & Hstep)]].
  - eapply watchInvariant_frame; [exact Hinv | exact Hframe | apply step_root].
  - now apply watchInvariant_continueWatch.
  - rewrite Hstep.
    eapply watchInvariant_frame;
      [| apply watchFrame_liftAsync | reflexivity].
    apply watchInvariant_watch.
    eapply watchInvariant_frame;
      [exact Hinv | apply watchFrame_setWorld | reflexivity].
Qed.

Lemma watchInvariant_activate w : watchInvariant (notesRoot w) (activate w).
Proof.
  unfold activate.
  eapply watchInvariant_frame;
    [| apply watchFrame_startSweep | apply startSweep_world].
  apply watchInvariant_watch.
  split; [reflexivity|]. split; constructor.
Qed.

(** X15. Whatever the order in which the runs of [watch] and the other
    events of a session interleave, [watchCorrespondingNotes] is only ever
    called for a file that [isNotePath] rejects: no watcher is put on a
    note file. *)
Theorem watchers_are_for_sources (w : World) (evs : list Event)
    (id : nat) (s : string) :
  HostWatch id s ∈ hostCalls (steps (activate w) evs) ->
  PathCodec.isNotePath (notesRoot w) s = false.
Proof.
  assert (Hinv : watchInvariant (notesRoot w) (steps (activate w) evs)).
  { generalize (watchInvariant_activate w). generalize (activate w).
    induction evs as [|ev evs IH]; intros x Hx; [exact Hx|].
    apply IH. now apply watchInvariant_step. }
  destruct Hinv as (_ & Hcalls & _). intros Hin.
  rewrite Forall_forall in Hcalls. specialize (Hcalls _ Hin).
  cbn -[PathCodec.isNotePath] in Hcalls.
  now destruct (PathCodec.isNotePath (notesRoot w) s).
Qed.

(** ** Runs of [watch] that end before the next event *)

Lemma settleWatch_idle x : watchRuns x = [] -> settleWatch x = x.
Proof.
  intros H. unfold settleWatch.
  rewrite (continueWatch_idle 0 x); rewrite ?H; try reflexivity.
  apply continueWatch_idle. now rewrite H.
Qed.

Lemma settleWatch_single x p b :
  watchRuns x = [AwaitingIsNotePath p b] ->
  settleWatch x
  = if b then setWatchRuns [] x
    else mkExtension (world x) (Some (watchers x, p)) [] (S (watchers x))
           (sweepTimer x) (decorateTimer x)
           (hostCalls x ++ [HostWatch (watchers x) p]).
Proof.
  intros H. unfold settleWatch. destruct b.
  - rewrite (continueWatch_note 0 x p); [|now rewrite H].
    rewrite H. apply continueWatch_idle. reflexivity.
  - rewrite (continueWatch_source 0 x p); [|now rewrite H].
    rewrite H. reflexivity.
Qed.

Lemma liftAsync_decorateDebounce x :
  decorateTimer (liftAsync decorateDebounce x) = true.
Proof.
  unfold liftAsync. cbn [decorateTimer setDecorateTimer].
  rewrite (callsMade_app decorateDebounce (world x) [CallDecorateDebounce]);
    [|reflexivity].
  apply orb_true_r.
Qed.

(** The active editor changes to [editor], with no run in flight and the
    extension in use: what [watch()] and [decorateDebounce()] leave once
    the run has ended. *)
Lemma editor_change_settled x editor :
  watchRuns x = [] -> disposed (world x) = false ->
  let p := fsPath (document editor) in
  let note := PathCodec.isNotePath (notesRoot (world x)) p in
  let x' := settleWatch (step x (ActiveTextEditorChanged (Some editor))) in
  unwatch x' = (if note then None else Some (watchers x, p))
  /\ watchRuns x' = []
  /\ hostCalls x'
     = (hostCalls x
        ++ match unwatch x with
           | Some (id, _) => [HostUnwatch id]
           | None => []
           end
        ++ if note then [] else [HostWatch (watchers x) p])%list
  /\ decorateTimer x' = true
  /\ world x'
     = record CallDecorateDebounce
         (setActiveTextEditor (Some editor) (world x)).
Proof.
  intros Hruns Hd p note x'.
  destruct (step_cases x (ActiveTextEditorChanged (Some editor)))
    as [Hframe | [[k Hk] | (e & He & _ & Hstep)]]; [| discriminate Hk |].
  - exfalso. unfold step in Hframe. cbn -[watch liftAsync] in Hframe.
    rewrite Hd in Hframe. destruct Hframe as (_ & R & _).
    cbn -[watch] in R.
    destruct (watch_effect (setWorld (setActiveTextEditor (Some editor) (world x)) x))
      as (_ & _ & _ & R').
    rewrite R' in R. cbn -[PathCodec.isNotePath] in R. rewrite Hd, Hruns in R.
    discriminate R.
  - injection He as <-.
    set (x1 := setWorld (setActiveTextEditor (Some editor) (world x)) x) in *.
    destruct (watch_effect x1) as (U & W & H & R).
    cbn -[PathCodec.isNotePath] in R. rewrite Hd, Hruns in R.
    change (match unwatch x1 with Some (id, _) => [HostUnwatch id] | None => [] end)
      with (match unwatch x with Some (id, _) => [HostUnwatch id] | None => [] end) in H.
    change (hostCalls x1) with (hostCalls x) in H.
    change (watchers x1) with (watchers x) in W.
    subst x'. rewrite Hstep.
    rewrite (settleWatch_single _ p note); [|exact R].
    fold p in R. fold note in R.
    pose proof (liftAsync_decorateDebounce (watch x1)) as Htimer.
    destruct note; cbn -[watch liftAsync];
      rewrite ?Htimer; cbn -[watch]; rewrite ?U, ?W, ?H, ?watch_world;
      rewrite ?app_nil_r, <- ?app_assoc; repeat split.
Qed.

(** X17. The watcher follows the active editor when the run of [watch]
    has the time to end.  With no run in flight and the extension in use,
    a change of the active editor releases the handle that was held and,
    once the run it starts has ended, leaves the extension watching the
    new file when it is a source file and nothing when it is a note; a
    decoration refresh is requested either way.  When the last editor goes
    away the handler does nothing, and the watcher of the file shown
    before stays. *)
Theorem watcher_follows_active_editor (x : Extension) (editor : TextEditor) :
  watchRuns x = [] -> disposed (world x) = false ->
  let p := fsPath (document editor) in
  let note := PathCodec.isNotePath (notesRoot (world x)) p in
  let x' := settleWatch (step x (ActiveTextEditorChanged (Some editor))) in
  unwatch x' = (if note then None else Some (watchers x, p))
  /\ watchRuns x' = []
  /\ hostCalls x'
     = (hostCalls x
        ++ match unwatch x with
           | Some (id, _) => [HostUnwatch id]
           | None => []
           end
        ++ if note then [] else [HostWatch (watchers x) p])%list
  /\ decorateTimer x' = true
  /\ callsMade decorateDebounce (world x) = [CallDecorateDebounce]
  /\ step x (ActiveTextEditorChanged None)
     = setWorld (setActiveTextEditor None (world x)) x.
Proof.
  intros Hruns Hd p note x'.
  destruct (editor_change_settled x editor Hruns Hd) as (U & R & H & T & _).
  split; [exact U|]. split; [exact R|]. split; [exact H|].
  split; [exact T|]. split.
  - now apply callsMade_app.
  - unfold step, subscription, onDidChangeActiveTextEditor.
    cbn [hostUpdate world setWorld disposed setActiveTextEditor].
    now rewrite Hd.
Qed.

Lemma settledInvariant_step x ev :
  settledInvariant x -> settledInvariant (settleWatch (step x ev)).
Proof.
  intros [Hruns Hlive].
  destruct (step_cases x ev) as [Hframe | [[k ->] | (e & -> & Hd & _)]].
  - pose proof (watchFrame_live _ _ Hframe) as Hlive'.
    destruct Hframe as (U & R & _).
    rewrite settleWatch_idle by congruence.
    split; congruence.
  - unfold step. rewrite continueWatch_idle by now rewrite Hruns.
    rewrite settleWatch_idle by exact Hruns. now split.
  - destruct (editor_change_settled x e Hruns Hd) as (U & R & H & _).
    split; [exact R|]. rewrite H, U, !liveWatchers_app, Hlive.
    destruct (unwatch x) as [[id s]|]; cbn -[PathCodec.isNotePath];
      rewrite ?Nat.eqb_refl; now destruct (PathCodec.isNotePath _ _).
Qed.

Lemma settledInvariant_activate w : settledInvariant (settleWatch (activate w)).
Proof.
  unfold activate.
  set (x0 := liftAsync decorateDebounce
               (mkExtension (setDisposed false w) None [] 0 None false [])).
  destruct (watch_effect x0) as (U & W & H & R).
  pose proof (watchFrame_startSweep (watch x0)) as Hframe.
  pose proof (watchFrame_live _ _ Hframe) as Hlive.
  destruct Hframe as (U' & R' & W' & _).
  rewrite H in Hlive. cbn -[watch startSweep] in Hlive.
  rewrite R in R'. cbn -[PathCodec.isNotePath watch startSweep] in R'.
  destruct (activeTextEditor w) as [editor|].
  - rewrite (settleWatch_single _ _ _ R').
    destruct (PathCodec.isNotePath _ _).
    + split; [reflexivity|].
      cbn [hostCalls unwatch setWatchRuns]. rewrite Hlive, U', U. reflexivity.
    + split; [reflexivity|].
      cbn [hostCalls unwatch]. rewrite liveWatchers_app, Hlive. reflexivity.
  - rewrite settleWatch_idle by exact R'.
    split; [exact R'|]. rewrite Hlive, U', U. reflexivity.
Qed.

(** X18. One watcher at a time, as long as the runs of [watch] do not
    overlap.  In a session where every run of [watch] is through its two
    [await]s before the next event, the watchers that are registered and
    not released are none, or the single one whose handle [unwatch]
    holds: each call of [watch] releases that handle before the next
    watcher is registered. *)
Theorem one_watcher_when_runs_settle (w : World) (evs : list Event) :
  let x := settledSteps (settleWatch (activate w)) evs in
  watchRuns x = []
  /\ liveWatchers (hostCalls x) [] = option_list (unwatch x)
  /\ (length (liveWatchers (hostCalls x) []) <= 1)%nat.
Proof.
  assert (Hinv : settledInvariant (settledSteps (settleWatch (activate w)) evs)).
  { generalize (settledInvariant_activate w).
    generalize (settleWatch (activate w)).
    induction evs as [|ev evs IH]; intros x Hx; [exact Hx|].
    apply IH. now apply settledInvariant_step. }
  destruct Hinv as [Hruns Hlive]. cbn zeta.
  split; [exact Hruns|]. split; [exact Hlive|]. rewrite Hlive.
  destruct (unwatch _); simpl; lia.
Qed.

(** ** Runs of [watch] that overlap *)

Lemma step_editor x e :
  disposed (world x) = false ->
  step x (ActiveTextEditorChanged (Some e))
  = liftAsync decorateDebounce
      (watch (setWorld (setActiveTextEditor (Some e) (world x)) x)).
Proof.
  intros Hd. unfold step, subscription, onDidChangeActiveTextEditor.
  cbn [hostUpdate world setWorld disposed setActiveTextEditor].
  now rewrite Hd.
Qed.

(** A change of the active editor, whatever is in flight: the handle held
    is released and one more run of [watch] is in flight. *)
Lemma editor_change_effect x e :
  disposed (world x) = false ->
  let y := step x (ActiveTextEditorChanged (Some e)) in
  unwatch y = None
  /\ watchers y = watchers x
  /\ hostCalls y
     = (hostCalls x
        ++ match unwatch x with
           | Some (id, _) => [HostUnwatch id]
           | None => []
           end)%list
  /\ watchRuns y
     = (watchRuns x
        ++ [AwaitingIsNotePath (fsPath (document e))
              (PathCodec.isNotePath (notesRoot (world x))
                 (fsPath (document e)))])%list
  /\ disposed (world y) = false
  /\ notesRoot (world y) = notesRoot (world x).
Proof.
  intros Hd y. subst y. rewrite step_editor by exact Hd.
  set (x1 := setWorld (setActiveTextEditor (Some e) (world x)) x).
  destruct (watch_effect x1) as (U & W & H & R).
  cbn -[PathCodec.isNotePath] in R. rewrite Hd in R.
  split; [exact U|]. split; [exact W|]. split; [exact H|].
  split; [exact R|].
  cbn -[watch]. rewrite watch_world. cbn. now split.
Qed.

Lemma extension_eta y :
  y = mkExtension (world y) (unwatch y) (watchRuns y) (watchers y)
        (sweepTimer y) (decorateTimer y) (hostCalls y).
Proof. now destruct y. Qed.

(** The editor changes twice before any run of [watch] goes on: two runs
    are in flight and no handle is held. *)
Lemma two_runs_in_flight x e1 e2 :
  watchRuns x = [] -> disposed (world x) = false ->
  let root := notesRoot (world x) in
  let p1 := fsPath (document e1) in
  let p2 := fsPath (document e2) in
  exists w t d,
    steps x [ActiveTextEditorChanged (Some e1); ActiveTextEditorChanged (Some e2)]
    = mkExtension w None
        [AwaitingIsNotePath p1 (PathCodec.isNotePath root p1);
         AwaitingIsNotePath p2 (PathCodec.isNotePath root p2)]
        (watchers x) t d
        (hostCalls x
         ++ match unwatch x with
            | Some (id, _) => [HostUnwatch id]
            | None => []
            end).
Proof.
  intros Hruns Hd root p1 p2. subst root p1 p2.
  unfold steps. cbn [fold_left].
  destruct (editor_change_effect x e1 Hd) as (U1 & W1 & H1 & R1 & D1 & N1).
  destruct (editor_change_effect _ e2 D1) as (U2 & W2 & H2 & R2 & _ & _).
  rewrite U1, app_nil_r in H2. rewrite R1, Hruns, N1 in R2.
  eexists _, _, _.
  rewrite (extension_eta (step _ (ActiveTextEditorChanged (Some e2)))).
  rewrite U2, W2, W1, H2, H1, R2. reflexivity.
Qed.

(** Two runs of [watch] for source files, each through its two [await]s,
    in whatever order: both register a watcher, and the handle held at
    the end is that of one of them. *)
Lemma two_runs_end w p1 p2 n t d h (k1 k2 k3 k4 : nat) :
  let y := mkExtension w None
             [AwaitingIsNotePath p1 false; AwaitingIsNotePath p2 false]
             n t d h in
  let y' := continueWatch k4 (continueWatch k3
              (continueWatch k2 (continueWatch k1 y))) in
  watchRuns y' = [] ->
  exists pa pb,
    hostCalls y' = (h ++ [HostWatch n pa; HostWatch (S n) pb])%list
    /\ watchers y' = S (S n)
    /\ (unwatch y' = Some (n, pa) \/ unwatch y' = Some (S n, pb)).
Proof.
  cbn zeta.
  destruct k1 as [|[|k1]]; destruct k2 as [|[|k2]];
    destruct k3 as [|[|k3]]; destruct k4 as [|[|k4]];
    cbn; rewrite ?lookup_nil; cbn; try discriminate; intros _;
    rewrite <- ?app_assoc; eauto 6.
Qed.

Lemma leaked_frame id s x x' :
  leaked id s x -> watchFrame x x' -> leaked id s x'.
Proof.
  intros (Hlive & Hlt & Hheld & Hruns) Hframe.
  pose proof (watchFrame_live _ _ Hframe) as Hlive'.
  destruct Hframe as (U & R & W & _).
  unfold leaked. rewrite Hlive', U, R, W. auto.
Qed.

Lemma leaked_watch id s x : leaked id s x -> leaked id s (watch x).
Proof.
  intros (Hlive & Hlt & Hheld & Hruns).
  destruct (watch_effect x) as (U & W & H & R).
  unfold leaked. rewrite U, W, H, R, liveWatchers_app.
  split; [|split; [exact Hlt | split; [discriminate|]]].
  - destruct (unwatch x) as [[id' s']|]; [|exact Hlive]. cbn.
    apply list_elem_of_In, filter_In. split; [now apply list_elem_of_In|].
    cbn. destruct (Nat.eqb_spec id id') as [->|]; [|reflexivity].
    now destruct (Hheld s').
  - intros p Hin. apply elem_of_app in Hin as [Hin|Hin];
      [now apply (Hruns p)|].
    destruct (disposed (world x)); [inversion Hin|].
    destruct (activeTextEditor (world x)); [|inversion Hin].
    apply list_elem_of_singleton in Hin. discriminate Hin.
Qed.

Lemma leaked_continueWatch id s k x :
  leaked id s x -> leaked id s (continueWatch k x).
Proof.
  intros (Hlive & Hlt & Hheld & Hruns).
  destruct (watchRuns x !! k) as [[p [|]|id' p]|] eqn:Hk.
  - rewrite (continueWatch_note k x p Hk).
    split; [exact Hlive|]. split; [exact Hlt|]. split; [exact Hheld|].
    intros p' Hin. apply list_elem_of_delete_inv in Hin. now apply (Hruns p').
  - rewrite (continueWatch_source k x p Hk). unfold leaked. cbn.
    rewrite liveWatchers_app. cbn.
    split; [apply elem_of_app; now left|]. split; [lia|].
    split; [exact Hheld|].
    intros p' Hin. apply list_elem_of_lookup in Hin as [i Hi].
    apply list_lookup_insert_Some in Hi as [(_ & Heq & _) | (_ & Hi)].
    + injection Heq as Heq _. lia.
    + apply list_elem_of_lookup_2 in Hi. now apply (Hruns p').
  - rewrite (continueWatch_handle k x id' p Hk).
    split; [exact Hlive|]. split; [exact Hlt|]. split.
    + cbn. intros s' Heq. injection Heq as -> _.
      apply list_elem_of_lookup_2 in Hk. now apply (Hruns p).
    + intros p' Hin. apply list_elem_of_delete_inv in Hin.
      now apply (Hruns p').
  - now rewrite (continueWatch_idle k x Hk).
Qed.

Lemma leaked_step id s x ev : leaked id s x -> leaked id s (step x ev).
Proof.
  intros Hleak.
  destruct (step_cases x ev) as [Hframe | [[k ->] | (e & -> & Hd & Hstep)]].
  - now apply (leaked_frame id s x).
  - now apply leaked_continueWatch.
  - rewrite Hstep.
    eapply leaked_frame; [|apply watchFrame_liftAsync].
    apply leaked_watch.
    eapply leaked_frame; [exact Hleak | apply watchFrame_setWorld].
Qed.

Lemma leaked_steps id s evs x : leaked id s x -> leaked id s (steps x evs).
Proof.
  revert x. induction evs as [|ev evs IH]; intros x Hleak; [exact Hleak|].
  apply IH. now apply leaked_step.
Qed.

(** X19. Runs of [watch] that overlap lose a watcher.  The active editor
    changes to a source file and then to another before the first run of
    [watch] has gone on from its [await]: whatever the order in which the
    two runs then go through their [await]s, two watchers are registered,
    one handle is held in [unwatch], and the watcher whose handle is not
    held stays registered whatever happens afterwards, since no later
    call of [watch] can release it. *)
Theorem overlapping_watch_runs_leak (x : Extension) (e1 e2 : TextEditor)
    (k1 k2 k3 k4 : nat) (lost : nat * string) (evs : list Event) :
  settledInvariant x -> disposed (world x) = false ->
  PathCodec.isNotePath (notesRoot (world x)) (fsPath (document e1)) = false ->
  PathCodec.isNotePath (notesRoot (world x)) (fsPath (document e2)) = false ->
  let x' := steps x
              [ActiveTextEditorChanged (Some e1);
               ActiveTextEditorChanged (Some e2);
               WatchContinued k1; WatchContinued k2;
               WatchContinued k3; WatchContinued k4] in
  watchRuns x' = [] ->
  lost ∈ liveWatchers (hostCalls x') [] -> unwatch x' <> Some lost ->
  length (liveWatchers (hostCalls x') []) = 2%nat
  /\ (exists held, unwatch x' = Some held
                   /\ held ∈ liveWatchers (hostCalls x') [])
  /\ lost ∈ liveWatchers (hostCalls (steps x' evs)) [].
Proof.
  intros [Hruns Hlive] Hd Hp1 Hp2 x'.
  destruct (two_runs_in_flight x e1 e2 Hruns Hd) as (w & t & d & Htwo).
  cbn zeta in Htwo. rewrite Hp1, Hp2 in Htwo.
  assert (Hx' : x' = continueWatch k4 (continueWatch k3 (continueWatch k2
                       (continueWatch k1
                          (steps x [ActiveTextEditorChanged (Some e1);
                                    ActiveTextEditorChanged (Some e2)])))))
    by reflexivity.
  rewrite Htwo in Hx'. clearbody x'. subst x'.
  intros Hend.
  destruct (two_runs_end _ _ _ _ _ _ _ k1 k2 k3 k4 Hend)
    as (pa & pb & Hcalls & Hn & Hheld).
  set (x' := continueWatch k4 _) in *.
  assert (Hlive' : liveWatchers (hostCalls x') []
                   = [(watchers x, pa); (S (watchers x), pb)]).
  { rewrite Hcalls, !liveWatchers_app, Hlive.
    destruct (unwatch x) as [[id s]|]; cbn; rewrite ?Nat.eqb_refl;
      reflexivity. }
  rewrite Hlive'. intros Hin Hnot.
  split; [reflexivity|]. split.
  { destruct Hheld as [-> | ->]; eexists; (split; [reflexivity|]);
      [left | right; left]. }
  destruct lost as [id s].
  apply (leaked_steps id s evs x').
  unfold leaked. rewrite Hlive', Hn, Hend.
  split; [exact Hin|].
  apply elem_of_cons in Hin as [Hin | Hin];
    [|apply list_elem_of_singleton in Hin]; injection Hin as -> ->.
  - split; [lia|]. split; [|intros p Hp; inversion Hp].
    destruct Hheld as [Hheld | Hheld]; [now destruct Hnot|].
    rewrite Hheld. intros s' Heq. injection Heq as Heq _. lia.
  - split; [lia|]. split; [|intros p Hp; inversion Hp].
    destruct Hheld as [Hheld | Hheld]; [|now destruct Hnot].
    rewrite Hheld. intros s' Heq. injection Heq as Heq _. lia.
Qed.

(** ** Disposal *)


Lemma finishSweep_effect elapsed start interval x :
  let w := world x in
  let delay :=
    mathMax0 (numSub interval (roundInteger (now w + elapsed - start))) in
  world (finishSweep elapsed start interval x)
  = record (CallSetTimeout delay)
      (setNow (now w + elapsed)
         (setFiles
            (filter (fun kv => orphaned (notesRoot w) (files w) kv.1 = false)
                    (files w)) w))
  /\ sweepTimer (finishSweep elapsed start interval x)
     = Some (SweepWaiting delay).
Proof.
  cbn zeta. split; [reflexivity|].
  unfold finishSweep. cbn [sweepTimer setSweepTimer].
  rewrite (callsMade_app _ _
             [CallSetTimeout
                (mathMax0 (numSub interval
                   (roundInteger (now (world x) + elapsed - start))))]);
    reflexivity.
Qed.

Lemma startSweep_disposed x :
  disposed (world x) = true -> startSweep x = setSweepTimer None x.
Proof.
  intros Hd. unfold startSweep. rewrite sweepBegin_run, Hd.
  now destruct x.
Qed.

(** X16. Disposal does not stop an iteration of the sweep that is
    suspended at [await removeNotCorrespondingNotes()]: [disposed] is
    read only where the iteration starts.  When the extension is disposed
    of during the sweep, the iteration still ends as if nothing had
    happened: the orphaned notes are gone and [setTimeout] is called with
    the remaining part of the interval.  It is the iteration which that
    timer starts that sees [disposed] and ends the loop, without a call
    and without a timer. *)
Theorem sweep_in_flight_outlives_disposal (x : Extension)
    (start elapsed : Z) (interval : Number) :
  sweepTimer x = Some (SweepRunning start interval) ->
  let w := world x in
  let delay :=
    mathMax0 (numSub interval (roundInteger (now w + elapsed - start))) in
  let x1 := steps x [Deactivated; SweepSettled elapsed] in
  disposed (world x1) = true
  /\ files (world x1)
     = filter (fun kv => orphaned (notesRoot w) (files w) kv.1 = false) (files w)
  /\ calls (world x1) = (calls w ++ [CallSetTimeout delay])%list
  /\ sweepTimer x1 = Some (SweepWaiting delay)
  /\ step x1 SweepTimerFired = setSweepTimer None x1.
Proof.
  intros Hsweep w delay x1.
  assert (Hx1 : x1 = finishSweep elapsed start interval
                       (setWorld (setDisposed true (world x)) x)).
  { subst x1. unfold steps. cbn [fold_left]. unfold step at 2.
    unfold step. cbn [sweepTimer setWorld]. now rewrite Hsweep. }
  destruct (finishSweep_effect elapsed start interval
              (setWorld (setDisposed true (world x)) x)) as [Hworld Htimer].
  rewrite <- Hx1 in Hworld, Htimer.
  cbn [world setWorld setDisposed now files notesRoot] in Hworld, Htimer.
  fold w in Hworld, Htimer. fold delay in Hworld, Htimer.
  rewrite Hworld.
  split; [reflexivity|]. split; [reflexivity|]. split; [reflexivity|].
  split; [exact Htimer|].
  unfold step. rewrite Htimer. apply startSweep_disposed.
  now rewrite Hworld.
Qed.

Lemma list_delete_insert_same {A} (l : list A) k r :
  delete k (<[k := r]> l) = delete k l.
Proof.
  revert k. induction l as [|a l IH]; intros [|k]; cbn; try reflexivity.
  f_equal. apply IH.
Qed.

(** X20. Disposal does not stop a run of [watch] that is suspended at an
    [await] either: [disposed] is read before the first [await] only.  A
    call of [watch()] on a disposed extension releases the handle held
    and starts nothing; but a run that waits for [isNotePath] on a source
    file when the extension is disposed of still calls
    [watchCorrespondingNotes] and stores the handle, so that a watcher is
    registered, and stays, after disposal. *)
Theorem watch_in_flight_outlives_disposal (x : Extension) (k : nat)
    (p : string) :
  watchRuns x !! k = Some (AwaitingIsNotePath p false) ->
  let x' := steps x [Deactivated; WatchContinued k; WatchContinued k] in
  disposed (world x') = true
  /\ hostCalls x' = (hostCalls x ++ [HostWatch (watchers x) p])%list
  /\ unwatch x' = Some (watchers x, p)
  /\ watchRuns x' = delete k (watchRuns x)
  /\ watchRuns (watch x') = watchRuns x'
  /\ hostCalls (watch x') = (hostCalls x' ++ [HostUnwatch (watchers x)])%list.
Proof.
  intros Hk x'.
  set (x0 := setWorld (setDisposed true (world x)) x).
  assert (Hx' : x' = continueWatch k (continueWatch k x0)) by reflexivity.
  clearbody x'.
  rewrite (continueWatch_source k x0 p Hk) in Hx'.
  rewrite (continueWatch_handle k _ (watchers x) p) in Hx'.
  2:{ cbn. apply list_lookup_insert_eq. now apply lookup_lt_Some in Hk. }
  cbn in Hx'.
  assert (Hdel : delete k (<[k := AwaitingWatcher (watchers x) p]> (watchRuns x))
                 = delete k (watchRuns x)).
  { apply list_delete_insert_same. }
  rewrite Hdel in Hx'. subst x'.
  destruct (watch_effect
              (mkExtension (setDisposed true (world x)) (Some (watchers x, p))
                 (delete k (watchRuns x)) (S (watchers x)) (sweepTimer x)
                 (decorateTimer x) (hostCalls x ++ [HostWatch (watchers x) p])))
    as (_ & _ & H & R).
  cbn in H, R. rewrite app_nil_r in R.
  repeat split; assumption.
Qed.




(** ** Sample runs, continued *)

Lemma addNote_ends_with_note_open_witness :
  exists n,
    sourceFilePath n = appTs
    /\ files (exec (addNote 9) (sampleWorld oneNoteFiles 0 0))
          !! notePath sampleRoot n
       = Some (default [] (oneNoteFiles !! notePath sampleRoot n)).
Proof.
  destruct (addNote_ends_with_note_open (sampleWorld oneNoteFiles 0 0)
              (mkTextEditor (appDocument 10) (linesSelection 0 0)) 9
              eq_refl eq_refl) as (n & Hsrc & _ & Hp & _).
  exists n. split; [exact Hsrc | exact Hp].
Defined.

Lemma addNote_twice_creates_once_witness :
  let w1 := exec (addNote 9) (sampleWorld oneNoteFiles 0 0) in
  exists p,
    last (calls w1) = Some (CallOpen p)
    /\ files (exec (addNote 11) w1) = files w1
    /\ callsMade (addNote 11) w1 = [CallNoteExists p true; CallOpen p].
Proof.
  exact (addNote_twice_creates_once (sampleWorld oneNoteFiles 0 0)
           (mkTextEditor (appDocument 10) (linesSelection 0 0)) 9 11
           eq_refl eq_refl).
Defined.

Lemma openNote_at_sample_calls :
  callsMade (openNote None) (sampleWorld twoNoteFiles 4 5)
  = [CallOpen (appNote 4 6 1); CallOpen (appNote 5 8 2)].
Proof. vm_compute. reflexivity. Qed.

Lemma openNote_opens_overlapping_witness :
  callsMade (openNote None) (sampleWorld twoNoteFiles 4 5)
  = [CallOpen (appNote 4 6 1); CallOpen (appNote 5 8 2)].
Proof.
  pose proof (openNote_opens_overlapping (sampleWorld twoNoteFiles 4 5)
                (mkTextEditor (appDocument 10) (linesSelection 4 5)) None
                eq_refl eq_refl eq_refl) as H.
  vm_compute in H. destruct H as (_ & _ & H). vm_compute. exact H.
Defined.

Lemma commands_with_path_ignore_editor_witness :
  files (exec (removeNote (Some (appNote 4 6 1))) noteEditorWorld)
    !! appNote 4 6 1 = None.
Proof.
  destruct (commands_with_path_ignore_editor noteEditorWorld (appNote 4 6 1)
              (mkNote appTs 4 6 1) eq_refl) as [H _].
  unfold exec. rewrite H. apply lookup_delete_eq.
Defined.

Lemma commands_reject_invalid_path_witness :
  run (removeNote (Some appTs)) (sampleWorld twoNoteFiles 4 5)
  = (Thrown InvalidNotePathError, sampleWorld twoNoteFiles 4 5).
Proof.
  exact (proj2 (commands_reject_invalid_path (sampleWorld twoNoteFiles 4 5) appTs
                  ltac:(unfold appTs; discriminate) eq_refl)).
Defined.

Lemma removeNote_removes_first_opened_witness :
  exists p,
    callsMade (removeNote None) (sampleWorld twoNoteFiles 4 5)
    = [CallRemove p; CallDecorateDebounce].
Proof.
  pose proof (removeNote_removes_first_opened (sampleWorld twoNoteFiles 4 5)
                (mkTextEditor (appDocument 10) (linesSelection 4 5)) None
                eq_refl eq_refl eq_refl) as H.
  rewrite openNote_at_sample_calls in H.
  destruct H as (p & _ & H & _). exists p. exact H.
Defined.

Lemma removeNote_updates_listing_witness :
  mkNote appTs 4 6 1
  ∉ correspondingNotes sampleRoot
      (files (exec (removeNote None) (sampleWorld twoNoteFiles 4 5))) appTs.
Proof.
  exact (proj2 (proj2
    (removeNote_updates_listing (sampleWorld twoNoteFiles 4 5)
       (mkTextEditor (appDocument 10) (linesSelection 4 5)) None
       (mkNote appTs 4 6 1) eq_refl eq_refl eq_refl
       ltac:(vm_compute; reflexivity)))).
Defined.

Lemma sweep_delay_never_negative_witness :
  geZero (Finite 1500) = true.
Proof.
  apply (sweep_delay_never_negative (sampleWorld oneNoteFiles 0 0) 500).
  assert (H : callsMade (automaticallyDelete 500) (sampleWorld oneNoteFiles 0 0)
              = [CallRemoveNotCorrespondingNotes; CallSetTimeout (Finite 1500)])
    by (vm_compute; reflexivity).
  rewrite H. apply elem_of_cons. right. apply elem_of_cons. left. reflexivity.
Defined.

Lemma revealLine_of_selection_range_witness :
  (revealLine appTs 4 6 (idleExtension (sampleWorld oneNoteFiles 3 5))).1
  = Fulfilled.
Proof.
  destruct (revealLine_of_selection_range
              (idleExtension (sampleWorld oneNoteFiles 3 5))
              (mkTextEditor (appDocument 10) (linesSelection 3 5))
              eq_refl eq_refl ltac:(vm_compute; lia))
    as (range & lastLine & H & _).
  exact (f_equal fst H).
Defined.

Lemma revealLine_shows_active_document_witness :
  exists range,
    hostCalls (revealLine "/proj/lib.ts" 1 2
                 (idleExtension (sampleWorld twoNoteFiles 0 0))).2
    = [HostConsoleLog "/proj/lib.ts"; HostOpenTextDocument "/proj/lib.ts";
       HostShowTextDocument (appDocument 10) range].
Proof.
  destruct (revealLine_shows_active_document "/proj/lib.ts" 1 2
              (idleExtension (sampleWorld twoNoteFiles 0 0))
              (mkTextEditor (appDocument 10) (linesSelection 0 0))
              eq_refl ltac:(vm_compute; discriminate)
              ltac:(vm_compute; eexists; reflexivity)
              ltac:(vm_compute; split; discriminate)
              ltac:(vm_compute; split; discriminate))
    as (range & _ & H & _).
  exists range. exact H.
Defined.

Lemma revealLine_needs_existing_lines_witness :
  (revealLine appTs 0 3 (idleExtension (sampleWorld oneNoteFiles 0 0))).1
  = Fulfilled
  <-> (1 <= 0 <= 10)%Z /\ (1 <= 3 <= 10)%Z.
Proof.
  exact (proj1 (revealLine_needs_existing_lines 0 3
                  (idleExtension (sampleWorld oneNoteFiles 0 0))
                  (mkTextEditor (appDocument 10) (linesSelection 0 0))
                  eq_refl)).
Defined.

Lemma commands_need_an_editor_witness :
  run (addNote 9) noEditorWorld = (Returned tt, noEditorWorld)
  /\ revealLine appTs 4 6 (idleExtension noEditorWorld)
     = (Fulfilled, hostCall (HostConsoleLog appTs) (idleExtension noEditorWorld)).
Proof.
  destruct (commands_need_an_editor (idleExtension noEditorWorld) 9 None appTs 4 6
              eq_refl eq_refl) as (H1 & _ & _ & H4).
  split; [exact H1 | exact H4].
Defined.

Lemma sweep_never_resumes_witness :
  truthy (configured (world (steps (activate sweepOffWorld) switchOnLater))
            "linenote.automaticallyDelete") = true
  /\ sweepTimer (steps (activate sweepOffWorld) switchOnLater) = None
  /\ callsGrow notSweep (world (activate sweepOffWorld))
       (world (steps (activate sweepOffWorld) switchOnLater)).
Proof.
  split; [vm_compute; reflexivity|].
  apply (sweep_never_resumes (activate sweepOffWorld) switchOnLater).
  vm_compute. reflexivity.
Defined.

Lemma watchers_are_for_sources_witness :
  HostWatch 0 appTs
  ∈ hostCalls (steps (activate (sampleWorld oneNoteFiles 0 0)) [WatchContinued 0])
  /\ PathCodec.isNotePath sampleRoot appTs = false.
Proof.
  assert (H : HostWatch 0 appTs
              ∈ hostCalls (steps (activate (sampleWorld oneNoteFiles 0 0))
                             [WatchContinued 0]))
    by (vm_compute; repeat constructor).
  split; [exact H|].
  exact (watchers_are_for_sources (sampleWorld oneNoteFiles 0 0)
           [WatchContinued 0] 0 appTs H).
Defined.

Lemma sweep_in_flight_outlives_disposal_witness :
  sweepTimer (activate (sampleWorld orphanNoteFiles 0 0))
  = Some (SweepRunning 1000 (Finite 2000))
  /\ files (world (steps (activate (sampleWorld orphanNoteFiles 0 0))
                     [Deactivated; SweepSettled 500])) = ∅
  /\ sweepTimer (steps (activate (sampleWorld orphanNoteFiles 0 0))
                   [Deactivated; SweepSettled 500])
     = Some (SweepWaiting (Finite 1500))
  /\ sweepTimer (step (steps (activate (sampleWorld orphanNoteFiles 0 0))
                         [Deactivated; SweepSettled 500]) SweepTimerFired)
     = None.
Proof.
  assert (H : sweepTimer (activate (sampleWorld orphanNoteFiles 0 0))
              = Some (SweepRunning 1000 (Finite 2000)))
    by (vm_compute; reflexivity).
  split; [exact H|].
  destruct (sweep_in_flight_outlives_disposal
              (activate (sampleWorld orphanNoteFiles 0 0)) 1000 500
              (Finite 2000) H) as (_ & Hf & _ & Ht & Hs).
  split; [rewrite Hf; vm_compute; reflexivity|].
  split; [rewrite Ht; vm_compute; reflexivity|].
  rewrite Hs. reflexivity.
Defined.

Lemma watcher_follows_active_editor_witness :
  unwatch (settleWatch
             (step (idleExtension (sampleWorld oneNoteFiles 0 0))
                (ActiveTextEditorChanged (Some appEditor))))
  = Some (0%nat, appTs).
Proof.
  exact (proj1 (watcher_follows_active_editor
                  (idleExtension (sampleWorld oneNoteFiles 0 0))
                  appEditor eq_refl eq_refl)).
Defined.

Lemma overlapping_watch_runs_leak_witness :
  liveWatchers
    (hostCalls (steps (idleExtension (sampleWorld oneNoteFiles 0 0)) quickSwitch))
    []
  = [(0%nat, "/proj/lib.ts"); (1%nat, appTs)]
  /\ unwatch (steps (idleExtension (sampleWorld oneNoteFiles 0 0)) quickSwitch)
     = Some (1%nat, appTs)
  /\ (0%nat, "/proj/lib.ts")
     ∈ liveWatchers
         (hostCalls
            (steps (steps (idleExtension (sampleWorld oneNoteFiles 0 0)) quickSwitch)
               [ActiveTextEditorChanged (Some libEditor);
                WatchContinued 0; WatchContinued 0; Deactivated]))
         [].
Proof.
  split; [vm_compute; reflexivity|]. split; [vm_compute; reflexivity|].
  exact (proj2 (proj2
    (overlapping_watch_runs_leak
       (idleExtension (sampleWorld oneNoteFiles 0 0)) libEditor appEditor
       0 1 0 0 (0%nat, "/proj/lib.ts")
       [ActiveTextEditorChanged (Some libEditor);
        WatchContinued 0; WatchContinued 0; Deactivated]
       (conj eq_refl eq_refl) eq_refl
       ltac:(vm_compute; reflexivity) ltac:(vm_compute; reflexivity)
       ltac:(vm_compute; reflexivity)
       ltac:(vm_compute; repeat constructor)
       ltac:(vm_compute; discriminate)))).
Defined.

Lemma watch_in_flight_outlives_disposal_witness :
  watchRuns (step (idleExtension (sampleWorld oneNoteFiles 0 0))
               (ActiveTextEditorChanged (Some libEditor))) !! 0%nat
  = Some (AwaitingIsNotePath "/proj/lib.ts" false)
  /\ disposed (world (steps (step (idleExtension (sampleWorld oneNoteFiles 0 0))
                               (ActiveTextEditorChanged (Some libEditor)))
                        [Deactivated; WatchContinued 0; WatchContinued 0]))
     = true
  /\ unwatch (steps (step (idleExtension (sampleWorld oneNoteFiles 0 0))
                       (ActiveTextEditorChanged (Some libEditor)))
                [Deactivated; WatchContinued 0; WatchContinued 0])
     = Some (0%nat, "/proj/lib.ts").
Proof.
  assert (H : watchRuns (step (idleExtension (sampleWorld oneNoteFiles 0 0))
                           (ActiveTextEditorChanged (Some libEditor))) !! 0%nat
              = Some (AwaitingIsNotePath "/proj/lib.ts" false))
    by (vm_compute; reflexivity).
  split; [exact H|].
  destruct (watch_in_flight_outlives_disposal _ 0 "/proj/lib.ts" H)
    as (Hd & _ & Hu & _).
  split; [exact Hd | exact Hu].
Defined.


(** A session at the sample world: the editor moves to a note and back,
    each run of [watch] ending before the next event. *)
Example watcher_session_at_sample :
  hostCalls
    (settledSteps (settleWatch (activate (sampleWorld oneNoteFiles 0 0)))
       [ActiveTextEditorChanged
          (Some (mkTextEditor (mkTextDocument (appNote 4 6 1) [js "todo"]) (caret 0)));
        ActiveTextEditorChanged (Some appEditor);
        DecorateTimerFired])
  = [HostWatch 0 appTs; HostUnwatch 0; HostWatch 1 appTs; HostDecorate].
Proof. vm_compute. reflexivity. Qed.

(** The same two changes of the editor with the runs of [watch]
    overlapping: the watcher of [/proj/lib.ts] is never released. *)
Example quick_switch_at_sample :
  hostCalls (steps (idleExtension (sampleWorld oneNoteFiles 0 0))
               (quickSwitch ++ [ActiveTextEditorChanged (Some libEditor);
                                WatchContinued 0; WatchContinued 0]))
  = [HostWatch 0 "/proj/lib.ts"; HostWatch 1 appTs; HostUnwatch 1;
     HostWatch 2 "/proj/lib.ts"].
Proof. vm_compute. reflexivity. Qed.
